(** * Ticketless Entry System: the spreadsheet back end (src/gas/Code.gs)

    A shallow embedding of the check-in engine ([checkInUser],
    [manualCheckIn]), the dashboard aggregator ([getDashboardData]) and the
    reconciliation engine ([syncECData]) of the Apps Script back end, with
    the properties the specification states about them; and of the web
    endpoint ([doGet], [doPost]), the token and QR code functions
    ([generateHash], [generateToken], [getQRCodeUrl]) and the ticket
    distribution ([sendTickets]), with properties read off the code.

    Conventions of the embedding.
    - A sheet is the array returned by [getDataRange().getValues()]: a list
      of rows, index 0 being the header row.  Every loop of the source
      starts at index 1.  The Attendees sheet is taken as
      [getAttendeesSheet()] returns it: with its header row and 11 columns
      wide.
    - A cell value is a JavaScript string, number, boolean or Date.  Numbers
      are the integers (ids, price codes, quantities); [String] of a number
      is its decimal representation.  Sums are those of integers, as the
      sums of the source are up to 2^53; a statement that depends on the
      value of a sum assumes [safeQuantities].
    - Strings are byte strings holding UTF-8 text.
    - [new Date()] is an argument [now] of the function that reads the clock
      (milliseconds since the epoch).
    - The date renderings of the platform ([Utilities.formatDate] with the
      pattern of the source, [Date.prototype.toString], [Date.parse]) are
      the fields of the class [Platform].
    - An object literal used as a dictionary is a finite map of its own
      keys, read with [getProperty]: under a name that is not an own key it
      yields the member inherited from [Object.prototype], if there is one.
    - The SHA-256 digest of the platform is the field of the class
      [Digest]; the hexadecimal rendering of its bytes is modelled.
    - In [sendTickets] the calls that can fail for reasons outside the
      sheet, [UrlFetchApp.fetch] and [MailApp.sendEmail], throw or not as a
      [World.t] says for each row; the digest and the writes to the sheet
      do not throw.  A mail is the record of its recipient, its subject and
      the values its HTML template is filled with. *)

From Stdlib Require Import ZArith Lia Ascii String.
From stdpp Require Import base option list strings pretty gmap fin_maps.

Local Open Scope string_scope.
Local Open Scope Z_scope.

(** ** JavaScript values held by cells *)

Inductive Cell : Type :=
  | CStr (s : string)
  | CNum (n : Z)
  | CBool (b : bool)
  | CDate (t : Z).

#[global] Instance Cell_eq_dec : EqDecision Cell.
Proof. solve_decision. Defined.

(** A Date object: [None] is the Invalid Date. *)
Definition JSDate : Type := option Z.

(** The date functions of the host platform. *)
Class Platform : Type := {
  (** [Utilities.formatDate(d, Session.getScriptTimeZone(), 'yyyy-MM-dd HH:mm:ss')] *)
  formatDate : JSDate -> string;
  (** [String(d)] for a Date [d] *)
  dateToString : Z -> string;
  (** [Date.parse(s)] *)
  dateParse : string -> JSDate;
  (** The value a cell holds after [Range.setValues] has been given, in
      place of a string, the member of [Object.prototype] of this name *)
  storedMember : string -> Cell
}.

(** ToBoolean: what [if (x)], [!x] and [x || d] test. *)
Definition truthy (c : Cell) : bool :=
  match c with
  | CStr s => negb (String.eqb s "")
  | CNum n => negb (n =? 0)
  | CBool b => b
  | CDate _ => true
  end.

(** [x || d] *)
Definition orElse (x d : Cell) : Cell := if truthy x then x else d.

Section Values.
Context `{Platform}.

(** [String(x)], [x.toString()] and the conversion of a template literal. *)
Definition toStr (c : Cell) : string :=
  match c with
  | CStr s => s
  | CNum n => pretty n
  | CBool true => "true"
  | CBool false => "false"
  | CDate t => dateToString t
  end.

(** [new Date(x)] *)
Definition newDate (c : Cell) : JSDate :=
  match c with
  | CDate t => Some t
  | CNum n => if (Z.abs n <=? 8640000000000000) then Some n else None
  | CBool b => Some (if b then 1 else 0)
  | CStr s => dateParse s
  end.

End Values.

(** ** String.prototype.trim and parseInt *)

Definition byte (c : ascii) : N := N_of_ascii c.

(** The white-space and line-terminator code points of ECMAScript, as
    UTF-8 byte sequences: U+0009..U+000D and U+0020; U+00A0; U+1680,
    U+2000..U+200A, U+2028, U+2029, U+202F, U+205F, U+3000 and U+FEFF. *)
Definition ws1 (a : ascii) : bool :=
  ((9 <=? byte a) && (byte a <=? 13) || (byte a =? 32))%N.

Definition ws2 (a b : ascii) : bool :=
  ((byte a =? 194) && (byte b =? 160))%N.

Definition ws3 (a b c : ascii) : bool :=
  ((byte a =? 225) && (byte b =? 154) && (byte c =? 128)
   || (byte a =? 226) && (byte b =? 128)
      && ((128 <=? byte c) && (byte c <=? 138)
          || (byte c =? 168) || (byte c =? 169) || (byte c =? 175))
   || (byte a =? 226) && (byte b =? 129) && (byte c =? 159)
   || (byte a =? 227) && (byte b =? 128) && (byte c =? 128)
   || (byte a =? 239) && (byte b =? 187) && (byte c =? 191))%N.

(** Removes one leading white-space code point. *)
Definition stripWs (s : string) : option string :=
  match s with
  | String a r =>
      if ws1 a then Some r
      else match r with
      | String b r2 =>
          if ws2 a b then Some r2
          else match r2 with
          | String c r3 => if ws3 a b c then Some r3 else None
          | EmptyString => None
          end
      | EmptyString => None
      end
  | EmptyString => None
  end.

(** The same on the reversed string: removes one trailing code point. *)
Definition stripWsRev (s : string) : option string :=
  match s with
  | String a r =>
      if ws1 a then Some r
      else match r with
      | String b r2 =>
          if ws2 b a then Some r2
          else match r2 with
          | String c r3 => if ws3 c b a then Some r3 else None
          | EmptyString => None
          end
      | EmptyString => None
      end
  | EmptyString => None
  end.

Fixpoint stripAll (strip : string -> option string) (fuel : nat) (s : string) : string :=
  match fuel with
  | O => s
  | S fuel' =>
      match strip s with
      | Some r => stripAll strip fuel' r
      | None => s
      end
  end.

(** A strip function removes a non-empty prefix. *)
Definition shrinking (strip : string → option string) : Prop :=
  ∀ s r, strip s = Some r → ∃ p, p ≠ "" ∧ s = p +:+ r.

Definition trimStart (s : string) : string := stripAll stripWs (String.length s) s.

Definition trimEnd (s : string) : string :=
  String.rev (stripAll stripWsRev (String.length s) (String.rev s)).

Definition trim (s : string) : string := trimEnd (trimStart s).

Definition digitValue (c : ascii) : option Z :=
  let n := Z.of_N (byte c) in
  if (48 <=? n) && (n <=? 57) then Some (n - 48)
  else if (97 <=? n) && (n <=? 122) then Some (n - 87)
  else if (65 <=? n) && (n <=? 90) then Some (n - 55)
  else None.

(** The longest prefix of digits below [radix], as a number; [acc] is [None]
    until a digit has been read. *)
Fixpoint parseDigits (radix : Z) (acc : option Z) (s : string) : option Z :=
  match s with
  | String c r =>
      match digitValue c with
      | Some d =>
          if d <? radix then parseDigits radix (Some (radix * default 0 acc + d)) r
          else acc
      | None => acc
      end
  | EmptyString => acc
  end.

(** [parseInt(s)] without a radix; [None] is NaN. *)
Definition parseInt (s : string) : option Z :=
  let s1 := trimStart s in
  let '(sign, s2) :=
    match s1 with
    | String "-" r => (-1, r)
    | String "+" r => (1, r)
    | _ => (1, s1)
    end in
  let '(radix, s3) :=
    match s2 with
    | String "0" (String "x" r) => (16, r)
    | String "0" (String "X" r) => (16, r)
    | _ => (10, s2)
    end in
  Z.mul sign <$> parseDigits radix None s3.

(** ** The Attendees sheet *)

(** One row of the Attendees sheet; the fields are the columns 0 to 10 the
    source reads by position:
    ID | Name | Email | Token | CheckInTime | EmailSent | TicketType |
    StartTime | ReEntryHistory | Inviter | Note.
    [getAttendeesSheet] makes the header row 11 columns wide, so every row
    of the data range has these 11 cells. *)
Record Row : Type := mkRow {
  ID : Cell;
  Name : Cell;
  Email : Cell;
  Token : Cell;
  CheckInTime : Cell;
  EmailSent : Cell;
  TicketType : Cell;
  StartTime : Cell;
  ReEntryHistory : Cell;
  Inviter : Cell;
  Note : Cell
}.

#[global] Instance Row_eq_dec : EqDecision Row.
Proof. solve_decision. Defined.

Abbreviation Sheet := (list Row).

(** Writes [v] in column [col] (1-based, as [getRange] counts) of a row. *)
Definition setCell (col : Z) (v : Cell) (r : Row) : Row :=
  match col with
  | 1 => mkRow v (Name r) (Email r) (Token r) (CheckInTime r) (EmailSent r) (TicketType r) (StartTime r) (ReEntryHistory r) (Inviter r) (Note r)
  | 2 => mkRow (ID r) v (Email r) (Token r) (CheckInTime r) (EmailSent r) (TicketType r) (StartTime r) (ReEntryHistory r) (Inviter r) (Note r)
  | 3 => mkRow (ID r) (Name r) v (Token r) (CheckInTime r) (EmailSent r) (TicketType r) (StartTime r) (ReEntryHistory r) (Inviter r) (Note r)
  | 4 => mkRow (ID r) (Name r) (Email r) v (CheckInTime r) (EmailSent r) (TicketType r) (StartTime r) (ReEntryHistory r) (Inviter r) (Note r)
  | 5 => mkRow (ID r) (Name r) (Email r) (Token r) v (EmailSent r) (TicketType r) (StartTime r) (ReEntryHistory r) (Inviter r) (Note r)
  | 6 => mkRow (ID r) (Name r) (Email r) (Token r) (CheckInTime r) v (TicketType r) (StartTime r) (ReEntryHistory r) (Inviter r) (Note r)
  | 7 => mkRow (ID r) (Name r) (Email r) (Token r) (CheckInTime r) (EmailSent r) v (StartTime r) (ReEntryHistory r) (Inviter r) (Note r)
  | 8 => mkRow (ID r) (Name r) (Email r) (Token r) (CheckInTime r) (EmailSent r) (TicketType r) v (ReEntryHistory r) (Inviter r) (Note r)
  | 9 => mkRow (ID r) (Name r) (Email r) (Token r) (CheckInTime r) (EmailSent r) (TicketType r) (StartTime r) v (Inviter r) (Note r)
  | 10 => mkRow (ID r) (Name r) (Email r) (Token r) (CheckInTime r) (EmailSent r) (TicketType r) (StartTime r) (ReEntryHistory r) v (Note r)
  | 11 => mkRow (ID r) (Name r) (Email r) (Token r) (CheckInTime r) (EmailSent r) (TicketType r) (StartTime r) (ReEntryHistory r) (Inviter r) v
  | _ => r
  end.

(** [sheet.getRange(row, col).setValue(v)], [row] and [col] counted from 1.
    The source only writes to rows it has just read, so the position is
    always inside the sheet. *)
Definition setValue (sheet : Sheet) (row col : Z) (v : Cell) : Sheet :=
  if 1 <=? row then alter (setCell col v) (Z.to_nat (row - 1)) sheet else sheet.

(** ** Outcomes of the check-in engine *)

(** The object a check-in returns; a key the object does not have is
    [None]. *)
Record Outcome : Type := mkOutcome {
  success : bool;
  status : option string;
  message : string;
  name : option Cell;
  id : option Cell;
  checkInTime : option string;
  ticketType : option Cell;
  startTime : option Cell
}.

Definition msgTokenNotProvided : string := "トークンが指定されていません / Token not provided".
Definition msgInvalidTicket : string := "無効なチケットです / Invalid ticket".
Definition msgAlreadyCheckedIn : string := "既に入場済みです / Already checked in".
Definition msgCheckInSuccessful : string := "入場を受け付けました / Check-in successful".
Definition msgMemberIdNotProvided : string := "会員IDが指定されていません / Member ID not provided".
Definition msgMemberIdNotFound : string := "会員IDが見つかりません / Member ID not found".

Definition newline : string := String (ascii_of_nat 10) EmptyString.

Section CheckIn.
Context `{Platform}.

(** [h ? `${h}\n${nowStr}` : nowStr] *)
Definition newHistory (h : Cell) (nowStr : string) : string :=
  if truthy h then toStr h +:+ newline +:+ nowStr else nowStr.

(** The loop of [checkInUser] from index [i] on; [rest] is [data.slice(i)]. *)
Fixpoint checkInUser_loop (token : string) (now : Z) (sheet : Sheet)
    (i : nat) (rest : list Row) : Outcome * Sheet :=
  match rest with
  | [] =>
      (mkOutcome false (Some "ERROR") msgInvalidTicket None None None None None, sheet)
  | row :: rest' =>
      let storedToken := Token row in
      let checkInTime := CheckInTime row in
      let name := Name row in
      let id := ID row in
      let ticketType := orElse (TicketType row) (CStr "StandardPass") in
      let startTime := orElse (StartTime row) (CStr "") in
      let reEntryHistory := orElse (ReEntryHistory row) (CStr "") in
      if decide (storedToken = CStr token) then
        let nowStr := formatDate (Some now) in
        if truthy checkInTime then
          let sheet' := setValue sheet (Z.of_nat i + 1) 9 (CStr (newHistory reEntryHistory nowStr)) in
          (mkOutcome false (Some "WARNING") msgAlreadyCheckedIn (Some name) (Some id)
             (Some (formatDate (newDate checkInTime))) (Some ticketType) (Some startTime),
           sheet')
        else
          let sheet' := setValue sheet (Z.of_nat i + 1) 5 (CDate now) in
          (mkOutcome true (Some "SUCCESS") msgCheckInSuccessful (Some name) (Some id)
             (Some nowStr) (Some ticketType) (Some startTime),
           sheet')
      else checkInUser_loop token now sheet (S i) rest'
  end.

(** [checkInUser(token)]: the outcome and the sheet after the call.  A
    missing request parameter is the empty token. *)
Definition checkInUser (token : string) (now : Z) (sheet : Sheet) : Outcome * Sheet :=
  if decide (token = "") then
    (mkOutcome false None msgTokenNotProvided None None None None None, sheet)
  else checkInUser_loop token now sheet 1 (drop 1 sheet).

End CheckIn.

(** The record [manualCheckIn] keeps of the last matching row that was
    already checked in. *)
Module Found.
Record t : Type := mk {
  name : Cell;
  id : Cell;
  checkInTime : Cell;
  ticketType : Cell;
  startTime : Cell;
  reEntryHistory : Cell
}.
End Found.

Section ManualCheckIn.
Context `{Platform}.

(** What [manualCheckIn] does once its loop has ended without a return. *)
Definition manualCheckIn_after (now : Z) (sheet : Sheet)
    (foundCheckedIn : option Found.t) (foundCheckedInIndex : Z) : Outcome * Sheet :=
  match foundCheckedIn with
  | Some found =>
      let nowStr := formatDate (Some now) in
      let sheet' :=
        setValue sheet (foundCheckedInIndex + 1) 9
          (CStr (newHistory (Found.reEntryHistory found) nowStr)) in
      (mkOutcome false (Some "WARNING") msgAlreadyCheckedIn
         (Some (Found.name found)) (Some (Found.id found))
         (Some (formatDate (newDate (Found.checkInTime found))))
         (Some (Found.ticketType found)) (Some (Found.startTime found)),
       sheet')
  | None =>
      (mkOutcome false (Some "ERROR") msgMemberIdNotFound None None None None None, sheet)
  end.

(** The loop of [manualCheckIn] from index [i] on. *)
Fixpoint manualCheckIn_loop (memberId : string) (now : Z) (sheet : Sheet)
    (i : nat) (rest : list Row)
    (foundCheckedIn : option Found.t) (foundCheckedInIndex : Z) : Outcome * Sheet :=
  match rest with
  | [] => manualCheckIn_after now sheet foundCheckedIn foundCheckedInIndex
  | row :: rest' =>
      let id := ID row in
      let checkInTime := CheckInTime row in
      let name := Name row in
      let ticketType := orElse (TicketType row) (CStr "StandardPass") in
      let startTime := orElse (StartTime row) (CStr "") in
      let reEntryHistory := orElse (ReEntryHistory row) (CStr "") in
      if decide (toStr id = memberId) then
        if negb (truthy checkInTime) then
          let nowStr := formatDate (Some now) in
          let sheet' := setValue sheet (Z.of_nat i + 1) 5 (CDate now) in
          (mkOutcome true (Some "SUCCESS") msgCheckInSuccessful (Some name) (Some id)
             (Some nowStr) (Some ticketType) (Some startTime),
           sheet')
        else
          manualCheckIn_loop memberId now sheet (S i) rest'
            (Some (Found.mk name id checkInTime ticketType startTime reEntryHistory))
            (Z.of_nat i)
      else
        manualCheckIn_loop memberId now sheet (S i) rest' foundCheckedIn foundCheckedInIndex
  end.

(** [manualCheckIn(memberId)]; the request parameter is a string, and a
    missing one is the empty string. *)
Definition manualCheckIn (memberId : string) (now : Z) (sheet : Sheet) : Outcome * Sheet :=
  if decide (memberId = "") then
    (mkOutcome false None msgMemberIdNotProvided None None None None None, sheet)
  else manualCheckIn_loop memberId now sheet 1 (drop 1 sheet) None (-1).

End ManualCheckIn.

(** ** Plain objects used as dictionaries

    [breakdown] and [TICKET_CONFIG] are plain objects: reading [o[k]]
    yields the value stored under the own key [k], else the member the
    object inherits from [Object.prototype] under that name (a function,
    or the prototype itself for [__proto__]), else [undefined]. *)

Definition objectPrototypeNames : list string :=
  ["constructor"; "__defineGetter__"; "__defineSetter__"; "hasOwnProperty";
   "__lookupGetter__"; "__lookupSetter__"; "isPrototypeOf"; "propertyIsEnumerable";
   "toString"; "valueOf"; "__proto__"; "toLocaleString"].

Inductive Property (A : Type) : Type :=
  | Own (value : A)
  | Inherited (name : string)
  | Absent.

Arguments Own {A} value.
Arguments Inherited {A} name.
Arguments Absent {A}.

(** [o[k]] *)
Definition getProperty {A : Type} (o : gmap string A) (k : string) : Property A :=
  match o !! k with
  | Some v => Own v
  | None => if decide (k ∈ objectPrototypeNames) then Inherited k else Absent
  end.

(** ** Dashboard *)

Module Breakdown.
Record entry : Type := mk { total : Z; checkedIn : Z }.
Definition incTotal (e : entry) : entry := mk (total e + 1) (checkedIn e).
Definition incCheckedIn (e : entry) : entry := mk (total e) (checkedIn e + 1).
End Breakdown.

Record Dashboard : Type := mkDashboard {
  total : Z;
  checkedIn : Z;
  notCheckedIn : Z;
  breakdown : gmap string Breakdown.entry
}.

Section DashboardData.
Context `{Platform}.

(** One iteration of the loop of [getDashboardData] on the running
    [total], [checkedIn] and [breakdown].  An entry and an inherited member
    are both truthy, so an entry is made only where [breakdown[ticketType]]
    is [undefined].  For an inherited member no own key exists: the two
    increments are made on that member and leave [breakdown] as it is. *)
Definition dashboard_step (acc : Z * Z * gmap string Breakdown.entry) (row : Row)
    : Z * Z * gmap string Breakdown.entry :=
  let '(total, checkedIn, breakdown) := acc in
  let id := ID row in
  let checkInTime := CheckInTime row in
  let ticketType := toStr (orElse (TicketType row) (CStr "Unknown")) in
  if truthy id then
    let total := total + 1 in
    let breakdown :=
      match getProperty breakdown ticketType with
      | Absent => <[ticketType := Breakdown.mk 0 0]> breakdown
      | Own _ | Inherited _ => breakdown
      end in
    let breakdown := alter Breakdown.incTotal ticketType breakdown in
    if truthy checkInTime then
      (total, checkedIn + 1, alter Breakdown.incCheckedIn ticketType breakdown)
    else (total, checkedIn, breakdown)
  else acc.

Definition getDashboardData (sheet : Sheet) : Dashboard :=
  let '(total, checkedIn, breakdown) := foldl dashboard_step (0, 0, ∅) (drop 1 sheet) in
  mkDashboard total checkedIn (total - checkedIn) breakdown.

End DashboardData.

(** ** Ticket taxonomy *)

Definition TICKET_CONFIG : gmap string string :=
  list_to_map [
    ("VIP Pass", "18:30-19:00");
    ("PriorityPass", "18:30-19:00");
    ("StandardPass", "11:00-12:00");
    ("GuestPass", "11:00-12:00");
    ("FreeGuest", "18:30-19:00");
    ("VIP", "18:30-19:00");
    ("General", "11:00-12:00");
    ("15400", "18:30-19:00");
    ("13200", "11:00-12:00");
    ("1100", "11:00-12:00");
    ("Invitation", "18:30-19:00")
  ].

(** The chain of comparisons of [syncECData] that maps an old or price
    input to a new ticket-type name. *)
Definition normalizeTicketType (ticketType : string) : string :=
  if decide (ticketType = "15400" ∨ ticketType = "15,400") then "PriorityPass"
  else if decide (ticketType = "13200" ∨ ticketType = "13,200") then "StandardPass"
  else if decide (ticketType = "1100" ∨ ticketType = "1,100" ∨ ticketType = "Guest") then "GuestPass"
  else if decide (ticketType = "Invitation" ∨ ticketType = "無料招待者") then "FreeGuest"
  else if decide (ticketType = "役員招待枠") then "VIP Pass"
  else ticketType.

(** The value of [startTime]: a reception window, or a member inherited
    from [Object.prototype]. *)
Inductive StartTimeValue : Type :=
  | Window (text : string)
  | Member (name : string).

#[global] Instance StartTimeValue_eq_dec : EqDecision StartTimeValue.
Proof. solve_decision. Defined.

(** [TICKET_CONFIG[ticketType] || '11:00-12:00']; an inherited member is
    truthy. *)
Definition lookupStartTime (ticketType : string) : StartTimeValue :=
  match getProperty TICKET_CONFIG ticketType with
  | Own t => if decide (t = "") then Window "11:00-12:00" else Window t
  | Inherited name => Member name
  | Absent => Window "11:00-12:00"
  end.

(** ** Reconciliation: [syncECData] *)

(** A row of the ECData sheet: ID | Name | TicketType | Quantity.  A column
    the sheet does not have reads as the empty cell. *)
Module EC.
Record Row : Type := mk { ID : Cell; Name : Cell; TicketType : Cell; Quantity : Cell }.
Definition header : Row := mk (CStr "ID") (CStr "Name") (CStr "TicketType") (CStr "Quantity").
End EC.

(** A row of the MemberMaster sheet: ID | Name | Email.  The source reads
    the cells of this sheet through [String(...)] only; on a sheet that has
    no third column the e-mail reads [undefined], whose [String] is the text
    undefined: there the cell is [CStr] of that text. *)
Module Master.
Record Row : Type := mk { ID : Cell; Name : Cell; Email : Cell }.
Definition header : Row := mk (CStr "ID") (CStr "Name") (CStr "Email").
End Master.

(** The entry of [ticketInfo] for a composite key. *)
Module Info.
Record t : Type := mk {
  id : string;
  name : Cell;
  ticketType : string;
  startTime : StartTimeValue
}.
End Info.

(** The three sheets [syncECData] works on.  A sheet without content
    ([getLastRow() === 0]) is the empty list. *)
Record Spreadsheet : Type := mkSpreadsheet {
  Attendees : Sheet;
  ECData : list EC.Row;
  MemberMaster : list Master.Row
}.

(** [requiredTickets] is a [Map] that is iterated: an association list in
    insertion order.  [Map.prototype.set] keeps the position of a key that
    is already present. *)
Fixpoint mapGet (k : string) (m : list (string * Z)) : option Z :=
  match m with
  | [] => None
  | (k', v) :: m' => if decide (k = k') then Some v else mapGet k m'
  end.

Fixpoint mapSet (k : string) (v : Z) (m : list (string * Z)) : list (string * Z) :=
  match m with
  | [] => [(k, v)]
  | (k', v') :: m' => if decide (k = k') then (k, v) :: m' else (k', v') :: mapSet k v m'
  end.

Section Reconciliation.
Context `{Platform}.

(** Step 1: the id -> email lookup. *)
Definition emailMap_step (emailMap : gmap string string) (row : Master.Row) : gmap string string :=
  let id := trim (toStr (Master.ID row)) in
  let email := trim (toStr (Master.Email row)) in
  if decide (id = "") then emailMap else <[id := email]> emailMap.

Definition buildEmailMap (masterData : list Master.Row) : gmap string string :=
  foldl emailMap_step ∅ (drop 1 masterData).

(** The values the loop of step 2 computes for one order line. *)
Definition lineId (row : EC.Row) : string := trim (toStr (EC.ID row)).

Definition ticketTypeInput (row : EC.Row) : string :=
  trim (toStr (orElse (EC.TicketType row) (CStr "StandardPass"))).

(** [parseInt(x) || 1] *)
Definition lineQuantity (row : EC.Row) : Z :=
  match parseInt (toStr (EC.Quantity row)) with
  | Some q => if q =? 0 then 1 else q
  | None => 1
  end.

Definition lineTicketType (row : EC.Row) : string := normalizeTicketType (ticketTypeInput row).

Definition compositeKey (id ticketType : string) : string := id +:+ "_" +:+ ticketType.

Definition lineKey (row : EC.Row) : string := compositeKey (lineId row) (lineTicketType row).

(** Step 2: one order line on [requiredTickets] and [ticketInfo]. *)
Definition aggregate_step (acc : list (string * Z) * gmap string Info.t) (row : EC.Row)
    : list (string * Z) * gmap string Info.t :=
  let '(requiredTickets, ticketInfo) := acc in
  let id := lineId row in
  let name := EC.Name row in
  let quantity := lineQuantity row in
  if decide (id = "") then acc
  else
    let ticketType := lineTicketType row in
    let startTime := lookupStartTime ticketType in
    let compositeKey := compositeKey id ticketType in
    let currentCount := default 0 (mapGet compositeKey requiredTickets) in
    let requiredTickets := mapSet compositeKey (currentCount + quantity) requiredTickets in
    let ticketInfo :=
      match ticketInfo !! compositeKey with
      | None => <[compositeKey := Info.mk id name ticketType startTime]> ticketInfo
      | Some _ => ticketInfo
      end in
    (requiredTickets, ticketInfo).

Definition aggregateRequirements (ecData : list EC.Row)
    : list (string * Z) * gmap string Info.t :=
  foldl aggregate_step ([], ∅) (drop 1 ecData).

(** Step 3: the key under which an existing row is counted. *)
Definition existingId (row : Row) : string := trim (toStr (ID row)).

Definition existingKey (row : Row) : string :=
  compositeKey (existingId row)
    (trim (toStr (orElse (TicketType row) (CStr "StandardPass")))).

Definition existing_step (existingCounts : gmap string Z) (row : Row) : gmap string Z :=
  if decide (existingId row = "") then existingCounts
  else
    let key := existingKey row in
    <[key := default 0 (existingCounts !! key) + 1]> existingCounts.

Definition countExisting (existingData : Sheet) : gmap string Z :=
  foldl existing_step ∅ (drop 1 existingData).

(** The cell [setValues] writes for [startTime]. *)
Definition startTimeCell (startTime : StartTimeValue) : Cell :=
  match startTime with
  | Window text => CStr text
  | Member name => storedMember name
  end.

(** Step 4: the row synthesised for a key. *)
Definition newRow (info : Info.t) (email : string) : Row :=
  let displayName :=
    if decide (Info.ticketType info = "GuestPass")
    then CStr (toStr (Info.name info) +:+ " (Guest)")
    else Info.name info in
  let note := if decide (Info.ticketType info = "GuestPass") then "Guest Ticket" else "" in
  mkRow (CStr (Info.id info)) displayName (CStr email)
        (CStr "") (CStr "") (CStr "")
        (CStr (Info.ticketType info)) (startTimeCell (Info.startTime info))
        (CStr "") (CStr "") (CStr note).

(** The body of [requiredTickets.forEach] on [rowsToAdd], [matchedCount]
    and [missingEmailCount].  [ticketInfo] has an entry for every key of
    [requiredTickets], both being set together in step 2. *)
Definition generate_step (emailMap : gmap string string) (ticketInfo : gmap string Info.t)
    (existingCounts : gmap string Z) (acc : list Row * Z * Z) (entry : string * Z)
    : list Row * Z * Z :=
  let '(rowsToAdd, matchedCount, missingEmailCount) := acc in
  let '(key, neededQty) := entry in
  match ticketInfo !! key with
  | None => acc
  | Some info =>
      let haveQty := default 0 (existingCounts !! key) in
      let toCreate := neededQty - haveQty in
      if 0 <? toCreate then
        let email := default "" (emailMap !! Info.id info) in
        let matchedCount := if decide (email = "") then matchedCount else matchedCount + 1 in
        let missingEmailCount :=
          if decide (email = "") then missingEmailCount + 1 else missingEmailCount in
        ((rowsToAdd ++ replicate (Z.to_nat toCreate) (newRow info email))%list,
         matchedCount, missingEmailCount)
      else acc
  end.

(** Steps 1 to 4: [rowsToAdd], [matchedCount] and [missingEmailCount]. *)
Definition generateMissing (ss : Spreadsheet) : list Row * Z * Z :=
  let emailMap := buildEmailMap (MemberMaster ss) in
  let '(requiredTickets, ticketInfo) := aggregateRequirements (ECData ss) in
  let existingCounts := countExisting (Attendees ss) in
  foldl (generate_step emailMap ticketInfo existingCounts) ([], 0, 0) requiredTickets.

Definition rowsToAdd (ss : Spreadsheet) : list Row := (generateMissing ss).1.1.

(** [syncECData()]: the message returned and the spreadsheet after the
    run.  Step 5 writes [rowsToAdd] below the last row of Attendees. *)
Definition syncECData (ss : Spreadsheet) : string * Spreadsheet :=
  match ECData ss with
  | [] =>
      ("Please fill ECData sheet with data and run again.",
       mkSpreadsheet (Attendees ss) [EC.header] (MemberMaster ss))
  | _ :: _ =>
      match MemberMaster ss with
      | [] =>
          ("Please fill MemberMaster sheet with data and run again.",
           mkSpreadsheet (Attendees ss) (ECData ss) [Master.header])
      | _ :: _ =>
          let '(rowsToAdd, matchedCount, missingEmailCount) := generateMissing ss in
          ("Synced. Added " +:+ pretty (Z.of_nat (length rowsToAdd))
             +:+ " new tickets. Matched emails: " +:+ pretty matchedCount
             +:+ ". Missing emails: " +:+ pretty missingEmailCount +:+ ".",
           mkSpreadsheet (Attendees ss ++ rowsToAdd)%list (ECData ss) (MemberMaster ss))
      end
  end.

End Reconciliation.

(** ** A platform instance for running the model

    Dates are rendered as their number of milliseconds. *)
Definition runPlatform : Platform := {|
  formatDate := fun d => match d with Some t => pretty t | None => "Invalid Date" end;
  dateToString := fun t => "Date " +:+ pretty t;
  dateParse := fun _ => None;
  storedMember := fun _ => CStr ""
|}.

(** ** Notions used in the statements *)

(** The rows below the header. *)
Definition dataRows (sheet : Sheet) : list Row := drop 1 sheet.

(** The store invariant of the data model: a token is carried by at most
    one row (among the rows that have one). *)
Definition tokens_unique (sheet : Sheet) : Prop :=
  NoDup (filter (λ t, truthy t = true) (Token <$> dataRows sheet)).

Definition checkedInRow (row : Row) : bool := truthy (CheckInTime row).

Definition hasId (row : Row) : bool := truthy (ID row).

(** The five new ticket types of [TICKET_CONFIG]. *)
Definition canonicalTypes : list string :=
  ["VIP Pass"; "PriorityPass"; "StandardPass"; "GuestPass"; "FreeGuest"].

(** The inputs the comparison chain of [syncECData] rewrites. *)
Definition mappedAliases : list string :=
  ["15400"; "15,400"; "13200"; "13,200"; "1100"; "1,100"; "Guest";
   "Invitation"; "無料招待者"; "役員招待枠"].

(** A label the taxonomy knows: an input of the comparison chain or a key
    of [TICKET_CONFIG]. *)
Definition recognizedLabel (label : string) : Prop :=
  label ∈ mappedAliases ∨ is_Some (TICKET_CONFIG !! label).

(** The row a new ticket starts as: no token, no check-in, not sent, no
    re-entry. *)
Definition freshTicket (row : Row) : Prop :=
  Token row = CStr "" ∧ CheckInTime row = CStr "" ∧ EmailSent row = CStr ""
  ∧ ReEntryHistory row = CStr "".

Section Notions.
Context `{Platform}.

(** [id.toString() === memberId.toString()] *)
Definition matchesId (memberId : string) (row : Row) : bool :=
  bool_decide (toStr (ID row) = memberId).

(** The outcome that reports the check-in of [row] at time [now]. *)
Definition successOutcome (row : Row) (now : Z) : Outcome :=
  mkOutcome true (Some "SUCCESS") msgCheckInSuccessful
    (Some (Name row)) (Some (ID row)) (Some (formatDate (Some now)))
    (Some (orElse (TicketType row) (CStr "StandardPass")))
    (Some (orElse (StartTime row) (CStr ""))).

(** The outcome that reports that [row] was checked in before, with the
    time stored in the row. *)
Definition warningOutcome (row : Row) : Outcome :=
  mkOutcome false (Some "WARNING") msgAlreadyCheckedIn
    (Some (Name row)) (Some (ID row)) (Some (formatDate (newDate (CheckInTime row))))
    (Some (orElse (TicketType row) (CStr "StandardPass")))
    (Some (orElse (StartTime row) (CStr ""))).

(** [row] after its first check-in at time [now]. *)
Definition checkedInAt (now : Z) (row : Row) : Row := setCell 5 (CDate now) row.

(** [row] after a re-entry at time [now] has been logged. *)
Definition reEntryLogged (now : Z) (row : Row) : Row :=
  setCell 9 (CStr (newHistory (ReEntryHistory row) (formatDate (Some now)))) row.

(** The record [manualCheckIn] keeps of a matching row. *)
Definition foundOf (row : Row) : Found.t :=
  Found.mk (Name row) (ID row) (CheckInTime row)
    (orElse (TicketType row) (CStr "StandardPass"))
    (orElse (StartTime row) (CStr ""))
    (orElse (ReEntryHistory row) (CStr "")).

(** The key under which the dashboard groups a row. *)
Definition breakdownKey (row : Row) : string :=
  toStr (orElse (TicketType row) (CStr "Unknown")).

(** Number of elements of a list that pass a test. *)
Definition cnt (p : Row → bool) (l : list Row) : Z :=
  Z.of_nat (length (filter (λ row, p row = true) l)).

(** The entry of a key after [n] more rows of the key, [m] of them checked
    in, have been counted on top of the entry [o]. *)
Definition bump (o : option Breakdown.entry) (n m : Z) : option Breakdown.entry :=
  if decide (n = 0) then o
  else Some (Breakdown.mk (Breakdown.total (default (Breakdown.mk 0 0) o) + n)
                          (Breakdown.checkedIn (default (Breakdown.mk 0 0) o) + m)).

(** A row whose ticket type names a member of [Object.prototype]. *)
Definition inheritedType (r : Row) : bool :=
  bool_decide (breakdownKey r ∈ objectPrototypeNames).

(** A row that is counted under the own key [k]. *)
Definition inKey (k : string) (r : Row) : bool :=
  hasId r && bool_decide (breakdownKey r = k) && negb (inheritedType r).

Definition inKeyChecked (k : string) (r : Row) : bool :=
  hasId r && bool_decide (breakdownKey r = k) && negb (inheritedType r) && checkedInRow r.

(** Number of data rows that satisfy [p]. *)
Definition countRows (p : Row → bool) (sheet : Sheet) : Z := cnt p (dataRows sheet).

(** The order lines among [l] that map to [key]. *)
Definition linesOf (key : string) (l : list EC.Row) : list EC.Row :=
  filter (λ row, lineKey row = key) (filter (λ row, lineId row ≠ "") l).

(** The order lines the engine processes: those below the header that have
    an id. *)
Definition orderLines (ecData : list EC.Row) : list EC.Row :=
  filter (λ row, lineId row ≠ "") (drop 1 ecData).

Fixpoint sumQuantities (quantity : EC.Row → Z) (lines : list EC.Row) : Z :=
  match lines with
  | [] => 0
  | row :: lines' => quantity row + sumQuantities quantity lines'
  end.

(** Required quantity of a composite key: the sum of [quantity] over the
    order lines that map to the key. *)
Definition requiredQty (quantity : EC.Row → Z) (ecData : list EC.Row) (key : string) : Z :=
  sumQuantities quantity (filter (λ row, lineKey row = key) (orderLines ecData)).

(** Existing quantity of a composite key: the number of rows of the store
    counted under the key. *)
Definition existingQty (sheet : Sheet) (key : string) : Z :=
  Z.of_nat (length (filter (λ row, existingId row ≠ "" ∧ existingKey row = key) (dataRows sheet))).

(** The quantity of an order line as the specification words it: the
    parsed number, a missing or unparseable one counting as 1. *)
Definition statedQuantity (row : EC.Row) : Z :=
  default 1 (parseInt (toStr (EC.Quantity row))).

(** The entry of [ticketInfo] written for an order line. *)
Definition infoOf (row : EC.Row) : Info.t :=
  Info.mk (lineId row) (EC.Name row) (lineTicketType row)
    (lookupStartTime (lineTicketType row)).

(** The rows the body of [requiredTickets.forEach] pushes for an entry. *)
Definition rowsFor (emailMap : gmap string string) (ticketInfo : gmap string Info.t)
    (existingCounts : gmap string Z) (entry : string * Z) : list Row :=
  match ticketInfo !! entry.1 with
  | None => []
  | Some info =>
      replicate (Z.to_nat (entry.2 - default 0 (existingCounts !! entry.1)))
        (newRow info (default "" (emailMap !! Info.id info)))
  end.

(** The composite key of a synthesised row. *)
Definition rowKey (row : Row) : string :=
  compositeKey (toStr (ID row)) (toStr (TicketType row)).

End Notions.

(** Sample sheets for the examples. *)
Definition headerRow : Row :=
  mkRow (CStr "ID") (CStr "Name") (CStr "Email") (CStr "Token") (CStr "CheckInTime")
        (CStr "EmailSent") (CStr "TicketType") (CStr "StartTime") (CStr "ReEntryHistory")
        (CStr "Inviter") (CStr "Note").

(** A ticket of Alice that has been sent and not yet used. *)
Definition aliceRow : Row :=
  mkRow (CStr "A1") (CStr "Alice") (CStr "alice@example.org") (CStr "tok-a1") (CStr "")
        (CBool true) (CStr "VIP Pass") (CStr "18:30-19:00") (CStr "") (CStr "") (CStr "").

(** A second ticket of Alice, used at time 3. *)
Definition aliceUsedRow : Row :=
  mkRow (CStr "A1") (CStr "Alice") (CStr "alice@example.org") (CStr "tok-a1-2") (CDate 3)
        (CBool true) (CStr "GuestPass") (CStr "11:00-12:00") (CStr "") (CStr "") (CStr "").

(** A ticket of Bob that was used at time 5. *)
Definition bobRow : Row :=
  mkRow (CStr "B2") (CStr "Bob") (CStr "bob@example.org") (CStr "tok-b2") (CDate 5)
        (CBool true) (CStr "StandardPass") (CStr "11:00-12:00") (CStr "") (CStr "") (CStr "").

(** A ticket of Dan whose ticket type is the text constructor. *)
Definition constructorRow : Row :=
  mkRow (CStr "D4") (CStr "Dan") (CStr "dan@example.org") (CStr "tok-d4") (CStr "")
        (CBool true) (CStr "constructor") (CStr "11:00-12:00") (CStr "") (CStr "") (CStr "").

(** A second row that carries the token of Bob's ticket and is not checked
    in. *)
Definition bobTwinRow : Row :=
  mkRow (CStr "C3") (CStr "Bob") (CStr "bob@example.org") (CStr "tok-b2") (CStr "")
        (CBool true) (CStr "StandardPass") (CStr "11:00-12:00") (CStr "") (CStr "") (CStr "").

(** Sample spreadsheets for the examples of [syncECData]. *)

Definition aliceMaster : list Master.Row :=
  [Master.header; Master.mk (CStr "A1") (CStr "Alice") (CStr "alice@example.org")].

(** Alice orders three priority tickets by price code and holds one
    already; Bob orders one guest ticket. *)
Definition sampleOrders : Spreadsheet :=
  mkSpreadsheet
    [headerRow;
     mkRow (CStr "A1") (CStr "Alice") (CStr "alice@example.org") (CStr "tok-a1") (CStr "")
           (CBool true) (CStr "PriorityPass") (CStr "18:30-19:00") (CStr "") (CStr "")
           (CStr "")]
    [EC.header;
     EC.mk (CStr "A1") (CStr "Alice") (CNum 15400) (CNum 2);
     EC.mk (CStr "B2") (CStr "Bob") (CStr "Guest") (CStr "");
     EC.mk (CStr "A1") (CStr "Alice") (CStr "15,400") (CStr "1")]
    aliceMaster.

(** An order line with quantity 0. *)
Definition zeroQuantityOrder : Spreadsheet :=
  mkSpreadsheet [headerRow]
    [EC.header; EC.mk (CStr "A1") (CStr "Alice") (CStr "VIP Pass") (CNum 0)]
    aliceMaster.

(** An order line with the legacy label VIP. *)
Definition vipOrder : Spreadsheet :=
  mkSpreadsheet [headerRow]
    [EC.header; EC.mk (CStr "A1") (CStr "Alice") (CStr "VIP") (CNum 1)]
    aliceMaster.

(** An order line labelled constructor. *)
Definition constructorOrder : Spreadsheet :=
  mkSpreadsheet [headerRow]
    [EC.header; EC.mk (CStr "A1") (CStr "Alice") (CStr "constructor") (CNum 1)]
    aliceMaster.

(** Two order lines whose ids and ticket types differ and are joined to
    the same string A_B_C. *)
Definition collidingOrders : Spreadsheet :=
  mkSpreadsheet [headerRow]
    [EC.header;
     EC.mk (CStr "A") (CStr "Ann") (CStr "B_C") (CNum 1);
     EC.mk (CStr "A_B") (CStr "Abe") (CStr "C") (CNum 1)]
    aliceMaster.

(** An order line whose ticket-type cell holds one space. *)
Definition blankTypeOrder : Spreadsheet :=
  mkSpreadsheet [headerRow]
    [EC.header; EC.mk (CStr "A1") (CStr "Alice") (CStr " ") (CNum 1)]
    aliceMaster.

(** ** The web endpoint: [doGet] and [doPost] *)

(** [e.parameter]: the query parameters the endpoint reads; a parameter the
    request does not have is [None]. *)
Module Params.
Record t : Type := mk {
  action : option string;
  token : option string;
  memberId : option string
}.
End Params.

(** The object [doGet] serialises: a check-in outcome (the answer to an
    invalid action has the same shape) or the dashboard data. *)
Inductive Response : Type :=
  | OutcomeResponse (o : Outcome)
  | DashboardResponse (d : Dashboard).

Section Endpoint.
Context `{Platform}.

(** [doGet(e)]: the object that is passed to [JSON.stringify], and the
    sheet after the request.  The [switch] compares [action] with each
    label in turn.  The functions called here do not throw, so the [catch]
    of the source has nothing to catch. *)
Definition doGet (e : Params.t) (now : Z) (sheet : Sheet) : Response * Sheet :=
  let action := Params.action e in
  if decide (action = Some "checkIn") then
    let '(o, sheet') := checkInUser (default "" (Params.token e)) now sheet in
    (OutcomeResponse o, sheet')
  else if decide (action = Some "manualCheckIn") then
    let '(o, sheet') := manualCheckIn (default "" (Params.memberId e)) now sheet in
    (OutcomeResponse o, sheet')
  else if decide (action = Some "dashboard") then
    (DashboardResponse (getDashboardData sheet), sheet)
  else
    (OutcomeResponse (mkOutcome false None "Invalid action" None None None None None),
     sheet).

(** [doPost(e)] *)
Definition doPost (e : Params.t) (now : Z) (sheet : Sheet) : Response * Sheet :=
  doGet e now sheet.

End Endpoint.

(** The columns no check-in writes. *)
Definition identityColumns (row : Row) : Cell * Cell * Cell * Cell * Cell * Cell * Cell * Cell * Cell :=
  (ID row, Name row, Email row, Token row, EmailSent row, TicketType row, StartTime row,
   Inviter row, Note row).


Section Sequences.
Context `{Platform}.

(** The member id entered by hand once at each of the times [nows]: the
    outcomes in order and the store at the end. *)
Fixpoint manualCheckIns (memberId : string) (nows : list Z) (sheet : Sheet)
    : list Outcome * Sheet :=
  match nows with
  | [] => ([], sheet)
  | now :: nows' =>
      let '(o, sheet1) := manualCheckIn memberId now sheet in
      let '(os, sheet2) := manualCheckIns memberId nows' sheet1 in
      (o :: os, sheet2)
  end.

(** The columns [getDashboardData] reads. *)
Definition dashboardColumns (row : Row) : Cell * Cell * Cell :=
  (ID row, CheckInTime row, TicketType row).

End Sequences.


(** The sums of the two counters over the entries of a breakdown. *)
Definition breakdownTotal (b : gmap string Breakdown.entry) : Z :=
  map_fold (λ _ e acc, acc + Breakdown.total e) 0 b.

Definition breakdownCheckedIn (b : gmap string Breakdown.entry) : Z :=
  map_fold (λ _ e acc, acc + Breakdown.checkedIn e) 0 b.


Section Directory.
Context `{Platform}.

(** The address the MemberMaster sheet gives for an id: the trimmed e-mail
    cell of the last row below the header whose trimmed id cell is [id]. *)
Definition memberEmail (masterData : list Master.Row) (id : string) : option string :=
  (λ row, trim (toStr (Master.Email row)))
    <$> last (filter (λ row, trim (toStr (Master.ID row)) = id) (drop 1 masterData)).

(** The number of composite keys among the rows [rows]. *)
Definition distinctKeys (rows : list Row) : Z :=
  Z.of_nat (length (remove_dups (rowKey <$> rows))).

End Directory.


(** ** Tokens and QR codes *)

Definition QR_CODE_SIZE : Z := 300.
Definition QR_API_BASE : string := "https://chart.googleapis.com/chart".

(** [Utilities.computeDigest(Utilities.DigestAlgorithm.SHA_256, input,
    Utilities.Charset.UTF_8)]: the bytes of the digest, which the platform
    returns as signed bytes. *)
Class Digest : Type := {
  computeDigest : string -> list Z
}.

(** The digit of [Number.prototype.toString(16)] for a value below 16. *)
Definition hexDigit (d : Z) : ascii :=
  match d with
  | 0 => "0" | 1 => "1" | 2 => "2" | 3 => "3" | 4 => "4" | 5 => "5" | 6 => "6" | 7 => "7"
  | 8 => "8" | 9 => "9" | 10 => "a" | 11 => "b" | 12 => "c" | 13 => "d" | 14 => "e"
  | _ => "f"
  end%char.

(** The digits of [v] in base 16 in front of [acc]; [fuel] bounds their
    number. *)
Fixpoint hexDigits (fuel : nat) (v : Z) (acc : string) : string :=
  match fuel with
  | O => acc
  | S fuel' =>
      let acc' := String (hexDigit (v mod 16)) acc in
      if v / 16 =? 0 then acc' else hexDigits fuel' (v / 16) acc'
  end.

(** [v.toString(16)] for an integer [v]. *)
Definition toString16 (v : Z) : string :=
  if v <? 0 then "-" +:+ hexDigits (S (Z.to_nat (Z.log2 (- v)))) (- v) ""
  else hexDigits (S (Z.to_nat (Z.log2 v))) v "".

(** [s.slice(-2)] *)
Definition sliceLast2 (s : string) : string :=
  String.substring (String.length s - 2)%nat 2 s.

(** The function [generateHash] maps over the digest. *)
Definition hexByte (byte : Z) : string :=
  let v := if byte <? 0 then 256 + byte else byte in
  sliceLast2 ("0" +:+ toString16 v).

(** [encodeURIComponent] on a well-formed string: a character outside
    A-Z a-z 0-9 - _ . ! ~ * ' ( ) is replaced by the escapes of the bytes of
    its UTF-8 encoding.  Every byte of a character that is not ASCII is
    above 127, so the string is encoded byte by byte. *)
Definition uriUnreserved (c : ascii) : bool :=
  let n := byte c in
  ((65 <=? n) && (n <=? 90) || (97 <=? n) && (n <=? 122) || (48 <=? n) && (n <=? 57))%N
  || bool_decide (c ∈ ["-"; "_"; "."; "!"; "~"; "*"; "'"; "("; ")"]%char).

Definition hexDigitUpper (d : Z) : ascii :=
  match d with
  | 0 => "0" | 1 => "1" | 2 => "2" | 3 => "3" | 4 => "4" | 5 => "5" | 6 => "6" | 7 => "7"
  | 8 => "8" | 9 => "9" | 10 => "A" | 11 => "B" | 12 => "C" | 13 => "D" | 14 => "E"
  | _ => "F"
  end%char.

Fixpoint encodeURIComponent (s : string) : string :=
  match s with
  | EmptyString => EmptyString
  | String c s' =>
      if uriUnreserved c then String c (encodeURIComponent s')
      else
        let n := Z.of_N (byte c) in
        String "%" (String (hexDigitUpper (n / 16)) (String (hexDigitUpper (n mod 16))
          (encodeURIComponent s')))
  end.

(** [getQRCodeUrl(token)] *)
Definition getQRCodeUrl (token : string) : string :=
  QR_API_BASE +:+ "?cht=qr&chs=" +:+ pretty QR_CODE_SIZE +:+ "x" +:+ pretty QR_CODE_SIZE
    +:+ "&chl=" +:+ encodeURIComponent token.

Section Tokens.
Context `{Platform} `{Digest}.

(** [generateHash(input)]: [rawHash.map(...).join('')] *)
Definition generateHash (input : string) : string :=
  foldr String.append "" (hexByte <$> computeDigest input).

(** [generateToken(id, rowNumber)]; [timestamp] is [new Date().getTime()]. *)
Definition generateToken (id : Cell) (rowNumber timestamp : Z) : string :=
  generateHash (toStr id +:+ "_" +:+ pretty rowNumber +:+ "_" +:+ pretty timestamp).

End Tokens.

(** ** Ticket distribution: [sendTickets] *)

(** The message handed to [MailApp.sendEmail]: the recipient, the subject,
    and the values the template of [htmlBody] is filled with.  The QR
    image attached is the one fetched from [qrUrl]. *)
Module Mail.
Record t : Type := mk {
  to : Cell;
  subject : string;
  name : Cell;
  ticketType : Cell;
  startTime : Cell;
  id : Cell;
  qrUrl : string
}.
End Mail.

(** What a run meets at the row with index [i]: the clock [generateToken]
    reads, whether [UrlFetchApp.fetch] throws, and whether
    [MailApp.sendEmail] throws. *)
Module World.
Record t : Type := mk {
  timestamp : nat -> Z;
  fetchThrows : nat -> bool;
  sendThrows : nat -> bool
}.
End World.

(** The sheet, the two counters and the mails sent so far. *)
Module Send.
Record t : Type := mk {
  sheet : Sheet;
  sentCount : Z;
  errorCount : Z;
  outbox : list Mail.t
}.
End Send.

Definition ticketSubject : string := "イベント入場チケット / Event Entry Ticket".

Section SendTickets.
Context `{Platform} `{Digest}.

(** The body of the loop of [sendTickets] for [row = data[i]]. *)
Definition sendTickets_body (w : World.t) (st : Send.t) (i : nat) (row : Row) : Send.t :=
  let id := ID row in
  let name := Name row in
  let email := Email row in
  let token := Token row in
  let emailSent := EmailSent row in
  let ticketType := orElse (TicketType row) (CStr "StandardPass") in
  let startTime := orElse (StartTime row) (CStr "11:00-12:00") in
  if decide (emailSent = CBool true ∨ emailSent = CStr "TRUE") then st
  else if negb (truthy id) || negb (truthy name) || negb (truthy email) then
    Send.mk (Send.sheet st) (Send.sentCount st) (Send.errorCount st + 1) (Send.outbox st)
  else
    let '(token, sheet1) :=
      if truthy token then (token, Send.sheet st)
      else
        let token := CStr (generateToken id (Z.of_nat i + 1) (World.timestamp w i)) in
        (token, setValue (Send.sheet st) (Z.of_nat i + 1) 4 token) in
    let qrUrl :=
      "https://api.qrserver.com/v1/create-qr-code/?size=" +:+ pretty QR_CODE_SIZE +:+ "x"
        +:+ pretty QR_CODE_SIZE +:+ "&data=" +:+ encodeURIComponent (toStr token) in
    if World.fetchThrows w i then
      Send.mk sheet1 (Send.sentCount st) (Send.errorCount st + 1) (Send.outbox st)
    else if World.sendThrows w i then
      Send.mk sheet1 (Send.sentCount st) (Send.errorCount st + 1) (Send.outbox st)
    else
      Send.mk (setValue sheet1 (Z.of_nat i + 1) 6 (CBool true))
        (Send.sentCount st + 1) (Send.errorCount st)
        (Send.outbox st ++ [Mail.mk email ticketSubject name ticketType startTime id qrUrl]).

(** The loop from index [i] on; [rest] is [data.slice(i)], read before the
    loop. *)
Fixpoint sendTickets_loop (w : World.t) (st : Send.t) (i : nat) (rest : list Row) : Send.t :=
  match rest with
  | [] => st
  | row :: rest' => sendTickets_loop w (sendTickets_body w st i row) (S i) rest'
  end.

(** [sendTickets()]: the counters returned as [{sent, errors}], the sheet
    after the run and the mails sent. *)
Definition sendTickets (w : World.t) (sheet : Sheet) : Send.t :=
  sendTickets_loop w (Send.mk sheet 0 0 []) 1 (drop 1 sheet).

(** A row the run skips as already sent. *)
Definition alreadySent (row : Row) : bool :=
  bool_decide (EmailSent row = CBool true ∨ EmailSent row = CStr "TRUE").

(** A row that has the id, name and e-mail a ticket needs. *)
Definition deliverable (row : Row) : bool :=
  truthy (ID row) && truthy (Name row) && truthy (Email row).

(** The columns [sendTickets] never writes. *)
Definition ticketColumns (row : Row)
    : Cell * Cell * Cell * Cell * Cell * Cell * Cell * Cell * Cell :=
  (ID row, Name row, Email row, CheckInTime row, TicketType row, StartTime row,
   ReEntryHistory row, Inviter row, Note row).

(** The URL of the QR image mailed for a token. *)
Definition mailedUrl (token : Cell) : string :=
  "https://api.qrserver.com/v1/create-qr-code/?size=300x300&data="
    +:+ encodeURIComponent (toStr token).

End SendTickets.

(** A lower-case hexadecimal digit. *)
Definition isLowerHex (c : ascii) : bool :=
  bool_decide (c ∈ ["0"; "1"; "2"; "3"; "4"; "5"; "6"; "7"; "8"; "9";
                    "a"; "b"; "c"; "d"; "e"; "f"]%char).

(** A stand-in for the digest to run the model: the bytes of the input, as
    signed bytes. *)
Definition runDigest : Digest := {|
  computeDigest := fun input =>
    (fun c => let n := Z.of_N (byte c) in if 128 <=? n then n - 256 else n)
      <$> list_ascii_of_string input
|}.

(** A world in which the clock shows 1000 and nothing throws. *)
Definition calmWorld : World.t := World.mk (fun _ => 1000) (fun _ => false) (fun _ => false).

(** A ticket of Carol that has not been sent and has no token. *)
Definition carolRow : Row :=
  mkRow (CStr "C3") (CStr "Carol") (CStr "carol@example.org") (CStr "") (CStr "")
        (CStr "") (CStr "PriorityPass") (CStr "18:30-19:00") (CStr "") (CStr "") (CStr "").


Section SendTicketsNotions.
Context `{Platform} `{Digest}.

(** The mail of a ticket, from its row as the run leaves it. *)
Definition ticketMail (row : Row) : Mail.t :=
  Mail.mk (Email row) ticketSubject (Name row)
    (orElse (TicketType row) (CStr "StandardPass"))
    (orElse (StartTime row) (CStr "11:00-12:00")) (ID row) (mailedUrl (Token row)).

(** The run gets as far as the delivery of [row = data[i]]. *)
Definition attempted (row : Row) : bool := negb (alreadySent row) && deliverable row.

(** The delivery of [row = data[i]] goes through. *)
Definition delivered (w : World.t) (i : nat) (row : Row) : bool :=
  attempted row && negb (World.fetchThrows w i) && negb (World.sendThrows w i).

(** The row [data[i]] as the run leaves it. *)
Definition rowAfter (w : World.t) (i : nat) (row : Row) : Row :=
  if attempted row then
    let row1 :=
      if truthy (Token row) then row
      else setCell 4 (CStr (generateToken (ID row) (Z.of_nat i + 1) (World.timestamp w i)))
             row in
    if delivered w i row then setCell 6 (CBool true) row1 else row1
  else row.

Fixpoint rowsAfter (w : World.t) (i : nat) (rest : list Row) : list Row :=
  match rest with
  | [] => []
  | row :: rest' => rowAfter w i row :: rowsAfter w (S i) rest'
  end.

(** The mails of the rows [rest = data.slice(i)], in the order of the rows. *)
Fixpoint deliveries (w : World.t) (i : nat) (rest : list Row) : list Mail.t :=
  match rest with
  | [] => []
  | row :: rest' =>
      ((if delivered w i row then [ticketMail (rowAfter w i row)] else [])
         ++ deliveries w (S i) rest')%list
  end.

(** The number of rows among [rest = data.slice(i)] counted as errors. *)
Fixpoint failures (w : World.t) (i : nat) (rest : list Row) : Z :=
  match rest with
  | [] => 0
  | row :: rest' =>
      (if negb (alreadySent row) && negb (delivered w i row) then 1 else 0)
      + failures w (S i) rest'
  end.

(** The mails of the rows whose sent flag the run has changed, in the
    order of the rows; [before] and [after] are the data rows before and
    after the run. *)
Fixpoint mailsOfFlagged (before after : list Row) : list Mail.t :=
  match before, after with
  | r :: before', r' :: after' =>
      ((if decide (EmailSent r' = EmailSent r) then [] else [ticketMail r'])
         ++ mailsOfFlagged before' after')%list
  | _, _ => []
  end.

End SendTicketsNotions.


Section PairNotions.
Context `{Platform}.

(** The ticket type under which step 3 counts a row of the store. *)
Definition existingType (row : Row) : string :=
  trim (toStr (orElse (TicketType row) (CStr "StandardPass"))).

(** Required quantity of an id and a ticket type: the sum of [quantity]
    over the order lines with this id and this normalised type. *)
Definition requiredOf (quantity : EC.Row → Z) (ecData : list EC.Row)
    (id ticketType : string) : Z :=
  sumQuantities quantity
    (filter (λ line, lineId line = id ∧ lineTicketType line = ticketType)
       (orderLines ecData)).

(** Existing quantity of an id and a ticket type: the number of rows of the
    store with this id and this type. *)
Definition existingOf (sheet : Sheet) (id ticketType : string) : Z :=
  Z.of_nat (length (filter (λ row, existingId row = id ∧ existingType row = ticketType)
                      (dataRows sheet))).

(** The number of rows a run creates with an id and a ticket type. *)
Definition createdOf (ss : Spreadsheet) (id ticketType : string) : Z :=
  Z.of_nat (length (filter (λ row, ID row = CStr id ∧ TicketType row = CStr ticketType)
                      (rowsToAdd ss))).

(** No two different pairs of an id and a ticket type, among the order
    lines and the rows of the store, are joined to the same string
    [`${id}_${ticketType}`]. *)
Definition keysSeparate (ss : Spreadsheet) : Prop :=
  Forall (λ line,
      Forall (λ line',
          lineKey line' = lineKey line →
          lineId line' = lineId line ∧ lineTicketType line' = lineTicketType line)
        (orderLines (ECData ss))
      ∧ Forall (λ row,
            existingId row ≠ "" → existingKey row = lineKey line →
            existingId row = lineId line ∧ existingType row = lineTicketType line)
          (dataRows (Attendees ss)))
    (orderLines (ECData ss)).

(** The quantities add up within the integers a JavaScript number holds
    exactly, so that the sums of the source are the sums of integers. *)
Definition safeQuantities (ecData : list EC.Row) : Prop :=
  sumQuantities (λ line, Z.abs (lineQuantity line)) (orderLines ecData) ≤ 2 ^ 53.

End PairNotions.


(** * Properties of the check-in engine *)

Section CheckInFacts.
Context `{Platform}.

Lemma setValue_alter (sheet : Sheet) (i : nat) (col : Z) (v : Cell) :
  setValue sheet (Z.of_nat i + 1) col v = alter (setCell col v) i sheet.
Proof.
  unfold setValue.
  destruct (Z.leb_spec 1 (Z.of_nat i + 1)) as [_|Hlt]; [|lia].
  replace (Z.to_nat (Z.of_nat i + 1 - 1)) with i by lia.
  reflexivity.
Qed.

Lemma alter_lookup_insert (f : Row → Row) (sheet : Sheet) (i : nat) (row : Row) :
  sheet !! i = Some row → alter f i sheet = <[i := f row]> sheet.
Proof.
  revert i. induction sheet as [|r sheet IH]; intros [|i] Hi; simplify_eq/=; try done.
  f_equal. by apply IH.
Qed.

Lemma setValue_insert (sheet : Sheet) (i : nat) (col : Z) (v : Cell) (row : Row) :
  sheet !! i = Some row →
  setValue sheet (Z.of_nat i + 1) col v = <[i := setCell col v row]> sheet.
Proof. intros Hi. rewrite setValue_alter. by apply alter_lookup_insert. Qed.

Lemma newHistory_orElse (h : Cell) (nowStr : string) :
  newHistory (orElse h (CStr "")) nowStr = newHistory h nowStr.
Proof.
  unfold newHistory, orElse. destruct (truthy h) eqn:Hh; [by rewrite Hh|done].
Qed.

(** The data rows of a sheet around the row at index [i]. *)
Lemma dataRows_split (sheet : Sheet) (i : nat) (row : Row) :
  (1 ≤ i)%nat → sheet !! i = Some row →
  ∃ pre post, dataRows sheet = (pre ++ row :: post)%list ∧ length pre = (i - 1)%nat
    ∧ ∀ k r, pre !! k = Some r → sheet !! (1 + k)%nat = Some r ∧ (1 + k < i)%nat.
Proof.
  intros Hi Hrow.
  exists (drop 1 (take i sheet)), (drop (S i) sheet).
  assert (Hlen : (i < length sheet)%nat) by (by eapply lookup_lt_Some).
  split; [|split].
  - unfold dataRows. rewrite <- (take_drop_middle sheet i row Hrow) at 1.
    rewrite drop_app_le; [done|]. rewrite length_take. lia.
  - rewrite length_drop, length_take. lia.
  - intros k r Hk. rewrite lookup_drop in Hk.
    assert (Hki : (1 + k < i)%nat).
    { apply lookup_lt_Some in Hk. rewrite length_take in Hk. lia. }
    split; [|done]. by rewrite lookup_take_lt in Hk.
Qed.

(** Rows that do not carry the token are passed over. *)
Lemma checkInUser_loop_skip (token : string) (now : Z) (sheet : Sheet)
    (pre rest : list Row) (i : nat) :
  Forall (λ r, Token r ≠ CStr token) pre →
  checkInUser_loop token now sheet i (pre ++ rest)
  = checkInUser_loop token now sheet (i + length pre) rest.
Proof.
  intros Hpre. revert i. induction Hpre as [|r pre Hr _ IH]; intros i; simpl.
  - by rewrite Nat.add_0_r.
  - destruct (decide (Token r = CStr token)) as [Heq|_]; [done|].
    rewrite IH. f_equal. lia.
Qed.

Lemma checkInUser_loop_miss (token : string) (now : Z) (sheet : Sheet)
    (rest : list Row) (i : nat) :
  Forall (λ r, Token r ≠ CStr token) rest →
  checkInUser_loop token now sheet i rest
  = (mkOutcome false (Some "ERROR") msgInvalidTicket None None None None None, sheet).
Proof.
  intros Hrest. rewrite <- (app_nil_r rest). by rewrite checkInUser_loop_skip.
Qed.

(** What [checkInUser] does when the first row that carries the token is
    at index [i]. *)
Lemma checkInUser_first_match (token : string) (now : Z) (sheet : Sheet)
    (i : nat) (row : Row) :
  token ≠ "" → (1 ≤ i)%nat → sheet !! i = Some row → Token row = CStr token →
  (∀ j r, (1 ≤ j < i)%nat → sheet !! j = Some r → Token r ≠ CStr token) →
  checkInUser token now sheet
  = if truthy (CheckInTime row)
    then (warningOutcome row, <[i := reEntryLogged now row]> sheet)
    else (successOutcome row now, <[i := checkedInAt now row]> sheet).
Proof.
  intros Htok Hi Hrow Hmatch Hfirst.
  unfold checkInUser. destruct (decide (token = "")) as [|_]; [done|].
  destruct (dataRows_split sheet i row Hi Hrow) as (pre & post & Hsplit & Hlen & Hpre).
  unfold dataRows in Hsplit. rewrite Hsplit, checkInUser_loop_skip.
  2:{ apply Forall_lookup. intros k r Hk. destruct (Hpre k r Hk) as [Hs Hlt].
      apply (Hfirst (1 + k)%nat); [lia|done]. }
  replace (1 + length pre)%nat with i by lia. simpl.
  destruct (decide (Token row = CStr token)) as [_|]; [|done].
  destruct (truthy (CheckInTime row)).
  - rewrite (setValue_insert _ _ _ _ row Hrow), newHistory_orElse. done.
  - by rewrite (setValue_insert _ _ _ _ row Hrow).
Qed.

End CheckInFacts.

Section CheckInUserClaims.
Context `{Platform}.

Lemma truthy_token (token : string) : token ≠ "" → truthy (CStr token) = true.
Proof.
  intros Hne. simpl. destruct (String.eqb_spec token ""); [done|done].
Qed.

(** Under the store invariant the row that carries a token is the first
    one the scan meets. *)
Lemma tokens_unique_first (sheet : Sheet) (token : string) (i : nat) (row : Row) :
  token ≠ "" → tokens_unique sheet → (1 ≤ i)%nat → sheet !! i = Some row →
  Token row = CStr token →
  ∀ j r, (1 ≤ j < i)%nat → sheet !! j = Some r → Token r ≠ CStr token.
Proof.
  intros Htok Huniq Hi Hrow Hmatch j r Hj Hr Heq.
  destruct (dataRows_split sheet i row Hi Hrow) as (pre & post & Hsplit & Hlen & Hpre).
  unfold tokens_unique in Huniq. rewrite Hsplit, fmap_app, filter_app in Huniq.
  rewrite fmap_cons, filter_cons_True in Huniq
    by (rewrite Hmatch; by apply truthy_token).
  apply NoDup_app in Huniq as (_ & Hdisj & _).
  apply (Hdisj (CStr token)).
  - apply list_elem_of_filter. split; [by apply truthy_token|].
    apply list_elem_of_fmap. exists r. split; [done|].
    apply list_elem_of_lookup. exists (j - 1)%nat.
    assert (Hin : dataRows sheet !! (j - 1)%nat = Some r).
    { unfold dataRows. rewrite lookup_drop. by replace (1 + (j - 1))%nat with j by lia. }
    rewrite Hsplit, lookup_app_l in Hin by lia. done.
  - rewrite Hmatch. apply list_elem_of_here.
Qed.

(** C1, with what the code needs for it.  For a row that carries the
    non-empty token, has no check-in time, and is the first data row that
    carries the token (as it is in a store whose tokens are unique, by
    [tokens_unique_first]): a first [checkInUser] returns SUCCESS and sets
    the check-in time of that row; a second one with the same token returns
    WARNING, reports the time of the first call, keeps the check-in time
    and joins one timestamp onto the re-entry history of the row with a
    newline. *)
Theorem checkInUser_then_reentry (sheet : Sheet) (i : nat) (row : Row)
    (token : string) (now1 now2 : Z) :
  token ≠ "" → (1 ≤ i)%nat → sheet !! i = Some row →
  Token row = CStr token → truthy (CheckInTime row) = false →
  (∀ j r, (1 ≤ j < i)%nat → sheet !! j = Some r → Token r ≠ CStr token) →
  let first := checkInUser token now1 sheet in
  let second := checkInUser token now2 first.2 in
  first.1 = successOutcome row now1
  ∧ first.2 = <[i := checkedInAt now1 row]> sheet
  ∧ second.1 = warningOutcome (checkedInAt now1 row)
  ∧ status second.1 = Some "WARNING"
  ∧ checkInTime second.1 = checkInTime first.1
  ∧ second.2 = <[i := reEntryLogged now2 (checkedInAt now1 row)]> sheet
  ∧ CheckInTime (reEntryLogged now2 (checkedInAt now1 row)) = CDate now1
  ∧ ReEntryHistory (reEntryLogged now2 (checkedInAt now1 row))
    = CStr (if truthy (ReEntryHistory row)
            then toStr (ReEntryHistory row) +:+ newline +:+ formatDate (Some now2)
            else formatDate (Some now2)).
Proof.
  intros Htok Hi Hrow Hmatch Hopen Hfirst first second.
  assert (Hlen : (i < length sheet)%nat) by (by eapply lookup_lt_Some).
  assert (E1 : first = (successOutcome row now1, <[i := checkedInAt now1 row]> sheet)).
  { unfold first. rewrite (checkInUser_first_match token now1 sheet i row) by done.
    by rewrite Hopen. }
  assert (E2 : second = (warningOutcome (checkedInAt now1 row),
                         <[i := reEntryLogged now2 (checkedInAt now1 row)]> sheet)).
  { unfold second. rewrite E1. simpl.
    rewrite (checkInUser_first_match token now2 _ i (checkedInAt now1 row)); try done.
    - cbn [checkedInAt setCell CheckInTime truthy]. by rewrite list_insert_insert_eq.
    - by apply list_lookup_insert_eq.
    - intros j r Hj Hr. rewrite list_lookup_insert_ne in Hr by lia. by eapply Hfirst. }
  rewrite E2, E1. simpl. done.
Qed.

End CheckInUserClaims.

(** C1 at a sample store: Alice's unused ticket, scanned at times 100 and
    200. *)
Lemma checkInUser_then_reentry_witness :
  let first := checkInUser (H := runPlatform) "tok-a1" 100 [headerRow; bobRow; aliceRow] in
  let second := checkInUser (H := runPlatform) "tok-a1" 200 first.2 in
  first.1 = successOutcome (H := runPlatform) aliceRow 100
  ∧ first.2 = <[2%nat := checkedInAt 100 aliceRow]> [headerRow; bobRow; aliceRow]
  ∧ second.1 = warningOutcome (H := runPlatform) (checkedInAt 100 aliceRow)
  ∧ status second.1 = Some "WARNING"
  ∧ checkInTime second.1 = checkInTime first.1
  ∧ second.2 = <[2%nat := reEntryLogged (H := runPlatform) 200 (checkedInAt 100 aliceRow)]>
                 [headerRow; bobRow; aliceRow]
  ∧ CheckInTime (reEntryLogged (H := runPlatform) 200 (checkedInAt 100 aliceRow)) = CDate 100
  ∧ ReEntryHistory (reEntryLogged (H := runPlatform) 200 (checkedInAt 100 aliceRow))
    = CStr "200".
Proof.
  apply (checkInUser_then_reentry (H := runPlatform)
           [headerRow; bobRow; aliceRow] 2 aliceRow "tok-a1" 100 200).
  - discriminate.
  - lia.
  - reflexivity.
  - reflexivity.
  - reflexivity.
  - intros [|[|j]] r Hj Hr; [lia| |lia]. by simplify_eq/=.
Defined.

(** C1 as stated fails when an earlier row carries the token.  The second
    data row carries the token of Bob's ticket and has no check-in time;
    the scan stops at Bob's row, which is checked in: the outcome is WARNING
    and the second row stays without check-in time. *)
Lemma checkInUser_later_row_with_token_stays_open :
  [headerRow; bobRow; bobTwinRow] !! 2%nat = Some bobTwinRow
  ∧ Token bobTwinRow = CStr "tok-b2"
  ∧ truthy (CheckInTime bobTwinRow) = false
  ∧ status (checkInUser (H := runPlatform) "tok-b2" 100 [headerRow; bobRow; bobTwinRow]).1
    = Some "WARNING"
  ∧ (checkInUser (H := runPlatform) "tok-b2" 100 [headerRow; bobRow; bobTwinRow]).2 !! 2%nat
    = Some bobTwinRow.
Proof. by vm_compute. Qed.


Section CheckInUserErrors.
Context `{Platform}.

(** The four ways [checkInUser] can end. *)
Lemma checkInUser_cases (token : string) (now : Z) (sheet : Sheet) :
  (token = ""
   ∧ checkInUser token now sheet
     = (mkOutcome false None msgTokenNotProvided None None None None None, sheet))
  ∨ (token ≠ "" ∧ Forall (λ r, Token r ≠ CStr token) (dataRows sheet)
     ∧ checkInUser token now sheet
       = (mkOutcome false (Some "ERROR") msgInvalidTicket None None None None None, sheet))
  ∨ (∃ i row, (1 ≤ i)%nat ∧ sheet !! i = Some row ∧ Token row = CStr token
       ∧ truthy (CheckInTime row) = true
       ∧ checkInUser token now sheet
         = (warningOutcome row, <[i := reEntryLogged now row]> sheet))
  ∨ (∃ i row, (1 ≤ i)%nat ∧ sheet !! i = Some row ∧ Token row = CStr token
       ∧ truthy (CheckInTime row) = false
       ∧ checkInUser token now sheet
         = (successOutcome row now, <[i := checkedInAt now row]> sheet)).
Proof.
  destruct (decide (token = "")) as [Hempty|Htok].
  { left. split; [done|]. unfold checkInUser. by rewrite decide_True. }
  right.
  destruct (list_find (λ r, Token r = CStr token) (dataRows sheet)) as [[k row]|] eqn:Hfind.
  - apply list_find_Some in Hfind as (Hk & Hmatch & Hbefore).
    unfold dataRows in Hk. rewrite lookup_drop in Hk.
    assert (Hcall := checkInUser_first_match token now sheet (1 + k)%nat row
                       Htok ltac:(lia) Hk Hmatch).
    assert (Hfirst : ∀ j r, (1 ≤ j < 1 + k)%nat → sheet !! j = Some r → Token r ≠ CStr token).
    { intros j r Hj Hr. apply (Hbefore (j - 1)%nat); [|lia].
      unfold dataRows. rewrite lookup_drop. by replace (1 + (j - 1))%nat with j by lia. }
    specialize (Hcall Hfirst). right.
    destruct (truthy (CheckInTime row)) eqn:Hchecked.
    + left. exists (1 + k)%nat, row. repeat split; try done. lia.
    + right. exists (1 + k)%nat, row. repeat split; try done. lia.
  - apply list_find_None in Hfind. left. repeat split; try done.
    unfold checkInUser. rewrite decide_False by done. by apply checkInUser_loop_miss.
Qed.

(** C8, as the code has it.  For the empty token [checkInUser] returns
    success:false and the token-not-provided message, without a status
    key; for a non-empty token that no row carries it returns status ERROR
    and the invalid-ticket message.  In both cases the store is left as it
    was. *)
Theorem checkInUser_rejections (token : string) (now : Z) (sheet : Sheet) :
  (token = "" →
   checkInUser token now sheet
   = (mkOutcome false None msgTokenNotProvided None None None None None, sheet))
  ∧ (token ≠ "" → Forall (λ r, Token r ≠ CStr token) (dataRows sheet) →
     checkInUser token now sheet
     = (mkOutcome false (Some "ERROR") msgInvalidTicket None None None None None, sheet)).
Proof.
  split.
  - intros Hempty. unfold checkInUser. by rewrite decide_True.
  - intros Htok Hnone. unfold checkInUser. rewrite decide_False by done.
    by apply checkInUser_loop_miss.
Qed.

End CheckInUserErrors.

(** C8 at a sample store: the empty token, and a token no row carries. *)
Lemma checkInUser_rejections_witness :
  checkInUser (H := runPlatform) "" 7 [headerRow; bobRow; aliceRow]
  = (mkOutcome false None msgTokenNotProvided None None None None None,
     [headerRow; bobRow; aliceRow])
  ∧ checkInUser (H := runPlatform) "tok-zz" 7 [headerRow; bobRow; aliceRow]
    = (mkOutcome false (Some "ERROR") msgInvalidTicket None None None None None,
       [headerRow; bobRow; aliceRow]).
Proof.
  split.
  - apply (proj1 (checkInUser_rejections (H := runPlatform) "" 7 [headerRow; bobRow; aliceRow])).
    reflexivity.
  - apply (proj2 (checkInUser_rejections (H := runPlatform) "tok-zz" 7
                    [headerRow; bobRow; aliceRow])).
    + discriminate.
    + unfold dataRows. simpl. repeat constructor; discriminate.
Defined.

(** C8 as stated fails: the outcome for the empty token carries no status,
    so its status is not ERROR. *)
Lemma checkInUser_empty_token_has_no_status :
  status (checkInUser (H := runPlatform) "" 7 [headerRow; bobRow; aliceRow]).1 = None
  ∧ status (checkInUser (H := runPlatform) "" 7 [headerRow; bobRow; aliceRow]).1
    ≠ Some "ERROR".
Proof. split; [reflexivity | discriminate]. Qed.

(** * Manual check-in *)

Section ManualCheckInFacts.
Context `{Platform}.

(** After the loop, with the record of the row at index [i]. *)
Lemma manualCheckIn_after_found (now : Z) (sheet : Sheet) (i : nat) (row : Row) :
  sheet !! i = Some row →
  manualCheckIn_after now sheet (Some (foundOf row)) (Z.of_nat i)
  = (warningOutcome row, <[i := reEntryLogged now row]> sheet).
Proof.
  intros Hrow. unfold manualCheckIn_after. simpl.
  by rewrite (setValue_insert _ _ _ _ row Hrow), newHistory_orElse.
Qed.

(** Rows of another member leave the loop state as it is. *)
Lemma manualCheckIn_loop_none (memberId : string) (now : Z) (sheet : Sheet)
    (rest : list Row) (i : nat) (found : option Found.t) (index : Z) :
  Forall (λ r, matchesId memberId r = false) rest →
  manualCheckIn_loop memberId now sheet i rest found index
  = manualCheckIn_after now sheet found index.
Proof.
  intros Hrest. revert i. induction Hrest as [|r rest Hr _ IH]; intros i; simpl; [done|].
  unfold matchesId in Hr. apply bool_decide_eq_false in Hr.
  by rewrite decide_False.
Qed.

(** The loop stops at the first matching row that is not checked in. *)
Lemma manualCheckIn_loop_open (memberId : string) (now : Z) (sheet : Sheet)
    (pre post : list Row) (row : Row) (i : nat) (found : option Found.t) (index : Z) :
  Forall (λ r, matchesId memberId r = true → checkedInRow r = true) pre →
  matchesId memberId row = true → checkedInRow row = false →
  manualCheckIn_loop memberId now sheet i (pre ++ row :: post) found index
  = (successOutcome row now, setValue sheet (Z.of_nat (i + length pre) + 1) 5 (CDate now)).
Proof.
  intros Hpre Hmatch Hopen. revert i found index.
  induction Hpre as [|r pre Hr _ IH]; intros i found index; simpl.
  - unfold matchesId in Hmatch. apply bool_decide_eq_true in Hmatch.
    unfold checkedInRow in Hopen. rewrite decide_True, Hopen by done. simpl.
    by rewrite Nat.add_0_r.
  - unfold matchesId, checkedInRow in Hr.
    destruct (decide (toStr (ID r) = memberId)) as [Hid|Hid].
    + rewrite Hr by (by apply bool_decide_eq_true). simpl.
      by rewrite IH, Nat.add_succ_r.
    + by rewrite IH, Nat.add_succ_r.
Qed.

(** Without an open matching row the loop ends with the record of the last
    matching row. *)
Lemma manualCheckIn_loop_last (memberId : string) (now : Z) (sheet : Sheet)
    (pre post : list Row) (row : Row) (i : nat) (found : option Found.t) (index : Z) :
  Forall (λ r, matchesId memberId r = true → checkedInRow r = true) pre →
  matchesId memberId row = true → checkedInRow row = true →
  Forall (λ r, matchesId memberId r = false) post →
  manualCheckIn_loop memberId now sheet i (pre ++ row :: post) found index
  = manualCheckIn_after now sheet (Some (foundOf row)) (Z.of_nat (i + length pre)).
Proof.
  intros Hpre Hmatch Hchecked Hpost. revert i found index.
  induction Hpre as [|r pre Hr _ IH]; intros i found index; simpl.
  - unfold matchesId in Hmatch. apply bool_decide_eq_true in Hmatch.
    unfold checkedInRow in Hchecked. rewrite decide_True, Hchecked by done. simpl.
    rewrite manualCheckIn_loop_none by done. by rewrite Nat.add_0_r.
  - unfold matchesId, checkedInRow in Hr.
    destruct (decide (toStr (ID r) = memberId)) as [Hid|Hid].
    + rewrite Hr by (by apply bool_decide_eq_true). simpl.
      by rewrite IH, Nat.add_succ_r.
    + by rewrite IH, Nat.add_succ_r.
Qed.

(** The last element of a list that satisfies a test. *)
Lemma last_match_split (p : Row → bool) (l : list Row) :
  Exists (λ r, p r = true) l →
  ∃ pre row post, l = (pre ++ row :: post)%list ∧ p row = true
    ∧ Forall (λ r, p r = false) post.
Proof.
  induction l as [|x l IH]; intros Hex; [by apply Exists_nil in Hex|].
  destruct (decide (Exists (λ r, p r = true) l)) as [Hl|Hl].
  - destruct (IH Hl) as (pre & row & post & -> & Hrow & Hpost).
    by exists (x :: pre), row, post.
  - apply Exists_cons in Hex as [Hx|Hex]; [|done].
    exists [], x, l. split; [done|]. split; [done|].
    apply not_Exists_Forall in Hl; [|apply _].
    eapply Forall_impl; [exact Hl|]. intros r Hr. simpl in Hr.
    by destruct (p r).
Qed.

(** More matching rows than checked-in matching rows: one is open. *)
Lemma open_row_exists (memberId : string) (l : list Row) :
  (length (filter (λ r, matchesId memberId r = true ∧ checkedInRow r = true) l)
   < length (filter (λ r, matchesId memberId r = true) l))%nat →
  Exists (λ r, matchesId memberId r = true ∧ checkedInRow r = false) l.
Proof.
  induction l as [|x l IH]; simpl; [lia|].
  rewrite !filter_cons. intros Hlt.
  destruct (matchesId memberId x) eqn:Hm.
  - destruct (checkedInRow x) eqn:Hc.
    + rewrite !decide_True in Hlt by done. simpl in Hlt.
      apply Exists_cons_tl, IH. lia.
    + by apply Exists_cons_hd.
  - rewrite !decide_False in Hlt by (intros ?; intuition congruence).
    by apply Exists_cons_tl, IH.
Qed.

End ManualCheckInFacts.

Section ManualCheckInClaims.
Context `{Platform}.

Lemma dataRows_lookup (sheet : Sheet) (k : nat) :
  dataRows sheet !! k = sheet !! (1 + k)%nat.
Proof. unfold dataRows. by rewrite lookup_drop. Qed.

(** [manualCheckIn] when the data rows are [pre], then an open matching
    row, then [post], and no row of [pre] is an open matching row. *)
Lemma manualCheckIn_first_open (memberId : string) (now : Z) (sheet : Sheet)
    (pre post : list Row) (row : Row) :
  memberId ≠ "" → dataRows sheet = (pre ++ row :: post)%list →
  Forall (λ r, matchesId memberId r = true → checkedInRow r = true) pre →
  matchesId memberId row = true → checkedInRow row = false →
  sheet !! (1 + length pre)%nat = Some row
  ∧ manualCheckIn memberId now sheet
    = (successOutcome row now, <[(1 + length pre)%nat := checkedInAt now row]> sheet).
Proof.
  intros Hid Hsplit Hpre Hmatch Hopen.
  assert (Hrow : sheet !! (1 + length pre)%nat = Some row).
  { rewrite <- dataRows_lookup, Hsplit. by rewrite list_lookup_middle. }
  split; [done|].
  unfold manualCheckIn. rewrite decide_False by done.
  unfold dataRows in Hsplit. rewrite Hsplit.
  rewrite manualCheckIn_loop_open by done.
  by rewrite (setValue_insert _ _ _ _ row Hrow).
Qed.

(** [manualCheckIn] when the data rows are [pre], then a checked-in
    matching row, then [post], no row of [pre] is an open matching row and
    no row of [post] matches. *)
Lemma manualCheckIn_last_checked (memberId : string) (now : Z) (sheet : Sheet)
    (pre post : list Row) (row : Row) :
  memberId ≠ "" → dataRows sheet = (pre ++ row :: post)%list →
  Forall (λ r, matchesId memberId r = true → checkedInRow r = true) pre →
  matchesId memberId row = true → checkedInRow row = true →
  Forall (λ r, matchesId memberId r = false) post →
  sheet !! (1 + length pre)%nat = Some row
  ∧ manualCheckIn memberId now sheet
    = (warningOutcome row, <[(1 + length pre)%nat := reEntryLogged now row]> sheet).
Proof.
  intros Hid Hsplit Hpre Hmatch Hchecked Hpost.
  assert (Hrow : sheet !! (1 + length pre)%nat = Some row).
  { rewrite <- dataRows_lookup, Hsplit. by rewrite list_lookup_middle. }
  split; [done|].
  unfold manualCheckIn. rewrite decide_False by done.
  unfold dataRows in Hsplit. rewrite Hsplit.
  rewrite manualCheckIn_loop_last by done.
  by apply manualCheckIn_after_found.
Qed.

Lemma manualCheckIn_no_match (memberId : string) (now : Z) (sheet : Sheet) :
  memberId ≠ "" → Forall (λ r, matchesId memberId r = false) (dataRows sheet) →
  manualCheckIn memberId now sheet
  = (mkOutcome false (Some "ERROR") msgMemberIdNotFound None None None None None, sheet).
Proof.
  intros Hid Hnone. unfold manualCheckIn. rewrite decide_False by done.
  by rewrite manualCheckIn_loop_none.
Qed.

(** With an open matching row among the data rows, the first one in scan
    order is checked in. *)
Lemma manualCheckIn_open_case (memberId : string) (now : Z) (sheet : Sheet) :
  memberId ≠ "" →
  Exists (λ r, matchesId memberId r = true ∧ checkedInRow r = false) (dataRows sheet) →
  ∃ (i : nat) (row : Row),
    (1 ≤ i)%nat ∧ sheet !! i = Some row
    ∧ matchesId memberId row = true ∧ checkedInRow row = false
    ∧ (∀ j r, (1 ≤ j < i)%nat → sheet !! j = Some r →
         matchesId memberId r = true → checkedInRow r = true)
    ∧ manualCheckIn memberId now sheet
      = (successOutcome row now, <[i := checkedInAt now row]> sheet).
Proof.
  intros Hid Hex.
  destruct (list_find (λ r, matchesId memberId r = true ∧ checkedInRow r = false)
              (dataRows sheet)) as [[k row]|] eqn:Hfind.
  2:{ apply list_find_None in Hfind. apply Exists_exists in Hex as (r & Hin & Hr).
      rewrite Forall_forall in Hfind. by destruct (Hfind r Hin). }
  apply list_find_Some in Hfind as (Hk & [Hmatch Hopen] & Hbefore).
  assert (Hklen : (k < length (dataRows sheet))%nat) by (by eapply lookup_lt_Some).
  assert (Hpre : Forall (λ r, matchesId memberId r = true → checkedInRow r = true)
                   (take k (dataRows sheet))).
  { apply Forall_lookup. intros j r Hj Hm.
    assert (Hjk : (j < k)%nat).
    { apply lookup_lt_Some in Hj. rewrite length_take in Hj. lia. }
    rewrite lookup_take_lt in Hj by done.
    destruct (checkedInRow r) eqn:Hc; [done|]. by destruct (Hbefore j r Hj Hjk). }
  destruct (manualCheckIn_first_open memberId now sheet
              (take k (dataRows sheet)) (drop (S k) (dataRows sheet)) row)
    as [Hrow Hcall]; try done.
  { by rewrite take_drop_middle. }
  rewrite length_take, Nat.min_l in Hrow, Hcall by lia.
  exists (1 + k)%nat, row.
  split; [lia|]. split; [done|]. split; [done|]. split; [done|].
  split; [|done].
  intros j r Hj Hr Hm. rewrite Forall_lookup in Hpre.
  apply (Hpre (j - 1)%nat r); [|done].
  rewrite lookup_take_lt by lia. rewrite dataRows_lookup.
  by replace (1 + (j - 1))%nat with j by lia.
Qed.

(** With matching rows that are all checked in, the re-entry is logged on
    the last one in scan order. *)
Lemma manualCheckIn_checked_case (memberId : string) (now : Z) (sheet : Sheet) :
  memberId ≠ "" →
  Exists (λ r, matchesId memberId r = true) (dataRows sheet) →
  Forall (λ r, matchesId memberId r = true → checkedInRow r = true) (dataRows sheet) →
  ∃ (i : nat) (row : Row),
    (1 ≤ i)%nat ∧ sheet !! i = Some row ∧ matchesId memberId row = true
    ∧ checkedInRow row = true
    ∧ (∀ j r, (i < j)%nat → sheet !! j = Some r → matchesId memberId r = false)
    ∧ manualCheckIn memberId now sheet
      = (warningOutcome row, <[i := reEntryLogged now row]> sheet).
Proof.
  intros Hid Hex Hall.
  destruct (last_match_split (matchesId memberId) _ Hex)
    as (pre & row & post & Hsplit & Hmatch & Hpost).
  rewrite Hsplit in Hall. apply Forall_app in Hall as [Hpre Hrest].
  apply Forall_cons in Hrest as [Hchecked _]. specialize (Hchecked Hmatch).
  destruct (manualCheckIn_last_checked memberId now sheet pre post row)
    as [Hrow Hcall]; try done.
  exists (1 + length pre)%nat, row.
  split; [lia|]. split; [done|]. split; [done|]. split; [done|].
  split; [|done].
  intros j r Hj Hr. rewrite Forall_lookup in Hpost.
  apply (Hpost (j - (1 + length pre) - 1)%nat r).
  assert (Hd : dataRows sheet !! (j - 1)%nat = Some r).
  { rewrite dataRows_lookup. by replace (1 + (j - 1))%nat with j by lia. }
  rewrite Hsplit, lookup_app_r in Hd by lia.
  replace (j - 1 - length pre)%nat with (S (j - (1 + length pre) - 1)) in Hd by lia.
  done.
Qed.

(** C4.  For a provided member id with N matching rows of which M < N are
    checked in, [manualCheckIn] returns SUCCESS and sets the check-in time
    of the first matching row in scan order that is not checked in; every
    other row, and every other cell of that row, is left as it was. *)
Theorem manualCheckIn_checks_in_first_open (memberId : string) (now : Z)
    (sheet : Sheet) (N M : nat) :
  memberId ≠ "" →
  N = length (filter (λ r, matchesId memberId r = true) (dataRows sheet)) →
  M = length (filter (λ r, matchesId memberId r = true ∧ checkedInRow r = true)
                (dataRows sheet)) →
  (M < N)%nat →
  ∃ (i : nat) (row : Row),
    (1 ≤ i)%nat ∧ sheet !! i = Some row
    ∧ matchesId memberId row = true ∧ checkedInRow row = false
    ∧ (∀ j r, (1 ≤ j < i)%nat → sheet !! j = Some r →
         matchesId memberId r = true → checkedInRow r = true)
    ∧ (manualCheckIn memberId now sheet).1 = successOutcome row now
    ∧ status (manualCheckIn memberId now sheet).1 = Some "SUCCESS"
    ∧ (manualCheckIn memberId now sheet).2 = <[i := checkedInAt now row]> sheet
    ∧ CheckInTime (checkedInAt now row) = CDate now
    ∧ ReEntryHistory (checkedInAt now row) = ReEntryHistory row
    ∧ (∀ j, j ≠ i → (manualCheckIn memberId now sheet).2 !! j = sheet !! j).
Proof.
  intros Hid -> -> Hlt.
  apply open_row_exists in Hlt.
  destruct (manualCheckIn_open_case memberId now sheet Hid Hlt)
    as (i & row & Hi & Hrow & Hmatch & Hopen & Hbefore & Hcall).
  exists i, row. rewrite Hcall. cbn [fst snd].
  repeat split; try done.
  intros j Hj. by rewrite list_lookup_insert_ne.
Qed.

(** C5.  For a provided member id: when some row matches and every
    matching row is checked in, [manualCheckIn] returns WARNING with the
    check-in time stored in the last matching row, joins one timestamp
    onto the re-entry history of that row and leaves every other row and
    every check-in time as they were; when no row matches it returns ERROR
    with the member-id-not-found message and leaves the store as it was. *)
Theorem manualCheckIn_all_checked_in (memberId : string) (now : Z) (sheet : Sheet) :
  memberId ≠ "" →
  (Exists (λ r, matchesId memberId r = true) (dataRows sheet) →
   Forall (λ r, matchesId memberId r = true → checkedInRow r = true) (dataRows sheet) →
   ∃ (i : nat) (row : Row),
     (1 ≤ i)%nat ∧ sheet !! i = Some row ∧ matchesId memberId row = true
     ∧ (∀ j r, (i < j)%nat → sheet !! j = Some r → matchesId memberId r = false)
     ∧ (manualCheckIn memberId now sheet).1 = warningOutcome row
     ∧ status (manualCheckIn memberId now sheet).1 = Some "WARNING"
     ∧ checkInTime (manualCheckIn memberId now sheet).1
       = Some (formatDate (newDate (CheckInTime row)))
     ∧ (manualCheckIn memberId now sheet).2 = <[i := reEntryLogged now row]> sheet
     ∧ ReEntryHistory (reEntryLogged now row)
       = CStr (if truthy (ReEntryHistory row)
               then toStr (ReEntryHistory row) +:+ newline +:+ formatDate (Some now)
               else formatDate (Some now))
     ∧ (∀ j, j ≠ i → (manualCheckIn memberId now sheet).2 !! j = sheet !! j)
     ∧ CheckInTime <$> (manualCheckIn memberId now sheet).2 = CheckInTime <$> sheet)
  ∧ (Forall (λ r, matchesId memberId r = false) (dataRows sheet) →
     manualCheckIn memberId now sheet
     = (mkOutcome false (Some "ERROR") msgMemberIdNotFound None None None None None,
        sheet)).
Proof.
  intros Hid. split; [|by apply manualCheckIn_no_match].
  intros Hex Hall.
  destruct (manualCheckIn_checked_case memberId now sheet Hid Hex Hall)
    as (i & row & Hi & Hrow & Hmatch & Hchecked & Hafter & Hcall).
  exists i, row. rewrite Hcall. cbn [fst snd].
  repeat split; try done.
  - intros j Hj. by rewrite list_lookup_insert_ne.
  - rewrite list_fmap_insert. apply list_insert_id.
    by rewrite list_lookup_fmap, Hrow.
Qed.

End ManualCheckInClaims.

(** C4 at a sample store: Alice holds two tickets, the first of them used. *)
Lemma manualCheckIn_checks_in_first_open_witness :
  ∃ (i : nat) (row : Row),
    (1 ≤ i)%nat ∧ [headerRow; aliceUsedRow; bobRow; aliceRow] !! i = Some row
    ∧ matchesId (H := runPlatform) "A1" row = true ∧ checkedInRow row = false
    ∧ (∀ j r, (1 ≤ j < i)%nat → [headerRow; aliceUsedRow; bobRow; aliceRow] !! j = Some r →
         matchesId (H := runPlatform) "A1" r = true → checkedInRow r = true)
    ∧ (manualCheckIn (H := runPlatform) "A1" 100 [headerRow; aliceUsedRow; bobRow; aliceRow]).1
      = successOutcome (H := runPlatform) row 100
    ∧ status (manualCheckIn (H := runPlatform) "A1" 100
                [headerRow; aliceUsedRow; bobRow; aliceRow]).1 = Some "SUCCESS"
    ∧ (manualCheckIn (H := runPlatform) "A1" 100 [headerRow; aliceUsedRow; bobRow; aliceRow]).2
      = <[i := checkedInAt 100 row]> [headerRow; aliceUsedRow; bobRow; aliceRow]
    ∧ CheckInTime (checkedInAt 100 row) = CDate 100
    ∧ ReEntryHistory (checkedInAt 100 row) = ReEntryHistory row
    ∧ (∀ j, j ≠ i →
         (manualCheckIn (H := runPlatform) "A1" 100
            [headerRow; aliceUsedRow; bobRow; aliceRow]).2 !! j
         = [headerRow; aliceUsedRow; bobRow; aliceRow] !! j).
Proof.
  apply (manualCheckIn_checks_in_first_open (H := runPlatform) "A1" 100
           [headerRow; aliceUsedRow; bobRow; aliceRow] 2 1).
  - discriminate.
  - reflexivity.
  - reflexivity.
  - lia.
Defined.

(** C5 at a sample store: Bob's only ticket is used; nobody has id Z9. *)
Lemma manualCheckIn_all_checked_in_witness :
  (∃ (i : nat) (row : Row),
     (1 ≤ i)%nat ∧ [headerRow; bobRow; aliceRow] !! i = Some row
     ∧ matchesId (H := runPlatform) "B2" row = true
     ∧ (∀ j r, (i < j)%nat → [headerRow; bobRow; aliceRow] !! j = Some r →
          matchesId (H := runPlatform) "B2" r = false)
     ∧ (manualCheckIn (H := runPlatform) "B2" 100 [headerRow; bobRow; aliceRow]).1
       = warningOutcome (H := runPlatform) row
     ∧ status (manualCheckIn (H := runPlatform) "B2" 100 [headerRow; bobRow; aliceRow]).1
       = Some "WARNING"
     ∧ checkInTime (manualCheckIn (H := runPlatform) "B2" 100 [headerRow; bobRow; aliceRow]).1
       = Some (formatDate (Platform := runPlatform) (newDate (H := runPlatform) (CheckInTime row)))
     ∧ (manualCheckIn (H := runPlatform) "B2" 100 [headerRow; bobRow; aliceRow]).2
       = <[i := reEntryLogged (H := runPlatform) 100 row]> [headerRow; bobRow; aliceRow]
     ∧ ReEntryHistory (reEntryLogged (H := runPlatform) 100 row)
       = CStr (if truthy (ReEntryHistory row)
               then toStr (H := runPlatform) (ReEntryHistory row) +:+ newline
                    +:+ formatDate (Platform := runPlatform) (Some 100)
               else formatDate (Platform := runPlatform) (Some 100))
     ∧ (∀ j, j ≠ i →
          (manualCheckIn (H := runPlatform) "B2" 100 [headerRow; bobRow; aliceRow]).2 !! j
          = [headerRow; bobRow; aliceRow] !! j)
     ∧ CheckInTime <$> (manualCheckIn (H := runPlatform) "B2" 100
                          [headerRow; bobRow; aliceRow]).2
       = CheckInTime <$> [headerRow; bobRow; aliceRow])
  ∧ manualCheckIn (H := runPlatform) "Z9" 100 [headerRow; bobRow; aliceRow]
    = (mkOutcome false (Some "ERROR") msgMemberIdNotFound None None None None None,
       [headerRow; bobRow; aliceRow]).
Proof.
  split.
  - apply (proj1 (manualCheckIn_all_checked_in (H := runPlatform) "B2" 100
                    [headerRow; bobRow; aliceRow] ltac:(discriminate))).
    + apply Exists_cons_hd. reflexivity.
    + repeat constructor; discriminate.
  - apply (proj2 (manualCheckIn_all_checked_in (H := runPlatform) "Z9" 100
                    [headerRow; bobRow; aliceRow] ltac:(discriminate))).
    repeat constructor.
Defined.

(** * The success flag *)

Section SuccessFlag.
Context `{Platform}.

(** The four ways [manualCheckIn] can end. *)
Lemma manualCheckIn_cases (memberId : string) (now : Z) (sheet : Sheet) :
  (memberId = ""
   ∧ manualCheckIn memberId now sheet
     = (mkOutcome false None msgMemberIdNotProvided None None None None None, sheet))
  ∨ (memberId ≠ "" ∧ Forall (λ r, matchesId memberId r = false) (dataRows sheet)
     ∧ manualCheckIn memberId now sheet
       = (mkOutcome false (Some "ERROR") msgMemberIdNotFound None None None None None,
          sheet))
  ∨ (∃ i row, (1 ≤ i)%nat ∧ sheet !! i = Some row ∧ matchesId memberId row = true
       ∧ checkedInRow row = true
       ∧ manualCheckIn memberId now sheet
         = (warningOutcome row, <[i := reEntryLogged now row]> sheet))
  ∨ (∃ i row, (1 ≤ i)%nat ∧ sheet !! i = Some row ∧ matchesId memberId row = true
       ∧ checkedInRow row = false
       ∧ manualCheckIn memberId now sheet
         = (successOutcome row now, <[i := checkedInAt now row]> sheet)).
Proof.
  destruct (decide (memberId = "")) as [Hempty|Hid].
  { left. split; [done|]. unfold manualCheckIn. by rewrite decide_True. }
  right.
  destruct (decide (Exists (λ r, matchesId memberId r = true ∧ checkedInRow r = false)
                      (dataRows sheet))) as [Hopen|Hnoopen].
  { do 2 right.
    destruct (manualCheckIn_open_case memberId now sheet Hid Hopen)
      as (i & row & Hi & Hrow & Hmatch & Hrowopen & _ & Hcall).
    by exists i, row. }
  assert (Hall : Forall (λ r, matchesId memberId r = true → checkedInRow r = true)
                   (dataRows sheet)).
  { apply not_Exists_Forall in Hnoopen; [|apply _].
    eapply Forall_impl; [exact Hnoopen|]. intros r Hr Hm. simpl in Hr.
    destruct (checkedInRow r); [done|]. by destruct Hr. }
  destruct (decide (Exists (λ r, matchesId memberId r = true) (dataRows sheet)))
    as [Hex|Hnone].
  - right. left.
    destruct (manualCheckIn_checked_case memberId now sheet Hid Hex Hall)
      as (i & row & Hi & Hrow & Hmatch & Hchecked & _ & Hcall).
    by exists i, row.
  - left. split; [done|].
    assert (Hno : Forall (λ r, matchesId memberId r = false) (dataRows sheet)).
    { apply not_Exists_Forall in Hnone; [|apply _].
      eapply Forall_impl; [exact Hnone|]. intros r Hr. simpl in Hr.
      by destruct (matchesId memberId r). }
    split; [done|]. by apply manualCheckIn_no_match.
Qed.

(** C10.  For [checkInUser] and for [manualCheckIn] the success flag of the
    outcome is true exactly when its status is SUCCESS; an outcome with
    status WARNING has success false although the re-entry has been
    written to the store: the matched row, which was checked in, keeps its
    check-in time and has the time of the call joined onto its re-entry
    history, after a newline when there was a history, and no other row
    differs. *)
Theorem success_flag_iff_status_SUCCESS (token memberId : string) (now : Z) (sheet : Sheet) :
  (success (checkInUser token now sheet).1 = true
   ↔ status (checkInUser token now sheet).1 = Some "SUCCESS")
  ∧ (success (manualCheckIn memberId now sheet).1 = true
     ↔ status (manualCheckIn memberId now sheet).1 = Some "SUCCESS")
  ∧ (status (checkInUser token now sheet).1 = Some "WARNING" →
     success (checkInUser token now sheet).1 = false
     ∧ ∃ i row row', (1 ≤ i)%nat ∧ sheet !! i = Some row
         ∧ truthy (CheckInTime row) = true
         ∧ (checkInUser token now sheet).2 = <[i := row']> sheet
         ∧ row' = reEntryLogged now row
         ∧ CheckInTime row' = CheckInTime row
         ∧ ReEntryHistory row'
           = CStr (if truthy (ReEntryHistory row)
                   then toStr (ReEntryHistory row) +:+ newline +:+ formatDate (Some now)
                   else formatDate (Some now)))
  ∧ (status (manualCheckIn memberId now sheet).1 = Some "WARNING" →
     success (manualCheckIn memberId now sheet).1 = false
     ∧ ∃ i row row', (1 ≤ i)%nat ∧ sheet !! i = Some row
         ∧ truthy (CheckInTime row) = true
         ∧ (manualCheckIn memberId now sheet).2 = <[i := row']> sheet
         ∧ row' = reEntryLogged now row
         ∧ CheckInTime row' = CheckInTime row
         ∧ ReEntryHistory row'
           = CStr (if truthy (ReEntryHistory row)
                   then toStr (ReEntryHistory row) +:+ newline +:+ formatDate (Some now)
                   else formatDate (Some now))).
Proof.
  assert (Hlogged : ∀ i row (store : Sheet),
            (1 ≤ i)%nat → sheet !! i = Some row → truthy (CheckInTime row) = true →
            store = <[i := reEntryLogged now row]> sheet →
            ∃ i row row', (1 ≤ i)%nat ∧ sheet !! i = Some row
              ∧ truthy (CheckInTime row) = true
              ∧ store = <[i := row']> sheet
              ∧ row' = reEntryLogged now row
              ∧ CheckInTime row' = CheckInTime row
              ∧ ReEntryHistory row'
                = CStr (if truthy (ReEntryHistory row)
                        then toStr (ReEntryHistory row) +:+ newline +:+ formatDate (Some now)
                        else formatDate (Some now))).
  { intros i row store Hi Hrow Hc ->. exists i, row, (reEntryLogged now row).
    by repeat split. }
  destruct (checkInUser_cases token now sheet)
    as [[_ ->]|[(_ & _ & ->)|[(i & row & Hi & Hrow & _ & Hc & ->)
                             |(i & row & Hi & Hrow & _ & Hc & ->)]]];
  destruct (manualCheckIn_cases memberId now sheet)
    as [[_ ->]|[(_ & _ & ->)|[(i' & row' & Hi' & Hrow' & _ & Hc' & ->)
                             |(i' & row' & Hi' & Hrow' & _ & Hc' & ->)]]];
  cbn [fst snd success status successOutcome warningOutcome];
  (split; [split; by intros|]); (split; [split; by intros|]);
  split; intros Hw; try discriminate Hw; (split; [done|]); eauto.
Qed.

End SuccessFlag.

(** C10 at a sample store: scanning Bob's used ticket, and entering Bob's id
    by hand. *)
Lemma success_flag_iff_status_SUCCESS_witness :
  (success (checkInUser (H := runPlatform) "tok-b2" 100 [headerRow; bobRow; aliceRow]).1 = false
   ∧ ∃ i row row', (1 ≤ i)%nat ∧ [headerRow; bobRow; aliceRow] !! i = Some row
       ∧ truthy (CheckInTime row) = true
       ∧ (checkInUser (H := runPlatform) "tok-b2" 100 [headerRow; bobRow; aliceRow]).2
         = <[i := row']> [headerRow; bobRow; aliceRow]
       ∧ row' = reEntryLogged (H := runPlatform) 100 row
       ∧ CheckInTime row' = CheckInTime row
       ∧ ReEntryHistory row'
         = CStr (if truthy (ReEntryHistory row)
                 then toStr (H := runPlatform) (ReEntryHistory row) +:+ newline
                      +:+ formatDate (Platform := runPlatform) (Some 100)
                 else formatDate (Platform := runPlatform) (Some 100)))
  ∧ (success (manualCheckIn (H := runPlatform) "B2" 100 [headerRow; bobRow; aliceRow]).1 = false
     ∧ ∃ i row row', (1 ≤ i)%nat ∧ [headerRow; bobRow; aliceRow] !! i = Some row
         ∧ truthy (CheckInTime row) = true
         ∧ (manualCheckIn (H := runPlatform) "B2" 100 [headerRow; bobRow; aliceRow]).2
           = <[i := row']> [headerRow; bobRow; aliceRow]
         ∧ row' = reEntryLogged (H := runPlatform) 100 row
         ∧ CheckInTime row' = CheckInTime row
         ∧ ReEntryHistory row'
           = CStr (if truthy (ReEntryHistory row)
                   then toStr (H := runPlatform) (ReEntryHistory row) +:+ newline
                        +:+ formatDate (Platform := runPlatform) (Some 100)
                   else formatDate (Platform := runPlatform) (Some 100))).
Proof.
  destruct (success_flag_iff_status_SUCCESS (H := runPlatform) "tok-b2" "B2" 100
              [headerRow; bobRow; aliceRow]) as (_ & _ & Hscan & Hmanual).
  split.
  - apply Hscan. reflexivity.
  - apply Hmanual. reflexivity.
Defined.

(** * Dashboard *)

Section DashboardFacts.
Context `{Platform}.

Lemma cnt_nil (p : Row → bool) : cnt p [] = 0.
Proof. reflexivity. Qed.

Lemma cnt_cons (p : Row → bool) (x : Row) (l : list Row) :
  cnt p (x :: l) = (if p x then 1 else 0) + cnt p l.
Proof.
  unfold cnt. rewrite filter_cons. destruct (p x).
  - rewrite decide_True by done. simpl length. lia.
  - rewrite decide_False by done. lia.
Qed.

Lemma cnt_nonneg (p : Row → bool) (l : list Row) : 0 ≤ cnt p l.
Proof. unfold cnt. lia. Qed.

Lemma cnt_le (p q : Row → bool) (l : list Row) :
  (∀ r, q r = true → p r = true) → cnt q l ≤ cnt p l.
Proof.
  intros Hqp. induction l as [|x l IH]; [done|].
  rewrite !cnt_cons. specialize (Hqp x).
  destruct (q x), (p x); lia.
Qed.

Lemma bump_bump (o : option Breakdown.entry) (n1 m1 n2 m2 : Z) :
  0 ≤ m1 ≤ n1 → 0 ≤ m2 ≤ n2 →
  bump (bump o n1 m1) n2 m2 = bump o (n1 + n2) (m1 + m2).
Proof.
  intros H1 H2. unfold bump.
  destruct (decide (n1 = 0)) as [->|Hn1], (decide (n2 = 0)) as [->|Hn2].
  - by rewrite decide_True by lia.
  - rewrite decide_False by lia. do 2 f_equal; lia.
  - rewrite decide_False by lia. simpl. do 2 f_equal; lia.
  - rewrite decide_False by lia. simpl. do 2 f_equal; lia.
Qed.

(** One iteration of the loop, read off its result.  No own key of
    [breakdown] is the name of a member of [Object.prototype]. *)
Lemma dashboard_step_spec (t c : Z) (b : gmap string Breakdown.entry) (x : Row) :
  (∀ k, k ∈ objectPrototypeNames → b !! k = None) →
  (dashboard_step (t, c, b) x).1.1 = t + (if hasId x then 1 else 0)
  ∧ (dashboard_step (t, c, b) x).1.2 = c + (if hasId x && checkedInRow x then 1 else 0)
  ∧ ∀ k, (dashboard_step (t, c, b) x).2 !! k
         = bump (b !! k) (if inKey k x then 1 else 0) (if inKeyChecked k x then 1 else 0).
Proof.
  intros Hclean.
  unfold dashboard_step, inKey, inKeyChecked, inheritedType, getProperty.
  fold (breakdownKey x). fold (hasId x). fold (checkedInRow x).
  set (kx := breakdownKey x).
  destruct (decide (kx ∈ objectPrototypeNames)) as [Hin|Hout].
  { rewrite (Hclean kx Hin), bool_decide_eq_true_2 by done.
    destruct (hasId x) eqn:Hid; cbn [fst snd andb negb].
    2:{ split; [lia|]. split; [lia|]. done. }
    assert (Halter : ∀ f, alter f kx b = b).
    { intros f. apply map_eq. intros k. destruct (decide (kx = k)) as [<-|Hne].
      - by rewrite lookup_alter_eq, (Hclean kx Hin).
      - by rewrite lookup_alter_ne. }
    assert (Hbump : ∀ k, b !! k
                         = bump (b !! k) (if bool_decide (kx = k) && false then 1 else 0)
                             (if bool_decide (kx = k) && false && checkedInRow x
                              then 1 else 0)).
    { intros k. by rewrite andb_false_r. }
    destruct (checkedInRow x); simpl.
    - split; [done|]. split; [done|]. intros k. by rewrite !Halter, <- Hbump.
    - split; [done|]. split; [lia|]. intros k. by rewrite Halter, <- Hbump. }
  rewrite (bool_decide_eq_false_2 (kx ∈ objectPrototypeNames)) by done.
  destruct (hasId x) eqn:Hid; cbn [fst snd andb negb].
  2:{ split; [lia|]. split; [lia|]. done. }
  set (b1 := match b !! kx with
             | Some _ => b
             | None => <[kx := Breakdown.mk 0 0]> b
             end).
  assert (Hb1' : match match b !! kx with
                       | Some v => Own v
                       | None => @Absent Breakdown.entry
                       end with
                 | Absent => <[kx := Breakdown.mk 0 0]> b
                 | _ => b
                 end = b1).
  { subst b1. by destruct (b !! kx). }
  rewrite Hb1'. clear Hb1'.
  assert (Hb1 : ∀ k, alter Breakdown.incTotal kx b1 !! k
                = bump (b !! k) (if bool_decide (kx = k) then 1 else 0) 0).
  { intros k. unfold bump. destruct (decide (kx = k)) as [<-|Hne].
    - rewrite bool_decide_eq_true_2, decide_False by done.
      rewrite lookup_alter_eq. subst b1. destruct (b !! kx) as [e|] eqn:He.
      + rewrite He. simpl. unfold Breakdown.incTotal. do 2 f_equal. lia.
      + by rewrite lookup_insert_eq.
    - rewrite bool_decide_eq_false_2, decide_True by done.
      rewrite lookup_alter_ne by done. subst b1. destruct (b !! kx); [done|].
      by rewrite lookup_insert_ne. }
  destruct (checkedInRow x) eqn:Hchecked; simpl.
  - split; [done|]. split; [done|]. intros k. rewrite !andb_true_r.
    destruct (decide (kx = k)) as [<-|Hne].
    + rewrite lookup_alter_eq, Hb1. unfold bump.
      rewrite bool_decide_eq_true_2, !decide_False by done. simpl.
      unfold Breakdown.incCheckedIn. simpl. do 2 f_equal. lia.
    + rewrite lookup_alter_ne, Hb1 by done.
      by rewrite bool_decide_eq_false_2.
  - split; [done|]. split; [lia|]. intros k. rewrite Hb1, !andb_true_r, andb_false_r.
    by destruct (bool_decide (kx = k)).
Qed.

Lemma bump_clean (o : option Breakdown.entry) (n m : Z) : n = 0 → bump o n m = o.
Proof. intros ->. done. Qed.

Lemma inKey_inherited (k : string) (x : Row) : k ∈ objectPrototypeNames → inKey k x = false.
Proof.
  intros Hk. unfold inKey, inheritedType.
  destruct (bool_decide (breakdownKey x = k)) eqn:Hx.
  - apply bool_decide_eq_true in Hx. subst k.
    rewrite bool_decide_eq_true_2 by done. by rewrite andb_false_r.
  - by rewrite andb_false_r.
Qed.

Lemma dashboard_step_clean (acc : Z * Z * gmap string Breakdown.entry) (x : Row) :
  (∀ k, k ∈ objectPrototypeNames → acc.2 !! k = None) →
  ∀ k, k ∈ objectPrototypeNames → (dashboard_step acc x).2 !! k = None.
Proof.
  destruct acc as [[t c] b]. intros Hclean k Hk.
  destruct (dashboard_step_spec t c b x Hclean) as (_ & _ & Hb).
  rewrite Hb, (inKey_inherited k x Hk). by rewrite bump_clean, Hclean.
Qed.

Lemma dashboard_fold (l : list Row) (t c : Z) (b : gmap string Breakdown.entry) :
  (∀ k, k ∈ objectPrototypeNames → b !! k = None) →
  (foldl dashboard_step (t, c, b) l).1.1 = t + cnt hasId l
  ∧ (foldl dashboard_step (t, c, b) l).1.2 = c + cnt (λ r, hasId r && checkedInRow r) l
  ∧ ∀ k, (foldl dashboard_step (t, c, b) l).2 !! k
         = bump (b !! k) (cnt (inKey k) l) (cnt (inKeyChecked k) l).
Proof.
  revert t c b. induction l as [|x l IH]; intros t c b Hclean.
  { simpl. rewrite !cnt_nil. split; [lia|]. split; [lia|]. done. }
  change (foldl dashboard_step (t, c, b) (x :: l))
    with (foldl dashboard_step (dashboard_step (t, c, b) x) l).
  destruct (dashboard_step_spec t c b x Hclean) as (Ht & Hc & Hb).
  destruct (dashboard_step (t, c, b) x) as [[t' c'] b']. simpl in Ht, Hc, Hb.
  subst t' c'.
  assert (Hclean' : ∀ k, k ∈ objectPrototypeNames → b' !! k = None).
  { intros k Hk. rewrite Hb, (inKey_inherited k x Hk). by rewrite bump_clean, Hclean. }
  destruct (IH (t + (if hasId x then 1 else 0))
              (c + (if hasId x && checkedInRow x then 1 else 0)) b' Hclean')
    as (Ht' & Hc' & Hb').
  rewrite Ht', Hc', !cnt_cons.
  split; [lia|]. split; [lia|].
  intros k. rewrite Hb', Hb, !cnt_cons. apply bump_bump.
  - unfold inKeyChecked, inKey.
    destruct (hasId x), (bool_decide _), (negb (inheritedType x)), (checkedInRow x);
      simpl; lia.
  - split; [apply cnt_nonneg|]. apply cnt_le.
    unfold inKeyChecked, inKey. intros r Hr. by apply andb_prop in Hr as [? _].
Qed.

(** The four fields of the dashboard as counts over the data rows. *)
Lemma getDashboardData_fields (sheet : Sheet) :
  total (getDashboardData sheet) = cnt hasId (dataRows sheet)
  ∧ checkedIn (getDashboardData sheet)
    = cnt (λ r, hasId r && checkedInRow r) (dataRows sheet)
  ∧ notCheckedIn (getDashboardData sheet)
    = total (getDashboardData sheet) - checkedIn (getDashboardData sheet)
  ∧ ∀ k, breakdown (getDashboardData sheet) !! k
         = bump None (cnt (inKey k) (dataRows sheet)) (cnt (inKeyChecked k) (dataRows sheet)).
Proof.
  unfold getDashboardData, dataRows.
  destruct (dashboard_fold (drop 1 sheet) 0 0 ∅ (λ k _, lookup_empty k)) as (Ht & Hc & Hb).
  destruct (foldl dashboard_step (0, 0, ∅) (drop 1 sheet)) as [[t c] b].
  simpl in Ht, Hc, Hb. cbn [total checkedIn notCheckedIn breakdown].
  split; [by rewrite Ht|]. split; [by rewrite Hc|]. split; [done|].
  intros k. by rewrite Hb, lookup_empty.
Qed.

Lemma cnt_ext (p q : Row → bool) (l : list Row) :
  (∀ r, r ∈ l → p r = q r) → cnt p l = cnt q l.
Proof.
  induction l as [|x l IH]; intros Hpq; [done|].
  rewrite !cnt_cons, (Hpq x (list_elem_of_here _ _)), IH; [done|].
  intros r Hr. apply Hpq. by apply list_elem_of_further.
Qed.

(** X23.  [getDashboardData] is determined by the rows below the header:
    [total] is the number of rows with an id, [checkedIn] the number of
    those that also have a check-in time, [notCheckedIn] their difference.
    [breakdown] has an entry for each ticket type (Unknown when the cell is
    empty) of a row with an id that is not the name of a member of
    [Object.prototype], with the same two counts restricted to that type;
    it has no entry under the name of such a member.  A store with no data
    row gives zeros and the empty breakdown. *)
Theorem getDashboardData_counts (sheet : Sheet) (header : Row) :
  total (getDashboardData sheet) = countRows hasId sheet
  ∧ checkedIn (getDashboardData sheet)
    = countRows (λ r, hasId r && checkedInRow r) sheet
  ∧ notCheckedIn (getDashboardData sheet)
    = total (getDashboardData sheet) - checkedIn (getDashboardData sheet)
  ∧ (∀ k : string,
       breakdown (getDashboardData sheet) !! k
       = if decide (k ∈ objectPrototypeNames
                    ∨ countRows (λ r, hasId r && bool_decide (breakdownKey r = k)) sheet = 0)
         then None
         else Some (Breakdown.mk
                      (countRows (λ r, hasId r && bool_decide (breakdownKey r = k)) sheet)
                      (countRows (λ r, hasId r && bool_decide (breakdownKey r = k)
                                       && checkedInRow r) sheet)))
  ∧ getDashboardData [header] = mkDashboard 0 0 0 ∅
  ∧ getDashboardData [] = mkDashboard 0 0 0 ∅
  ∧ getDashboardData (header :: dataRows sheet) = getDashboardData sheet.
Proof.
  destruct (getDashboardData_fields sheet) as (Ht & Hc & Hn & Hb).
  split; [done|]. split; [done|]. split; [done|].
  split; [|by repeat split].
  intros k. rewrite Hb. unfold countRows.
  destruct (decide (k ∈ objectPrototypeNames)) as [Hk|Hk].
  { rewrite decide_True by (by left). apply bump_clean.
    assert (Hnone : ∀ l, cnt (inKey k) l = 0).
    { intros l. induction l as [|r l IH]; [done|].
      by rewrite cnt_cons, IH, (inKey_inherited k r Hk). }
    apply Hnone. }
  assert (Hkey : ∀ r, inKey k r = hasId r && bool_decide (breakdownKey r = k)).
  { intros r. unfold inKey, inheritedType.
    destruct (bool_decide (breakdownKey r = k)) eqn:Hr; [|by rewrite !andb_false_r].
    apply bool_decide_eq_true in Hr. subst k.
    by rewrite bool_decide_eq_false_2, andb_true_r by done. }
  assert (Hchecked : ∀ r, inKeyChecked k r
                          = hasId r && bool_decide (breakdownKey r = k) && checkedInRow r).
  { intros r. unfold inKeyChecked. fold (inKey k r). by rewrite Hkey. }
  rewrite (cnt_ext _ _ _ (λ r _, Hkey r)), (cnt_ext _ _ _ (λ r _, Hchecked r)).
  unfold bump. case_decide as Hz.
  - rewrite decide_True by (by right). done.
  - rewrite decide_False by tauto. simpl. do 2 f_equal; lia.
Qed.

(** C9.  The claim fails on a ticket type that names a member of
    [Object.prototype].  The row of Dan has an id and the ticket type
    constructor: it is counted in [total], and [breakdown] gets no entry
    for it, under constructor or any other key. *)
Theorem inherited_type_has_no_breakdown_entry :
  hasId constructorRow = true
  ∧ breakdownKey constructorRow = "constructor"
  ∧ total (getDashboardData [headerRow; constructorRow]) = 1
  ∧ breakdown (getDashboardData [headerRow; constructorRow]) !! "constructor" = None
  ∧ breakdown (getDashboardData [headerRow; constructorRow]) = ∅.
Proof. by vm_compute. Qed.

End DashboardFacts.

(** * Ticket taxonomy *)

Lemma normalizeTicketType_unmapped (label : string) :
  label ∉ mappedAliases → normalizeTicketType label = label.
Proof.
  unfold mappedAliases. rewrite !not_elem_of_cons.
  intros (? & ? & ? & ? & ? & ? & ? & ? & ? & ? & _).
  unfold normalizeTicketType. repeat case_decide; try done; intuition congruence.
Qed.

Lemma normalizeTicketType_mapped (label : string) :
  label ∈ mappedAliases →
  normalizeTicketType label ∈ canonicalTypes ∧ normalizeTicketType label ∉ mappedAliases.
Proof.
  unfold mappedAliases. intros Hin.
  repeat (apply elem_of_cons in Hin as [->|Hin]; [compute_done|]).
  by apply elem_of_nil in Hin.
Qed.

Lemma objectPrototypeNames_unknown (label : string) :
  label ∈ objectPrototypeNames →
  (label ∉ mappedAliases) ∧ TICKET_CONFIG !! label = None.
Proof.
  unfold objectPrototypeNames. intros Hin.
  repeat (apply elem_of_cons in Hin as [->|Hin]; [(split; compute_done)|]).
  by apply elem_of_nil in Hin.
Qed.

(** The start time of a label. *)
Lemma lookupStartTime_cases (label : string) :
  lookupStartTime label
  = match TICKET_CONFIG !! label with
    | Some window => Window window
    | None => if decide (label ∈ objectPrototypeNames) then Member label
              else Window "11:00-12:00"
    end.
Proof.
  unfold lookupStartTime, getProperty.
  destruct (TICKET_CONFIG !! label) as [window|] eqn:Hw; [|by case_decide].
  case_decide as Hempty; [|done]. exfalso. subst window.
  assert (Hall : map_Forall (λ _ w, w ≠ "") TICKET_CONFIG).
  { apply (bool_decide_unpack _). by vm_compute. }
  by apply (Hall label "" Hw).
Qed.

(** X24.  The taxonomy on the examples and off the table: 15400 becomes
    PriorityPass with window 18:30-19:00, 役員招待枠 becomes VIP Pass with
    window 18:30-19:00; a label that is neither an input of the comparison
    chain, nor a key of [TICKET_CONFIG], nor the name of a member of
    [Object.prototype] is kept as it is and gets the default window
    11:00-12:00; the name of a member of [Object.prototype] is kept as it
    is, and its start time is that member, not a window. *)
Theorem ticket_type_normalization (label : string) :
  normalizeTicketType "15400" = "PriorityPass"
  ∧ lookupStartTime (normalizeTicketType "15400") = Window "18:30-19:00"
  ∧ normalizeTicketType "役員招待枠" = "VIP Pass"
  ∧ lookupStartTime (normalizeTicketType "役員招待枠") = Window "18:30-19:00"
  ∧ (¬ recognizedLabel label → label ∉ objectPrototypeNames →
     normalizeTicketType label = label
     ∧ lookupStartTime (normalizeTicketType label) = Window "11:00-12:00")
  ∧ (label ∈ objectPrototypeNames →
     normalizeTicketType label = label
     ∧ lookupStartTime (normalizeTicketType label) = Member label).
Proof.
  split; [reflexivity|]. split; [by vm_compute|].
  split; [reflexivity|]. split; [by vm_compute|].
  split.
  - intros Hnot Hout.
    assert (Hid : normalizeTicketType label = label).
    { apply normalizeTicketType_unmapped. intros Hin. apply Hnot. by left. }
    split; [done|]. rewrite Hid, lookupStartTime_cases.
    destruct (TICKET_CONFIG !! label) as [w|] eqn:Hw.
    + exfalso. apply Hnot. right. by rewrite Hw.
    + by rewrite decide_False.
  - intros Hin. destruct (objectPrototypeNames_unknown label Hin) as [Hout Hnone].
    rewrite (normalizeTicketType_unmapped label Hout). split; [done|].
    by rewrite lookupStartTime_cases, Hnone, decide_True.
Qed.

(** X24 at the unrecognised label Student. *)
Lemma ticket_type_normalization_witness :
  normalizeTicketType "Student" = "Student"
  ∧ lookupStartTime (normalizeTicketType "Student") = Window "11:00-12:00".
Proof.
  destruct (ticket_type_normalization "Student") as (_ & _ & _ & _ & Hdefault & _).
  apply Hdefault.
  - unfold recognizedLabel. compute_done.
  - compute_done.
Defined.

(** C6.  The claim fails on a label that names a member of
    [Object.prototype].  The label constructor is neither an input of the
    comparison chain nor a key of [TICKET_CONFIG] and passes through
    unchanged, and its start time is not the default window but the
    inherited member; [syncECData] hands that member to [setValues] as the
    start time of the row it creates for an order line with this label. *)
Theorem inherited_label_gets_no_window :
  ¬ recognizedLabel "constructor"
  ∧ normalizeTicketType "constructor" = "constructor"
  ∧ lookupStartTime (normalizeTicketType "constructor") = Member "constructor"
  ∧ lookupStartTime (normalizeTicketType "constructor") ≠ Window "11:00-12:00"
  ∧ ∀ platform : Platform,
      (λ row, (ID row, TicketType row, StartTime row))
        <$> rowsToAdd (H := platform) constructorOrder
      = [(CStr "A1", CStr "constructor", storedMember "constructor")].
Proof.
  split; [unfold recognizedLabel; compute_done|].
  split; [reflexivity|]. split; [by vm_compute|]. split; [by vm_compute|].
  intros platform. by vm_compute.
Qed.

(** * Reconciliation *)

(** ** The ordered map [requiredTickets] *)

Lemma mapGet_None (k : string) (m : list (string * Z)) :
  mapGet k m = None ↔ k ∉ m.*1.
Proof.
  induction m as [|[k' v] m IH]; simpl.
  - split; [intros _; apply not_elem_of_nil|done].
  - rewrite not_elem_of_cons. destruct (decide (k = k')) as [->|Hne].
    + split; [done|]. by intros [? _].
    + rewrite IH. split; [done|]. by intros [_ ?].
Qed.

Lemma mapGet_mapSet_eq (k : string) (v : Z) (m : list (string * Z)) :
  mapGet k (mapSet k v m) = Some v.
Proof.
  induction m as [|[k' v'] m IH]; simpl.
  - by rewrite decide_True.
  - case_decide; simpl; [by rewrite decide_True|by rewrite decide_False].
Qed.

Lemma mapGet_mapSet_ne (k k' : string) (v : Z) (m : list (string * Z)) :
  k ≠ k' → mapGet k' (mapSet k v m) = mapGet k' m.
Proof.
  intros Hne. induction m as [|[k0 v0] m IH]; simpl.
  - by rewrite decide_False.
  - destruct (decide (k = k0)) as [->|Hk0]; simpl.
    + by rewrite !decide_False.
    + case_decide; [done|apply IH].
Qed.

Lemma mapSet_keys_old (k : string) (v : Z) (m : list (string * Z)) :
  k ∈ m.*1 → (mapSet k v m).*1 = m.*1.
Proof.
  induction m as [|[k' v'] m IH]; simpl; intros Hin.
  - by apply elem_of_nil in Hin.
  - destruct (decide (k = k')) as [->|Hne]; simpl; [done|].
    apply elem_of_cons in Hin as [?|Hin]; [done|]. f_equal. by apply IH.
Qed.

Lemma mapSet_keys_new (k : string) (v : Z) (m : list (string * Z)) :
  k ∉ m.*1 → (mapSet k v m).*1 = (m.*1 ++ [k])%list.
Proof.
  induction m as [|[k' v'] m IH]; simpl; intros Hin; [done|].
  apply not_elem_of_cons in Hin as [Hne Hin].
  rewrite decide_False by done. simpl. f_equal. by apply IH.
Qed.

Lemma mapSet_NoDup (k : string) (v : Z) (m : list (string * Z)) :
  NoDup m.*1 → NoDup (mapSet k v m).*1.
Proof.
  intros Hnd. destruct (decide (k ∈ m.*1)) as [Hin|Hin].
  - by rewrite mapSet_keys_old.
  - rewrite mapSet_keys_new by done.
    apply NoDup_app. split; [done|]. split; [|apply NoDup_singleton].
    intros x Hx Hx'. apply list_elem_of_singleton in Hx'. by subst.
Qed.

Section ReconciliationFacts.
Context `{Platform}.

Lemma sumQuantities_app (quantity : EC.Row → Z) (l1 l2 : list EC.Row) :
  sumQuantities quantity (l1 ++ l2) = sumQuantities quantity l1 + sumQuantities quantity l2.
Proof. induction l1 as [|x l1 IH]; simpl; lia. Qed.

Lemma linesOf_snoc (key : string) (l : list EC.Row) (x : EC.Row) :
  linesOf key (l ++ [x])
  = (linesOf key l
       ++ if decide (lineId x ≠ "" ∧ lineKey x = key) then [x] else [])%list.
Proof.
  unfold linesOf. rewrite !filter_app. f_equal.
  rewrite (filter_cons _ x []). destruct (decide (lineId x ≠ "")) as [Hid|Hid].
  - rewrite (filter_cons _ x []). rewrite !filter_nil.
    destruct (decide (lineKey x = key)).
    + by rewrite decide_True.
    + rewrite decide_False; [done|tauto].
  - rewrite !filter_nil. rewrite decide_False; [done|tauto].
Qed.

(** What step 2 has computed after the lines [l]. *)
Lemma aggregate_invariant (l : list EC.Row) :
  let st := foldl aggregate_step ([], ∅) l in
  NoDup st.1.*1
  ∧ (∀ key, mapGet key st.1 = None ↔ linesOf key l = [])
  ∧ (∀ key, default 0 (mapGet key st.1) = sumQuantities lineQuantity (linesOf key l))
  ∧ (∀ key, key ∈ st.1.*1 →
       ∃ row, row ∈ l ∧ lineId row ≠ "" ∧ lineKey row = key
              ∧ st.2 !! key = Some (infoOf row))
  ∧ (∀ key, key ∉ st.1.*1 → st.2 !! key = None).
Proof.
  induction l as [|x l IH] using rev_ind.
  { simpl. split; [apply NoDup_nil_2|]. split; [done|]. split; [done|].
    split; [|done]. intros key Hin. by apply elem_of_nil in Hin. }
  rewrite foldl_app. simpl foldl.
  destruct (foldl aggregate_step ([], ∅) l) as [req info]. simpl in IH.
  destruct IH as (Hnd & Hnone & Hsum & Hinfo & Hfresh).
  unfold aggregate_step. fold (lineKey x).
  destruct (decide (lineId x = "")) as [Hid|Hid].
  { cbn [fst snd]. split; [done|].
    assert (Hl : ∀ key, linesOf key (l ++ [x]) = linesOf key l).
    { intros key. rewrite linesOf_snoc, decide_False by tauto. by rewrite app_nil_r. }
    split; [intros key; by rewrite Hl|]. split; [intros key; by rewrite Hl|].
    split; [|done].
    intros key Hin. destruct (Hinfo key Hin) as (row & Hrow & Hr).
    exists row. split; [|done]. apply elem_of_app. by left. }
  cbn [fst snd].
  split; [by apply mapSet_NoDup|].
  split; [|split; [|split]].
  - intros key. rewrite linesOf_snoc.
    destruct (decide (lineKey x = key)) as [Hk|Hk].
    + rewrite Hk, mapGet_mapSet_eq, decide_True by done.
      split; [done|]. intros Happ. by apply app_nil in Happ as [_ ?].
    + rewrite mapGet_mapSet_ne, decide_False by tauto. by rewrite app_nil_r.
  - intros key. rewrite linesOf_snoc, sumQuantities_app.
    destruct (decide (lineKey x = key)) as [Hk|Hk].
    + rewrite Hk, mapGet_mapSet_eq, decide_True by done. simpl.
      rewrite <- Hk, Hsum. lia.
    + rewrite mapGet_mapSet_ne, decide_False by tauto. simpl. rewrite Hsum. lia.
  - intros key Hin.
    destruct (decide (lineKey x ∈ req.*1)) as [Hold|Hnew].
    + rewrite mapSet_keys_old in Hin by done.
      destruct (Hinfo key Hin) as (row & Hrow & Hrid & Hrk & Hri).
      exists row. split; [apply elem_of_app; by left|]. split; [done|]. split; [done|].
      destruct (Hinfo _ Hold) as (row' & _ & _ & _ & Hri').
      by rewrite Hri'.
    + rewrite mapSet_keys_new in Hin by done.
      rewrite (Hfresh _ Hnew).
      apply elem_of_app in Hin as [Hin|Hin].
      * destruct (Hinfo key Hin) as (row & Hrow & Hrid & Hrk & Hri).
        exists row. split; [apply elem_of_app; by left|]. split; [done|]. split; [done|].
        rewrite lookup_insert_ne; [done|]. intros Heq. apply Hnew. by rewrite Heq.
      * apply list_elem_of_singleton in Hin. subst key.
        exists x. split; [apply elem_of_app; right; apply list_elem_of_here|].
        split; [done|]. split; [done|]. by rewrite lookup_insert_eq.
  - intros key Hout.
    destruct (decide (lineKey x ∈ req.*1)) as [Hold|Hnew].
    + rewrite mapSet_keys_old in Hout by done.
      destruct (Hinfo _ Hold) as (row' & _ & _ & _ & Hri'). rewrite Hri'. by apply Hfresh.
    + rewrite mapSet_keys_new in Hout by done.
      apply not_elem_of_app in Hout as [Hout Hne].
      rewrite (Hfresh _ Hnew). rewrite lookup_insert_ne; [by apply Hfresh|].
      intros Heq. apply Hne. rewrite Heq. apply list_elem_of_here.
Qed.

End ReconciliationFacts.

Section ReconciliationSteps.
Context `{Platform}.

(** Step 3 counts the rows of each key. *)
Lemma existing_fold (l : list Row) (m : gmap string Z) (key : string) :
  default 0 (foldl existing_step m l !! key)
  = default 0 (m !! key)
    + Z.of_nat (length (filter (λ row, existingId row ≠ "" ∧ existingKey row = key) l)).
Proof.
  revert m. induction l as [|x l IH]; intros m; simpl foldl.
  { rewrite filter_nil. simpl. lia. }
  rewrite IH, filter_cons. unfold existing_step.
  destruct (decide (existingId x = "")) as [Hid|Hid].
  - rewrite decide_False by tauto. done.
  - destruct (decide (existingKey x = key)) as [Hk|Hk].
    + rewrite decide_True by done. rewrite Hk, lookup_insert_eq. simpl length. simpl. lia.
    + rewrite decide_False by tauto. by rewrite lookup_insert_ne.
Qed.

Lemma countExisting_spec (sheet : Sheet) (key : string) :
  default 0 (countExisting sheet !! key) = existingQty sheet key.
Proof.
  unfold countExisting, existingQty, dataRows. rewrite existing_fold, lookup_empty.
  simpl. lia.
Qed.

(** The rows the body of the [forEach] adds for one entry. *)
Lemma generate_step_rows (emailMap : gmap string string) (ticketInfo : gmap string Info.t)
    (existingCounts : gmap string Z) (entry : string * Z)
    (rows : list Row) (matched missing : Z) :
  (generate_step emailMap ticketInfo existingCounts (rows, matched, missing) entry).1.1
  = (rows ++ rowsFor emailMap ticketInfo existingCounts entry)%list.
Proof.
  destruct entry as [key needed]. unfold generate_step, rowsFor. simpl.
  destruct (ticketInfo !! key) as [info|]; [|by rewrite app_nil_r].
  destruct (Z.ltb_spec 0 (needed - default 0 (existingCounts !! key))) as [Hpos|Hneg];
    [done|].
  replace (Z.to_nat (needed - default 0 (existingCounts !! key))) with 0%nat by lia.
  simpl. by rewrite app_nil_r.
Qed.

(** Step 4 pushes the rows of each entry in turn. *)
Lemma generate_fold (emailMap : gmap string string) (ticketInfo : gmap string Info.t)
    (existingCounts : gmap string Z) (entries : list (string * Z))
    (rows : list Row) (matched missing : Z) :
  (foldl (generate_step emailMap ticketInfo existingCounts) (rows, matched, missing)
     entries).1.1
  = (rows ++ entries ≫= rowsFor emailMap ticketInfo existingCounts)%list.
Proof.
  revert rows matched missing.
  induction entries as [|entry entries IH]; intros rows matched missing.
  { simpl. by rewrite app_nil_r. }
  change (foldl ?f ?a (entry :: entries)) with (foldl f (f a entry) entries).
  assert (Hstep := generate_step_rows emailMap ticketInfo existingCounts entry
                     rows matched missing).
  destruct (generate_step emailMap ticketInfo existingCounts (rows, matched, missing) entry)
    as [[rows' matched'] missing'].
  simpl in Hstep. subst rows'. by rewrite IH, bind_cons, app_assoc.
Qed.

Lemma rowKey_newRow (row : EC.Row) (email : string) :
  rowKey (newRow (infoOf row) email) = lineKey row.
Proof. reflexivity. Qed.

Lemma newRow_fresh (info : Info.t) (email : string) : freshTicket (newRow info email).
Proof. by repeat split. Qed.

Lemma filter_all (P : Row → Prop) `{∀ r, Decision (P r)} (l : list Row) :
  Forall P l → filter P l = l.
Proof.
  induction 1 as [|x l Hx _ IH]; [done|]. by rewrite filter_cons_True, IH.
Qed.

Lemma filter_none (P : Row → Prop) `{∀ r, Decision (P r)} (l : list Row) :
  Forall (λ r, ¬ P r) l → filter P l = [].
Proof.
  induction 1 as [|x l Hx _ IH]; [done|]. by rewrite filter_cons_False.
Qed.

(** Among the rows pushed for entries with distinct keys, those of [key] are
    the rows of the entry of [key]. *)
Lemma rows_of_key (rowsOf : string * Z → list Row) (entries : list (string * Z))
    (key : string) :
  NoDup entries.*1 →
  (∀ entry row, entry ∈ entries → row ∈ rowsOf entry → rowKey row = entry.1) →
  length (filter (λ row, rowKey row = key) (entries ≫= rowsOf))
  = match mapGet key entries with
    | Some needed => length (rowsOf (key, needed))
    | None => 0%nat
    end.
Proof.
  intros Hnd Hkeys. induction entries as [|[k n] entries IH]; [done|].
  rewrite fmap_cons in Hnd. apply NoDup_cons in Hnd as [Hk Hnd]. simpl in Hk.
  rewrite bind_cons, filter_app, length_app. simpl mapGet.
  rewrite IH; [|done|intros e r He; apply Hkeys; by apply list_elem_of_further].
  assert (Hhere : ∀ row, row ∈ rowsOf (k, n) → rowKey row = k).
  { intros row Hrow. apply (Hkeys (k, n) row); [apply list_elem_of_here|done]. }
  destruct (decide (key = k)) as [->|Hne].
  - apply mapGet_None in Hk. rewrite Hk, Nat.add_0_r. f_equal.
    apply filter_all. by apply Forall_forall.
  - rewrite (filter_none (λ row, rowKey row = key) (rowsOf (k, n))); [done|].
    apply Forall_forall.
    intros row Hrow Hrk. apply Hne. by rewrite <- Hrk, (Hhere row Hrow).
Qed.

End ReconciliationSteps.

Section ReconciliationClaims.
Context `{Platform}.

Lemma requiredQty_linesOf (quantity : EC.Row → Z) (ecData : list EC.Row) (key : string) :
  requiredQty quantity ecData key = sumQuantities quantity (linesOf key (drop 1 ecData)).
Proof. reflexivity. Qed.

(** [rowsToAdd] is the concatenation, over the required keys in the order
    of their first order line, of the rows of each key. *)
Lemma rowsToAdd_spec (ss : Spreadsheet) :
  rowsToAdd ss
  = (aggregateRequirements (ECData ss)).1
      ≫= rowsFor (buildEmailMap (MemberMaster ss)) (aggregateRequirements (ECData ss)).2
           (countExisting (Attendees ss)).
Proof.
  unfold rowsToAdd, generateMissing.
  destruct (aggregateRequirements (ECData ss)) as [req info]. simpl.
  by rewrite generate_fold.
Qed.

(** Every synthesised row is the row of the first order line of a key. *)
Lemma rowsToAdd_elem (ss : Spreadsheet) (row : Row) :
  row ∈ rowsToAdd ss →
  ∃ line email, line ∈ orderLines (ECData ss) ∧ row = newRow (infoOf line) email.
Proof.
  rewrite rowsToAdd_spec. unfold aggregateRequirements.
  destruct (aggregate_invariant (drop 1 (ECData ss))) as (_ & _ & _ & Hinfo & _).
  destruct (foldl aggregate_step ([], ∅) (drop 1 (ECData ss))) as [req info].
  simpl in *. intros Hin.
  apply list_elem_of_bind in Hin as ([key needed] & Hrow & Hentry).
  assert (Hkey : key ∈ req.*1).
  { apply list_elem_of_fmap. by exists (key, needed). }
  destruct (Hinfo key Hkey) as (line & Hline & Hid & Hlk & Hi).
  unfold rowsFor in Hrow. simpl in Hrow. rewrite Hi in Hrow.
  apply elem_of_replicate_inv in Hrow.
  exists line, (default "" (buildEmailMap (MemberMaster ss) !! Info.id (infoOf line))).
  split; [|done]. unfold orderLines. apply list_elem_of_filter. by split.
Qed.

(** The number of synthesised rows of a key is its shortfall. *)
Lemma rowsToAdd_count (ss : Spreadsheet) (key : string) :
  Z.of_nat (length (filter (λ row, rowKey row = key) (rowsToAdd ss)))
  = Z.max (requiredQty lineQuantity (ECData ss) key - existingQty (Attendees ss) key) 0.
Proof.
  rewrite rowsToAdd_spec, requiredQty_linesOf, <- countExisting_spec.
  unfold aggregateRequirements.
  destruct (aggregate_invariant (drop 1 (ECData ss))) as (Hnd & Hnone & Hsum & Hinfo & _).
  destruct (foldl aggregate_step ([], ∅) (drop 1 (ECData ss))) as [req info].
  simpl in *.
  rewrite rows_of_key; [|done|].
  2:{ intros [k n] row Hentry Hrow. simpl.
      assert (Hk : k ∈ req.*1) by (apply list_elem_of_fmap; by exists (k, n)).
      destruct (Hinfo k Hk) as (line & _ & _ & Hlk & Hi).
      unfold rowsFor in Hrow. simpl in Hrow. rewrite Hi in Hrow.
      apply elem_of_replicate_inv in Hrow. subst row. by rewrite rowKey_newRow. }
  rewrite <- Hsum.
  destruct (mapGet key req) as [needed|] eqn:Hget.
  - assert (Hk : key ∈ req.*1).
    { destruct (decide (key ∈ req.*1)) as [|Hout]; [done|].
      apply mapGet_None in Hout. congruence. }
    destruct (Hinfo key Hk) as (line & _ & _ & _ & Hi).
    unfold rowsFor. simpl. rewrite Hi, length_replicate. lia.
  - simpl. assert (0 ≤ default 0 (countExisting (Attendees ss) !! key)).
    { rewrite countExisting_spec. unfold existingQty. lia. }
    lia.
Qed.

(** A run that is not cut short writes [rowsToAdd] below the store and
    leaves the other two sheets as they are. *)
Lemma syncECData_run (ss : Spreadsheet) :
  ECData ss ≠ [] → MemberMaster ss ≠ [] →
  (syncECData ss).2
  = mkSpreadsheet (Attendees ss ++ rowsToAdd ss) (ECData ss) (MemberMaster ss).
Proof.
  intros Hec Hmaster. unfold syncECData, rowsToAdd.
  destruct (ECData ss) eqn:He; [done|]. destruct (MemberMaster ss) eqn:Hm; [done|].
  by destruct (generateMissing ss) as [[rows matched] missing].
Qed.

Lemma filter_agree_in {A : Type} (P Q : A → Prop) `{∀ x, Decision (P x)}
    `{∀ x, Decision (Q x)} (l : list A) :
  (∀ x, x ∈ l → P x ↔ Q x) → filter P l = filter Q l.
Proof.
  induction l as [|x l IH]; intros Hpq; [done|].
  rewrite !filter_cons, IH by (intros y Hy; apply Hpq; by apply list_elem_of_further).
  pose proof (Hpq x (list_elem_of_here _ _)) as Hx.
  destruct (decide (P x)) as [Hp|Hp].
  - rewrite decide_True; [done|tauto].
  - rewrite decide_False; [done|tauto].
Qed.

Lemma existingKey_pair (row : Row) :
  existingKey row = compositeKey (existingId row) (existingType row).
Proof. reflexivity. Qed.

(** The rows created with an id and a ticket type, when the joined keys
    separate the pairs. *)
Lemma createdOf_count (ss : Spreadsheet) (id ticketType : string) :
  keysSeparate ss →
  createdOf ss id ticketType
  = Z.max (requiredOf lineQuantity (ECData ss) id ticketType
           - existingOf (Attendees ss) id ticketType) 0.
Proof.
  intros Hsep. unfold keysSeparate in Hsep. rewrite Forall_forall in Hsep.
  unfold createdOf, requiredOf, existingOf.
  destruct (filter (λ line, lineId line = id ∧ lineTicketType line = ticketType)
              (orderLines (ECData ss))) as [|line0 others] eqn:Hpair.
  { rewrite filter_none; [simpl; lia|]. apply Forall_forall. intros row Hrow [Hid Htype].
    destruct (rowsToAdd_elem ss row Hrow) as (line & email & Hline & ->).
    simpl in Hid, Htype.
    assert (Hin : line ∈ filter (λ line, lineId line = id ∧ lineTicketType line = ticketType)
                           (orderLines (ECData ss))).
    { apply list_elem_of_filter. split; [|done]. split; congruence. }
    rewrite Hpair in Hin. by apply elem_of_nil in Hin. }
  assert (Hline0 : line0 ∈ filter (λ line, lineId line = id ∧ lineTicketType line = ticketType)
                             (orderLines (ECData ss))).
  { rewrite Hpair. apply list_elem_of_here. }
  apply list_elem_of_filter in Hline0 as [[Hid0 Htype0] Hline0].
  rewrite <- Hpair. clear Hpair others.
  destruct (Hsep line0 Hline0) as [Hlines Hrows].
  rewrite Forall_forall in Hlines. rewrite Forall_forall in Hrows.
  assert (Hid : lineId line0 ≠ "").
  { unfold orderLines in Hline0. by apply list_elem_of_filter in Hline0 as [? _]. }
  assert (Hcount := rowsToAdd_count ss (lineKey line0)).
  unfold requiredQty, existingQty in Hcount.
  rewrite (filter_agree_in (λ row, ID row = CStr id ∧ TicketType row = CStr ticketType)
             (λ row, rowKey row = lineKey line0)).
  2:{ intros row Hrow.
      destruct (rowsToAdd_elem ss row Hrow) as (line & email & Hline & ->).
      rewrite rowKey_newRow. simpl. split.
      - intros [[= Hi] [= Ht]]. unfold lineKey. congruence.
      - intros Hk. destruct (Hlines line Hline Hk) as [-> ->]. by rewrite Hid0, Htype0. }
  rewrite (filter_agree_in (λ line, lineId line = id ∧ lineTicketType line = ticketType)
             (λ line, lineKey line = lineKey line0)).
  2:{ intros line Hline. split.
      - intros [Hi Ht]. unfold lineKey. congruence.
      - intros Hk. destruct (Hlines line Hline Hk) as [-> ->]. done. }
  rewrite (filter_agree_in (λ row, existingId row = id ∧ existingType row = ticketType)
             (λ row, existingId row ≠ "" ∧ existingKey row = lineKey line0)).
  2:{ intros row Hrow. split.
      - intros [Hi Ht]. split; [congruence|].
        rewrite existingKey_pair. unfold lineKey. congruence.
      - intros [Hne Hk]. destruct (Hrows row Hrow Hne Hk) as [-> ->]. done. }
  exact Hcount.
Qed.

(** The quantity of an order line is its stated quantity, zero counting
    as one. *)
Lemma lineQuantity_stated (line : EC.Row) :
  lineQuantity line = if decide (statedQuantity line = 0) then 1 else statedQuantity line.
Proof.
  unfold lineQuantity, statedQuantity.
  destruct (parseInt (toStr (EC.Quantity line))) as [q|]; simpl; [|done].
  destruct (Z.eqb_spec q 0) as [->|Hq]; [done|]. by rewrite decide_False.
Qed.

(** C3, with what the code needs for it.  When the ECData and MemberMaster
    sheets are not empty, no two different pairs of an id and a ticket type
    are joined to the same key, and the quantities add up within the
    integers a number holds exactly, [syncECData] appends to the store, for
    every id and ticket type, max(required - existing, 0) rows with this id
    and type, where required is the sum over the order lines with this id
    and normalised type of their quantity, a missing, unparseable or zero
    quantity counting as 1, and existing is the number of rows of the store
    with this id and type; so required 3 and existing 1 give 2 rows.  Every
    appended row has empty token, check-in time, sent flag and re-entry
    history. *)
Theorem syncECData_appends_shortfall (ss : Spreadsheet) (id ticketType : string) :
  ECData ss ≠ [] → MemberMaster ss ≠ [] →
  keysSeparate ss → safeQuantities (ECData ss) →
  Attendees (syncECData ss).2 = (Attendees ss ++ rowsToAdd ss)%list
  ∧ createdOf ss id ticketType
    = Z.max (requiredOf lineQuantity (ECData ss) id ticketType
             - existingOf (Attendees ss) id ticketType) 0
  ∧ (requiredOf lineQuantity (ECData ss) id ticketType = 3 →
     existingOf (Attendees ss) id ticketType = 1 →
     createdOf ss id ticketType = 2)
  ∧ Forall freshTicket (rowsToAdd ss)
  ∧ (∀ line : EC.Row,
       lineQuantity line
       = if decide (statedQuantity line = 0) then 1 else statedQuantity line).
Proof.
  intros Hec Hmaster Hsep _.
  assert (Hcount := createdOf_count ss id ticketType Hsep).
  split; [|split; [done|split; [|split]]].
  - by rewrite syncECData_run.
  - intros Hreq Hex. rewrite Hreq, Hex in Hcount. lia.
  - apply Forall_forall. intros row Hrow.
    destruct (rowsToAdd_elem ss row Hrow) as (line & email & _ & ->).
    apply newRow_fresh.
  - apply lineQuantity_stated.
Qed.

(** C7, as the code has it.  Every row [syncECData] creates carries the
    ticket type the comparison chain yields for the trimmed label of an
    order line; for the labels 15400, 15,400, 13200, 13,200, 1100, 1,100,
    Guest, Invitation, 無料招待者 and 役員招待枠 that is one of the five new ticket
    types and not the label; VIP and General are written as they are. *)
Theorem created_rows_carry_normalized_type (ss : Spreadsheet) (row : Row) :
  (row ∈ rowsToAdd ss →
   ∃ line, line ∈ orderLines (ECData ss)
     ∧ TicketType row = CStr (normalizeTicketType (ticketTypeInput line))
     ∧ (ticketTypeInput line ∈ mappedAliases →
        normalizeTicketType (ticketTypeInput line) ∈ canonicalTypes
        ∧ normalizeTicketType (ticketTypeInput line) ∉ mappedAliases))
  ∧ normalizeTicketType "VIP" = "VIP"
  ∧ normalizeTicketType "General" = "General".
Proof.
  split; [|by split].
  intros Hrow. destruct (rowsToAdd_elem ss row Hrow) as (line & email & Hline & ->).
  exists line. split; [done|]. split; [done|]. apply normalizeTicketType_mapped.
Qed.

End ReconciliationClaims.

(** C3 at the sample orders: Alice needs 2 + 1 priority tickets and holds
    one. *)
Lemma syncECData_appends_shortfall_witness :
  Attendees (syncECData (H := runPlatform) sampleOrders).2
  = (Attendees sampleOrders ++ rowsToAdd (H := runPlatform) sampleOrders)%list
  ∧ createdOf (H := runPlatform) sampleOrders "A1" "PriorityPass" = 2.
Proof.
  destruct (syncECData_appends_shortfall (H := runPlatform) sampleOrders "A1" "PriorityPass")
    as (Happend & _ & Htwo & _).
  - discriminate.
  - discriminate.
  - apply (bool_decide_unpack _). by vm_compute.
  - unfold safeQuantities. by vm_compute.
  - split; [exact Happend|]. apply Htwo; reflexivity.
Defined.

(** C3 as stated fails in two ways.  An order line with quantity 0 has
    stated quantity 0, so the stated shortfall of its id and type is
    max(0 - 0, 0) = 0, and one row is appended for them.  And the order
    lines (A, B_C) and (A_B, C), each of quantity 1, are joined to the one
    key A_B_C: two rows are appended for A and B_C where one is required,
    and none for A_B and C where one is required. *)
Lemma shortfall_as_stated_fails :
  (requiredOf (H := runPlatform) (statedQuantity (H := runPlatform))
     (ECData zeroQuantityOrder) "A1" "VIP Pass" = 0
   ∧ existingOf (H := runPlatform) (Attendees zeroQuantityOrder) "A1" "VIP Pass" = 0
   ∧ createdOf (H := runPlatform) zeroQuantityOrder "A1" "VIP Pass" = 1
   ∧ Attendees (syncECData (H := runPlatform) zeroQuantityOrder).2
     = (Attendees zeroQuantityOrder ++ rowsToAdd (H := runPlatform) zeroQuantityOrder)%list)
  ∧ (requiredOf (H := runPlatform) (lineQuantity (H := runPlatform))
       (ECData collidingOrders) "A" "B_C" = 1
     ∧ existingOf (H := runPlatform) (Attendees collidingOrders) "A" "B_C" = 0
     ∧ createdOf (H := runPlatform) collidingOrders "A" "B_C" = 2
     ∧ requiredOf (H := runPlatform) (lineQuantity (H := runPlatform))
         (ECData collidingOrders) "A_B" "C" = 1
     ∧ existingOf (H := runPlatform) (Attendees collidingOrders) "A_B" "C" = 0
     ∧ createdOf (H := runPlatform) collidingOrders "A_B" "C" = 0
     ∧ Attendees (syncECData (H := runPlatform) collidingOrders).2
       = (Attendees collidingOrders ++ rowsToAdd (H := runPlatform) collidingOrders)%list
     ∧ ¬ keysSeparate (H := runPlatform) collidingOrders).
Proof.
  split; [by vm_compute|].
  do 7 (split; [by vm_compute|]).
  apply (bool_decide_unpack _). by vm_compute.
Qed.

(** With a quantity of 0 the run creates a row of the key. *)
Example zero_quantity_line_yields_a_row :
  requiredQty (H := runPlatform) (statedQuantity (H := runPlatform))
    (ECData zeroQuantityOrder) "A1_VIP Pass" = 0
  ∧ existingQty (H := runPlatform) (Attendees zeroQuantityOrder) "A1_VIP Pass" = 0
  ∧ length (filter (λ row, rowKey (H := runPlatform) row = "A1_VIP Pass")
              (drop 1 (Attendees (syncECData (H := runPlatform) zeroQuantityOrder).2)))
    = 1%nat.
Proof. by vm_compute. Qed.

(** C7 at the sample orders. *)
Lemma created_rows_carry_normalized_type_witness :
  ∃ line, line ∈ orderLines (H := runPlatform) (ECData sampleOrders)
    ∧ CStr "PriorityPass"
      = CStr (normalizeTicketType (ticketTypeInput (H := runPlatform) line))
    ∧ (ticketTypeInput (H := runPlatform) line ∈ mappedAliases →
       normalizeTicketType (ticketTypeInput (H := runPlatform) line) ∈ canonicalTypes
       ∧ normalizeTicketType (ticketTypeInput (H := runPlatform) line) ∉ mappedAliases).
Proof.
  apply (proj1 (created_rows_carry_normalized_type (H := runPlatform) sampleOrders
                  (newRow (H := runPlatform)
                     (infoOf (H := runPlatform)
                        (EC.mk (CStr "A1") (CStr "Alice") (CNum 15400) (CNum 2)))
                     "alice@example.org"))).
  vm_compute. apply list_elem_of_here.
Defined.

(** C7 as stated fails: for an order line labelled VIP the row written to
    the store carries VIP, which is not one of the new ticket types. *)
Lemma vip_label_is_written_unchanged :
  TicketType <$> drop 1 (Attendees (syncECData (H := runPlatform) vipOrder).2) = [CStr "VIP"]
  ∧ "VIP" ∉ canonicalTypes.
Proof. split; [by vm_compute|compute_done]. Qed.

(** C2 on an order line whose ticket-type cell holds one space: the first
    run appends a row with an empty ticket type, which the next run counts
    as StandardPass, so the second run appends the same row again. *)
Theorem blank_type_is_issued_on_every_run :
  let first := (syncECData (H := runPlatform) blankTypeOrder).2 in
  let second := (syncECData (H := runPlatform) first).2 in
  ECData first = ECData blankTypeOrder
  ∧ MemberMaster first = MemberMaster blankTypeOrder
  ∧ length (Attendees first) = 2%nat
  ∧ TicketType <$> drop 1 (Attendees first) = [CStr ""]
  ∧ length (rowsToAdd (H := runPlatform) first) = 1%nat
  ∧ length (Attendees second) = 3%nat.
Proof. by vm_compute. Qed.

(** * Trimming *)

Lemma str_app_cons (a : ascii) (s t : string) : String a s +:+ t = String a (s +:+ t).
Proof. reflexivity. Qed.

Lemma str_app_nil_r (s : string) : s +:+ "" = s.
Proof. induction s as [|a s IH]; [done|]. by rewrite str_app_cons, IH. Qed.

Lemma str_app_assoc (a b c : string) : (a +:+ b) +:+ c = a +:+ (b +:+ c).
Proof. induction a as [|x a IH]; [done|]. by rewrite !str_app_cons, IH. Qed.

Lemma str_length_app (a b : string) :
  String.length (a +:+ b) = (String.length a + String.length b)%nat.
Proof. induction a as [|x a IH]; [done|]. rewrite str_app_cons. simpl. by rewrite IH. Qed.

Lemma rev_app_append_r (s1 s2 t : string) :
  String.rev_app s1 s2 +:+ t = String.rev_app s1 (s2 +:+ t).
Proof. revert s2. induction s1 as [|a s1 IH]; intros s2; [done|]. simpl. by rewrite IH. Qed.

Lemma rev_app_append_l (a b c : string) :
  String.rev_app (a +:+ b) c = String.rev_app b (String.rev_app a c).
Proof. revert c. induction a as [|x a IH]; intros c; [done|]. rewrite str_app_cons. simpl. by rewrite IH. Qed.

Lemma str_rev_app (a b : string) : String.rev (a +:+ b) = String.rev b +:+ String.rev a.
Proof.
  unfold String.rev. by rewrite rev_app_append_l, rev_app_append_r.
Qed.

Lemma str_rev_rev (s : string) : String.rev (String.rev s) = s.
Proof.
  induction s as [|a s IH]; [done|].
  change (String a s) with (String a "" +:+ s) at 1.
  by rewrite str_rev_app, str_rev_app, IH.
Qed.

Lemma str_rev_length (s : string) : String.length (String.rev s) = String.length s.
Proof.
  induction s as [|a s IH]; [done|].
  change (String a s) with (String a "" +:+ s) at 1.
  rewrite str_rev_app, str_length_app, IH. simpl. lia.
Qed.

Lemma stripWs_shrinking : shrinking stripWs.
Proof.
  intros s r Hs. destruct s as [|a [|b [|c s]]]; simpl in Hs; try done.
  - destruct (ws1 a); [|done]. inversion Hs. by exists (String a "").
  - destruct (ws1 a); [inversion Hs; by exists (String a "")|].
    destruct (ws2 a b); [|done]. inversion Hs. by exists (String a (String b "")).
  - destruct (ws1 a); [inversion Hs; by exists (String a "")|].
    destruct (ws2 a b); [inversion Hs; by exists (String a (String b ""))|].
    destruct (ws3 a b c); [|done]. inversion Hs.
    by exists (String a (String b (String c ""))).
Qed.

Lemma stripWsRev_shrinking : shrinking stripWsRev.
Proof.
  intros s r Hs. destruct s as [|a [|b [|c s]]]; simpl in Hs; try done.
  - destruct (ws1 a); [|done]. inversion Hs. by exists (String a "").
  - destruct (ws1 a); [inversion Hs; by exists (String a "")|].
    destruct (ws2 b a); [|done]. inversion Hs. by exists (String a (String b "")).
  - destruct (ws1 a); [inversion Hs; by exists (String a "")|].
    destruct (ws2 b a); [inversion Hs; by exists (String a (String b ""))|].
    destruct (ws3 c b a); [|done]. inversion Hs.
    by exists (String a (String b (String c ""))).
Qed.

Lemma shrinking_length (strip : string → option string) (s r : string) :
  shrinking strip → strip s = Some r → (String.length r < String.length s)%nat.
Proof.
  intros Hstrip Hs. destruct (Hstrip s r Hs) as (p & Hp & ->).
  rewrite str_length_app. destruct p; [done|simpl; lia].
Qed.

Lemma stripAll_suffix (strip : string → option string) (n : nat) (s : string) :
  shrinking strip → ∃ p, s = p +:+ stripAll strip n s.
Proof.
  intros Hstrip. revert s. induction n as [|n IH]; intros s; simpl.
  - by exists "".
  - destruct (strip s) as [r|] eqn:Hs; [|by exists ""].
    destruct (Hstrip s r Hs) as (p & _ & ->). destruct (IH r) as (q & Hq).
    exists (p +:+ q). by rewrite str_app_assoc, <- Hq.
Qed.

Lemma stripAll_done (strip : string → option string) (n : nat) (s : string) :
  shrinking strip → (String.length s ≤ n)%nat → strip (stripAll strip n s) = None.
Proof.
  intros Hstrip. revert s. induction n as [|n IH]; intros s Hlen; simpl.
  - destruct (strip s) as [r|] eqn:Hs; [|done].
    apply (shrinking_length strip s r Hstrip) in Hs. lia.
  - destruct (strip s) as [r|] eqn:Hs; [|done].
    apply IH. apply (shrinking_length strip s r Hstrip) in Hs. lia.
Qed.

Lemma stripAll_fixed (strip : string → option string) (n : nat) (s : string) :
  strip s = None → stripAll strip n s = s.
Proof. intros Hs. destruct n; simpl; [done|by rewrite Hs]. Qed.

(** A leading white-space code point of [v] is one of [v +:+ w]. *)
Lemma stripWs_app (v w r : string) :
  stripWs v = Some r → stripWs (v +:+ w) = Some (r +:+ w).
Proof.
  intros Hv. destruct v as [|a [|b [|c v]]]; simpl in *; try done.
  - destruct (ws1 a); [|done]. by inversion Hv.
  - destruct (ws1 a); [by inversion Hv|].
    destruct (ws2 a b); [|done]. by inversion Hv.
  - destruct (ws1 a); [by inversion Hv|].
    destruct (ws2 a b); [by inversion Hv|].
    destruct (ws3 a b c); [|done]. by inversion Hv.
Qed.

Lemma trimStart_done (s : string) : stripWs (trimStart s) = None.
Proof. apply stripAll_done; [apply stripWs_shrinking|done]. Qed.

Lemma trimEnd_done (s : string) : stripWsRev (String.rev (trimEnd s)) = None.
Proof.
  unfold trimEnd. rewrite str_rev_rev.
  apply stripAll_done; [apply stripWsRev_shrinking|]. by rewrite str_rev_length.
Qed.

Lemma trimEnd_prefix (s : string) : ∃ w, s = trimEnd s +:+ w.
Proof.
  unfold trimEnd.
  destruct (stripAll_suffix stripWsRev (String.length s) (String.rev s)
              stripWsRev_shrinking) as (p & Hp).
  exists (String.rev p).
  rewrite <- str_rev_app, <- Hp. by rewrite str_rev_rev.
Qed.

(** A string without white space at either end is left as it is. *)
Lemma trim_fixed (s : string) :
  stripWs s = None → stripWsRev (String.rev s) = None → trim s = s.
Proof.
  intros Hstart Hend. unfold trim, trimStart. rewrite stripAll_fixed by done.
  unfold trimEnd. rewrite stripAll_fixed by done. apply str_rev_rev.
Qed.

Lemma trim_done (s : string) :
  stripWs (trim s) = None ∧ stripWsRev (String.rev (trim s)) = None.
Proof.
  unfold trim. split; [|apply trimEnd_done].
  destruct (trimEnd_prefix (trimStart s)) as (w & Hw).
  destruct (stripWs (trimEnd (trimStart s))) as [r|] eqn:Hr; [|done].
  apply (stripWs_app _ w) in Hr. rewrite <- Hw, trimStart_done in Hr. done.
Qed.

Lemma trim_idempotent (s : string) : trim (trim s) = trim s.
Proof. destruct (trim_done s). by apply trim_fixed. Qed.

Lemma trim_normalizeTicketType (s : string) :
  trim (normalizeTicketType (trim s)) = normalizeTicketType (trim s).
Proof.
  unfold normalizeTicketType. repeat case_decide; try reflexivity.
  apply trim_idempotent.
Qed.

(** * Repeated reconciliation *)

Section Idempotence.
Context `{Platform}.

Lemma lineId_trimmed (line : EC.Row) : trim (lineId line) = lineId line.
Proof. apply trim_idempotent. Qed.

Lemma lineTicketType_trimmed (line : EC.Row) :
  trim (lineTicketType line) = lineTicketType line.
Proof. apply trim_normalizeTicketType. Qed.

(** A synthesised row whose ticket type is not empty is counted by step 3
    under the key it was created for. *)
Lemma existingKey_newRow (line : EC.Row) (email : string) :
  lineTicketType line ≠ "" →
  existingId (newRow (infoOf line) email) = lineId line
  ∧ existingKey (newRow (infoOf line) email) = lineKey line.
Proof.
  intros Htype. unfold existingKey, existingId. simpl.
  rewrite lineId_trimmed. split; [done|].
  unfold orElse. simpl. destruct (String.eqb_spec (lineTicketType line) "") as [|_]; [done|].
  simpl. by rewrite lineTicketType_trimmed.
Qed.

Lemma existingQty_app (sheet rows : list Row) (key : string) :
  sheet ≠ [] →
  existingQty (sheet ++ rows) key
  = existingQty sheet key
    + Z.of_nat (length (filter (λ row, existingId row ≠ "" ∧ existingKey row = key) rows)).
Proof.
  intros Hne. unfold existingQty, dataRows.
  destruct sheet as [|h sheet]; [done|]. simpl. rewrite !drop_0, filter_app, length_app. lia.
Qed.

Lemma filter_agree (P Q : Row → Prop) `{∀ r, Decision (P r)} `{∀ r, Decision (Q r)}
    (l : list Row) :
  Forall (λ r, P r ↔ Q r) l → filter P l = filter Q l.
Proof.
  induction 1 as [|x l Hx _ IH]; [done|].
  rewrite !filter_cons, IH. destruct (decide (P x)) as [Hp|Hp].
  - rewrite decide_True; [done|tauto].
  - rewrite decide_False; [done|tauto].
Qed.

(** When no order line has an empty ticket type after trimming, step 3
    counts the synthesised rows as the forEach of step 4 keyed them. *)
Lemma rowsToAdd_counted (ss : Spreadsheet) (key : string) :
  (∀ line, line ∈ orderLines (ECData ss) → lineTicketType line ≠ "") →
  filter (λ row, existingId row ≠ "" ∧ existingKey row = key) (rowsToAdd ss)
  = filter (λ row, rowKey row = key) (rowsToAdd ss).
Proof.
  intros Htypes. apply filter_agree. apply Forall_forall. intros row Hrow.
  destruct (rowsToAdd_elem ss row Hrow) as (line & email & Hline & ->).
  destruct (existingKey_newRow line email (Htypes line Hline)) as [Hid Hkey].
  rewrite Hid, Hkey, rowKey_newRow.
  apply list_elem_of_filter in Hline as [Hlid _]. tauto.
Qed.

(** X22.  Idempotence where it holds.  When the three sheets are not empty and
    no order line with an id has an empty ticket type after trimming, a
    second run of [syncECData] right after the first adds no row. *)
Theorem syncECData_second_run_adds_nothing (ss : Spreadsheet) :
  Attendees ss ≠ [] → ECData ss ≠ [] → MemberMaster ss ≠ [] →
  (∀ line, line ∈ orderLines (ECData ss) → lineTicketType line ≠ "") →
  rowsToAdd (syncECData ss).2 = []
  ∧ Attendees (syncECData (syncECData ss).2).2 = Attendees (syncECData ss).2.
Proof.
  intros Hatt Hec Hmaster Htypes.
  assert (Hfirst := syncECData_run ss Hec Hmaster).
  rewrite Hfirst.
  set (ss1 := mkSpreadsheet (Attendees ss ++ rowsToAdd ss) (ECData ss) (MemberMaster ss)).
  assert (Hnone : rowsToAdd ss1 = []).
  { destruct (rowsToAdd ss1) as [|row rows] eqn:Hrows; [done|]. exfalso.
    assert (Hcount := rowsToAdd_count ss1 (rowKey row)).
    rewrite Hrows, filter_cons_True in Hcount by done. simpl in Hcount.
    rewrite existingQty_app, rowsToAdd_counted in Hcount by done.
    assert (Hcount0 := rowsToAdd_count ss (rowKey row)).
    lia. }
  split; [done|].
  rewrite (syncECData_run ss1) by done. simpl. by rewrite Hnone, app_nil_r.
Qed.

End Idempotence.

(** The sample orders reconciled twice. *)
Lemma syncECData_second_run_adds_nothing_witness :
  rowsToAdd (H := runPlatform) (syncECData (H := runPlatform) sampleOrders).2 = []
  ∧ Attendees (syncECData (H := runPlatform) (syncECData (H := runPlatform) sampleOrders).2).2
    = Attendees (syncECData (H := runPlatform) sampleOrders).2.
Proof.
  apply (syncECData_second_run_adds_nothing (H := runPlatform) sampleOrders).
  - discriminate.
  - discriminate.
  - discriminate.
  - intros line Hline. vm_compute in Hline.
    repeat (apply elem_of_cons in Hline as [->|Hline]; [by vm_compute|]).
    by apply elem_of_nil in Hline.
Defined.

(** * The model on concrete inputs *)

Example trim_examples :
  trim "  VIP Pass 　" = "VIP Pass" ∧ trim " 　 " = "" ∧ trim "役員招待枠 " = "役員招待枠".
Proof. by vm_compute. Qed.

Example parseInt_examples :
  parseInt " 42abc" = Some 42 ∧ parseInt "-0x1F" = Some (-31) ∧ parseInt "3 tickets" = Some 3
  ∧ parseInt "abc" = None ∧ parseInt "" = None ∧ parseInt "0" = Some 0.
Proof. by vm_compute. Qed.

Example lineQuantity_examples :
  lineQuantity (H := runPlatform) (EC.mk (CStr "A1") (CStr "Alice") (CStr "VIP") (CNum 3)) = 3
  ∧ lineQuantity (H := runPlatform) (EC.mk (CStr "A1") (CStr "Alice") (CStr "VIP") (CStr "")) = 1
  ∧ lineQuantity (H := runPlatform) (EC.mk (CStr "A1") (CStr "Alice") (CStr "VIP") (CStr "two")) = 1
  ∧ lineQuantity (H := runPlatform) (EC.mk (CStr "A1") (CStr "Alice") (CStr "VIP") (CNum 0)) = 1
  ∧ lineQuantity (H := runPlatform) (EC.mk (CStr "A1") (CStr "Alice") (CStr "VIP") (CNum (-2))) = -2.
Proof. by vm_compute. Qed.

(** The example of the specification: one open ticket of A1, the id entered
    twice. *)
Example manualCheckIn_A1_twice :
  let first := manualCheckIn (H := runPlatform) "A1" 100 [headerRow; aliceRow] in
  let second := manualCheckIn (H := runPlatform) "A1" 200 first.2 in
  status first.1 = Some "SUCCESS" ∧ checkInTime first.1 = Some "100"
  ∧ status second.1 = Some "WARNING" ∧ checkInTime second.1 = Some "100"
  ∧ (CheckInTime <$> second.2) = [CStr "CheckInTime"; CDate 100]
  ∧ (ReEntryHistory <$> second.2) = [CStr "ReEntryHistory"; CStr "200"].
Proof. by vm_compute. Qed.

(** With two rows that carry the same token the scan stops at the first. *)
Example checkInUser_duplicate_token :
  let twin := setCell 5 (CStr "") (setCell 1 (CStr "C3") bobRow) in
  (checkInUser (H := runPlatform) "tok-b2" 100 [headerRow; bobRow; twin]).1
  = warningOutcome (H := runPlatform) bobRow
  ∧ (checkInUser (H := runPlatform) "tok-b2" 100 [headerRow; bobRow; twin]).2
    = [headerRow; reEntryLogged (H := runPlatform) 100 bobRow; twin].
Proof. by vm_compute. Qed.

Example getDashboardData_sample :
  let d := getDashboardData (H := runPlatform) [headerRow; aliceUsedRow; bobRow; aliceRow] in
  total d = 3 ∧ checkedIn d = 2 ∧ notCheckedIn d = 1
  ∧ breakdown d !! "VIP Pass" = Some (Breakdown.mk 1 0)
  ∧ breakdown d !! "GuestPass" = Some (Breakdown.mk 1 1)
  ∧ breakdown d !! "StandardPass" = Some (Breakdown.mk 1 1)
  ∧ breakdown d !! "Unknown" = None.
Proof. by vm_compute. Qed.

Example syncECData_sample :
  (syncECData (H := runPlatform) sampleOrders).1
  = "Synced. Added 3 new tickets. Matched emails: 1. Missing emails: 1."
  ∧ (λ row, (ID row, Name row, Email row, TicketType row, StartTime row, Note row))
      <$> rowsToAdd (H := runPlatform) sampleOrders
    = [(CStr "A1", CStr "Alice", CStr "alice@example.org", CStr "PriorityPass",
        CStr "18:30-19:00", CStr "");
       (CStr "A1", CStr "Alice", CStr "alice@example.org", CStr "PriorityPass",
        CStr "18:30-19:00", CStr "");
       (CStr "B2", CStr "Bob (Guest)", CStr "", CStr "GuestPass",
        CStr "11:00-12:00", CStr "Guest Ticket")].
Proof. by vm_compute. Qed.

(** A run with an empty MemberMaster sheet writes its header and stops. *)
Example syncECData_without_directory :
  syncECData (H := runPlatform)
    (mkSpreadsheet [headerRow] (ECData sampleOrders) [])
  = ("Please fill MemberMaster sheet with data and run again.",
     mkSpreadsheet [headerRow] (ECData sampleOrders) [Master.header]).
Proof. reflexivity. Qed.

(** * What a request can do to the store *)

Section Requests.
Context `{Platform}.

(** The three effects a check-in can have on the store. *)
Lemma checkInUser_effect (token : string) (now : Z) (sheet : Sheet) :
  ((checkInUser token now sheet).2 = sheet
   ∧ status (checkInUser token now sheet).1 ≠ Some "SUCCESS"
   ∧ status (checkInUser token now sheet).1 ≠ Some "WARNING")
  ∨ (∃ i row, (1 ≤ i)%nat ∧ sheet !! i = Some row ∧ truthy (CheckInTime row) = true
       ∧ checkInUser token now sheet
         = (warningOutcome row, <[i := reEntryLogged now row]> sheet))
  ∨ (∃ i row, (1 ≤ i)%nat ∧ sheet !! i = Some row ∧ truthy (CheckInTime row) = false
       ∧ checkInUser token now sheet
         = (successOutcome row now, <[i := checkedInAt now row]> sheet)).
Proof.
  destruct (checkInUser_cases token now sheet)
    as [[_ ->]|[(_ & _ & ->)|[(i & row & Hi & Hrow & _ & Hc & ->)
                             |(i & row & Hi & Hrow & _ & Hc & ->)]]].
  - left. by repeat split.
  - left. by repeat split.
  - right. left. by exists i, row.
  - right. right. by exists i, row.
Qed.

Lemma manualCheckIn_effect (memberId : string) (now : Z) (sheet : Sheet) :
  ((manualCheckIn memberId now sheet).2 = sheet
   ∧ status (manualCheckIn memberId now sheet).1 ≠ Some "SUCCESS"
   ∧ status (manualCheckIn memberId now sheet).1 ≠ Some "WARNING")
  ∨ (∃ i row, (1 ≤ i)%nat ∧ sheet !! i = Some row ∧ truthy (CheckInTime row) = true
       ∧ manualCheckIn memberId now sheet
         = (warningOutcome row, <[i := reEntryLogged now row]> sheet))
  ∨ (∃ i row, (1 ≤ i)%nat ∧ sheet !! i = Some row ∧ truthy (CheckInTime row) = false
       ∧ manualCheckIn memberId now sheet
         = (successOutcome row now, <[i := checkedInAt now row]> sheet)).
Proof.
  destruct (manualCheckIn_cases memberId now sheet)
    as [[_ ->]|[(_ & _ & ->)|[(i & row & Hi & Hrow & _ & Hc & ->)
                             |(i & row & Hi & Hrow & _ & Hc & ->)]]].
  - left. by repeat split.
  - left. by repeat split.
  - right. left. by exists i, row.
  - right. right. by exists i, row.
Qed.

(** The effect of a request, whatever its action and parameters. *)
Lemma doGet_effect (e : Params.t) (now : Z) (sheet : Sheet) :
  ((doGet e now sheet).2 = sheet
   ∧ ∀ o, (doGet e now sheet).1 = OutcomeResponse o →
          status o ≠ Some "SUCCESS" ∧ status o ≠ Some "WARNING")
  ∨ (∃ i row, (1 ≤ i)%nat ∧ sheet !! i = Some row ∧ truthy (CheckInTime row) = true
       ∧ doGet e now sheet
         = (OutcomeResponse (warningOutcome row), <[i := reEntryLogged now row]> sheet))
  ∨ (∃ i row, (1 ≤ i)%nat ∧ sheet !! i = Some row ∧ truthy (CheckInTime row) = false
       ∧ doGet e now sheet
         = (OutcomeResponse (successOutcome row now), <[i := checkedInAt now row]> sheet)).
Proof.
  unfold doGet.
  destruct (decide (Params.action e = Some "checkIn")) as [_|_].
  { destruct (checkInUser_effect (default "" (Params.token e)) now sheet)
      as [(Hs & H1 & H2)|[(i & row & Hi & Hrow & Hc & Hcall)|(i & row & Hi & Hrow & Hc & Hcall)]].
    - left. destruct (checkInUser _ now sheet) as [o s]. simpl in *.
      split; [done|]. by intros o' [= <-].
    - right. left. exists i, row. by rewrite Hcall.
    - right. right. exists i, row. by rewrite Hcall. }
  destruct (decide (Params.action e = Some "manualCheckIn")) as [_|_].
  { destruct (manualCheckIn_effect (default "" (Params.memberId e)) now sheet)
      as [(Hs & H1 & H2)|[(i & row & Hi & Hrow & Hc & Hcall)|(i & row & Hi & Hrow & Hc & Hcall)]].
    - left. destruct (manualCheckIn _ now sheet) as [o s]. simpl in *.
      split; [done|]. by intros o' [= <-].
    - right. left. exists i, row. by rewrite Hcall.
    - right. right. exists i, row. by rewrite Hcall. }
  left. case_decide; (split; [done|]); [by intros o|by intros o [= <-]].
Qed.

End Requests.

Section RequestInvariants.
Context `{Platform}.

Lemma identityColumns_checkedInAt (now : Z) (row : Row) :
  identityColumns (checkedInAt now row) = identityColumns row.
Proof. reflexivity. Qed.

Lemma identityColumns_reEntryLogged (now : Z) (row : Row) :
  identityColumns (reEntryLogged now row) = identityColumns row.
Proof. reflexivity. Qed.

Lemma fmap_insert_same {B : Type} (f : Row → B) (sheet : Sheet) (i : nat) (row row' : Row) :
  sheet !! i = Some row → f row' = f row → f <$> <[i := row']> sheet = f <$> sheet.
Proof.
  intros Hrow Hf. rewrite list_fmap_insert, Hf. apply list_insert_id.
  by rewrite list_lookup_fmap, Hrow.
Qed.

Lemma tokens_unique_identity (sheet sheet' : Sheet) :
  identityColumns <$> sheet' = identityColumns <$> sheet →
  tokens_unique sheet → tokens_unique sheet'.
Proof.
  intros Hid. unfold tokens_unique, dataRows.
  assert (Htok : Token <$> sheet' = Token <$> sheet).
  { assert (Hf : ∀ l : list Row, Token <$> l = (λ c, c.1.1.1.1.1.2) <$> (identityColumns <$> l)).
    { intros l. rewrite <- list_fmap_compose. done. }
    by rewrite !Hf, Hid. }
  by rewrite !fmap_drop, Htok.
Qed.

(** X1.  Whatever the action and the parameters of a request, the store
    keeps its number of rows, its header row, and the id, name, email,
    token, sent flag, ticket type, start time, inviter and note of every
    row; at most one row differs afterwards, and a store with unique
    tokens keeps unique tokens. *)
Theorem request_keeps_rows_and_identity (e : Params.t) (now : Z) (sheet : Sheet) :
  length (doGet e now sheet).2 = length sheet
  ∧ identityColumns <$> (doGet e now sheet).2 = identityColumns <$> sheet
  ∧ (doGet e now sheet).2 !! 0%nat = sheet !! 0%nat
  ∧ (∃ i, ∀ j, j ≠ i → (doGet e now sheet).2 !! j = sheet !! j)
  ∧ (tokens_unique sheet → tokens_unique (doGet e now sheet).2).
Proof.
  assert (Hmain : length (doGet e now sheet).2 = length sheet
                  ∧ identityColumns <$> (doGet e now sheet).2 = identityColumns <$> sheet
                  ∧ (doGet e now sheet).2 !! 0%nat = sheet !! 0%nat
                  ∧ (∃ i, ∀ j, j ≠ i → (doGet e now sheet).2 !! j = sheet !! j)).
  { destruct (doGet_effect e now sheet)
      as [[-> _]|[(i & row & Hi & Hrow & _ & ->)|(i & row & Hi & Hrow & _ & ->)]];
      cbn [snd].
    - split; [done|]. split; [done|]. split; [done|]. by exists 0%nat.
    - split; [apply length_insert|].
      split; [by apply (fmap_insert_same _ _ _ row)|].
      split; [apply list_lookup_insert_ne; lia|].
      exists i. intros j Hj. by apply list_lookup_insert_ne.
    - split; [apply length_insert|].
      split; [by apply (fmap_insert_same _ _ _ row)|].
      split; [apply list_lookup_insert_ne; lia|].
      exists i. intros j Hj. by apply list_lookup_insert_ne. }
  destruct Hmain as (Hlen & Hid & Hhead & Hone).
  repeat split; try done. by apply tokens_unique_identity.
Qed.

(** X2.  A request never clears or overwrites a check-in time: a row that
    has one keeps it, and a check-in time that changes was unset, becomes
    the time of the request, and the response is the SUCCESS outcome of
    that row. *)
Theorem checkInTime_is_written_once (e : Params.t) (now : Z) (sheet : Sheet)
    (i : nat) (r r' : Row) :
  sheet !! i = Some r → (doGet e now sheet).2 !! i = Some r' →
  (truthy (CheckInTime r) = true → CheckInTime r' = CheckInTime r)
  ∧ (CheckInTime r' ≠ CheckInTime r →
     truthy (CheckInTime r) = false ∧ CheckInTime r' = CDate now
     ∧ (doGet e now sheet).1 = OutcomeResponse (successOutcome r now)).
Proof.
  intros Hr Hr'.
  destruct (doGet_effect e now sheet)
    as [[Hs _]|[(k & row & Hk & Hrow & Hc & Hcall)|(k & row & Hk & Hrow & Hc & Hcall)]].
  - rewrite Hs in Hr'. by simplify_eq.
  - rewrite Hcall in Hr' |- *. cbn [fst snd] in *.
    destruct (decide (i = k)) as [->|Hne].
    + rewrite list_lookup_insert_eq in Hr' by (by eapply lookup_lt_Some). by simplify_eq.
    + rewrite list_lookup_insert_ne in Hr' by done. by simplify_eq.
  - rewrite Hcall in Hr' |- *. cbn [fst snd] in *.
    destruct (decide (i = k)) as [->|Hne].
    + rewrite list_lookup_insert_eq in Hr' by (by eapply lookup_lt_Some). simplify_eq.
      split; [by rewrite Hc|]. done.
    + rewrite list_lookup_insert_ne in Hr' by done. by simplify_eq.
Qed.

(** X3.  A request never shortens or rewrites a re-entry history: the
    history of a row either stays as it is, or the response is the WARNING
    outcome of that row and the history becomes the old one, if any,
    followed by a newline and the time of the request. *)
Theorem reEntryHistory_is_append_only (e : Params.t) (now : Z) (sheet : Sheet)
    (i : nat) (r r' : Row) :
  sheet !! i = Some r → (doGet e now sheet).2 !! i = Some r' →
  ReEntryHistory r' = ReEntryHistory r
  ∨ ((doGet e now sheet).1 = OutcomeResponse (warningOutcome r)
     ∧ ReEntryHistory r'
       = CStr (if truthy (ReEntryHistory r)
               then toStr (ReEntryHistory r) +:+ newline +:+ formatDate (Some now)
               else formatDate (Some now))).
Proof.
  intros Hr Hr'.
  destruct (doGet_effect e now sheet)
    as [[Hs _]|[(k & row & Hk & Hrow & Hc & Hcall)|(k & row & Hk & Hrow & Hc & Hcall)]].
  - rewrite Hs in Hr'. left. by simplify_eq.
  - rewrite Hcall in Hr' |- *. cbn [fst snd] in *.
    destruct (decide (i = k)) as [->|Hne].
    + rewrite list_lookup_insert_eq in Hr' by (by eapply lookup_lt_Some). simplify_eq.
      by right.
    + rewrite list_lookup_insert_ne in Hr' by done. left. by simplify_eq.
  - rewrite Hcall in Hr'. cbn [snd] in *. left.
    destruct (decide (i = k)) as [->|Hne].
    + rewrite list_lookup_insert_eq in Hr' by (by eapply lookup_lt_Some). by simplify_eq.
    + rewrite list_lookup_insert_ne in Hr' by done. by simplify_eq.
Qed.

End RequestInvariants.

(** X1 at a sample store. *)
Lemma request_keeps_rows_and_identity_witness :
  tokens_unique
    (doGet (H := runPlatform) (Params.mk (Some "checkIn") (Some "tok-a1") None) 100
       [headerRow; bobRow; aliceRow]).2.
Proof.
  apply (request_keeps_rows_and_identity (H := runPlatform)).
  unfold tokens_unique. compute_done.
Defined.

(** X2 at a sample store: Bob's check-in time survives a scan of his used
    ticket. *)
Lemma checkInTime_is_written_once_witness :
  CheckInTime (reEntryLogged (H := runPlatform) 100 bobRow) = CheckInTime bobRow.
Proof.
  apply (checkInTime_is_written_once (H := runPlatform)
           (Params.mk (Some "checkIn") (Some "tok-b2") None) 100
           [headerRow; bobRow; aliceRow] 1 bobRow
           (reEntryLogged (H := runPlatform) 100 bobRow)); reflexivity.
Defined.

(** X3 at a sample store. *)
Lemma reEntryHistory_is_append_only_witness :
  ReEntryHistory (reEntryLogged (H := runPlatform) 100 bobRow) = ReEntryHistory bobRow
  ∨ ((doGet (H := runPlatform) (Params.mk (Some "manualCheckIn") None (Some "B2")) 100
        [headerRow; bobRow; aliceRow]).1
     = OutcomeResponse (warningOutcome (H := runPlatform) bobRow)
     ∧ ReEntryHistory (reEntryLogged (H := runPlatform) 100 bobRow)
       = CStr (if truthy (ReEntryHistory bobRow)
               then toStr (H := runPlatform) (ReEntryHistory bobRow) +:+ newline
                    +:+ formatDate (Platform := runPlatform) (Some 100)
               else formatDate (Platform := runPlatform) (Some 100))).
Proof.
  apply (reEntryHistory_is_append_only (H := runPlatform)
           (Params.mk (Some "manualCheckIn") None (Some "B2")) 100
           [headerRow; bobRow; aliceRow] 1 bobRow); reflexivity.
Defined.

(** * The dashboard next to the check-ins *)

Section DashboardAfter.
Context `{Platform}.

Lemma cnt_app (p : Row → bool) (l1 l2 : list Row) : cnt p (l1 ++ l2) = cnt p l1 + cnt p l2.
Proof. unfold cnt. rewrite filter_app, length_app. lia. Qed.

(** Replacing one element moves a count by the difference of the test. *)
Lemma cnt_insert (p : Row → bool) (l : list Row) (i : nat) (r r' : Row) :
  l !! i = Some r →
  cnt p (<[i := r']> l) = cnt p l - (if p r then 1 else 0) + (if p r' then 1 else 0).
Proof.
  intros Hr. assert (Hlen : (i < length l)%nat) by (by eapply lookup_lt_Some).
  assert (Hl : cnt p l
               = cnt p (take i l) + ((if p r then 1 else 0) + cnt p (drop (S i) l))).
  { rewrite <- (take_drop_middle l i r Hr) at 1. by rewrite cnt_app, cnt_cons. }
  rewrite insert_take_drop, cnt_app, cnt_cons, Hl by done. lia.
Qed.

Lemma dataRows_insert (sheet : Sheet) (i : nat) (row : Row) :
  (1 ≤ i)%nat → dataRows (<[i := row]> sheet) = <[(i - 1)%nat := row]> (dataRows sheet).
Proof. intros Hi. unfold dataRows. by rewrite drop_insert_ge. Qed.

(** The dashboard reads three columns only. *)
Lemma dashboard_step_columns (acc : Z * Z * gmap string Breakdown.entry) (r r' : Row) :
  dashboardColumns r = dashboardColumns r' → dashboard_step acc r = dashboard_step acc r'.
Proof.
  unfold dashboardColumns. intros [= Hid Hc Ht]. unfold dashboard_step.
  by rewrite Hid, Hc, Ht.
Qed.

Lemma dashboard_fold_columns (l l' : list Row) (acc : Z * Z * gmap string Breakdown.entry) :
  dashboardColumns <$> l = dashboardColumns <$> l' →
  foldl dashboard_step acc l = foldl dashboard_step acc l'.
Proof.
  revert l' acc. induction l as [|r l IH]; intros [|r' l'] acc Heq; try done.
  rewrite !fmap_cons in Heq.
  assert (Hr : dashboardColumns r = dashboardColumns r') by congruence.
  assert (Hl : dashboardColumns <$> l = dashboardColumns <$> l') by congruence.
  simpl. rewrite (dashboard_step_columns acc r r' Hr). by apply IH.
Qed.

Lemma getDashboardData_columns (sheet sheet' : Sheet) :
  dashboardColumns <$> sheet = dashboardColumns <$> sheet' →
  getDashboardData sheet = getDashboardData sheet'.
Proof.
  intros Heq. unfold getDashboardData.
  rewrite (dashboard_fold_columns (drop 1 sheet) (drop 1 sheet')); [done|].
  by rewrite !fmap_drop, Heq.
Qed.

(** The dashboard after the first check-in of a row. *)
Lemma getDashboardData_checkedInAt (sheet : Sheet) (i : nat) (row : Row) (now : Z) :
  (1 ≤ i)%nat → sheet !! i = Some row → truthy (CheckInTime row) = false →
  total (getDashboardData (<[i := checkedInAt now row]> sheet)) = total (getDashboardData sheet)
  ∧ checkedIn (getDashboardData (<[i := checkedInAt now row]> sheet))
    = checkedIn (getDashboardData sheet) + (if truthy (ID row) then 1 else 0).
Proof.
  intros Hi Hrow Hopen.
  destruct (getDashboardData_fields sheet) as (Ht & Hc & _).
  destruct (getDashboardData_fields (<[i := checkedInAt now row]> sheet)) as (Ht' & Hc' & _).
  assert (Hd : dataRows sheet !! (i - 1)%nat = Some row).
  { rewrite dataRows_lookup. by replace (1 + (i - 1))%nat with i by lia. }
  rewrite Ht', Hc', Ht, Hc, dataRows_insert by done.
  rewrite !(cnt_insert _ _ _ row) by done.
  unfold hasId, checkedInRow. simpl. rewrite Hopen.
  destruct (truthy (ID row)); simpl; lia.
Qed.

(** X4.  The dashboard follows the check-ins: after a request whose
    response is not a SUCCESS outcome the dashboard data are what they were;
    after a SUCCESS outcome [total] is unchanged and [checkedIn] is one
    more (when the attendee's id cell is empty or 0, the row is not
    counted and both are unchanged). *)
Theorem dashboard_after_request (e : Params.t) (now : Z) (sheet : Sheet) :
  (∀ o, (doGet e now sheet).1 = OutcomeResponse o → status o ≠ Some "SUCCESS" →
        getDashboardData (doGet e now sheet).2 = getDashboardData sheet)
  ∧ (∀ d, (doGet e now sheet).1 = DashboardResponse d →
          d = getDashboardData sheet ∧ (doGet e now sheet).2 = sheet)
  ∧ (∀ o, (doGet e now sheet).1 = OutcomeResponse o → status o = Some "SUCCESS" →
        ∃ c, id o = Some c
          ∧ total (getDashboardData (doGet e now sheet).2) = total (getDashboardData sheet)
          ∧ checkedIn (getDashboardData (doGet e now sheet).2)
            = checkedIn (getDashboardData sheet) + (if truthy c then 1 else 0)
          ∧ notCheckedIn (getDashboardData (doGet e now sheet).2)
            = notCheckedIn (getDashboardData sheet) - (if truthy c then 1 else 0)).
Proof.
  split; [|split].
  - intros o Ho Hstatus.
    destruct (doGet_effect e now sheet)
      as [[-> _]|[(i & row & Hi & Hrow & _ & Hcall)|(i & row & Hi & Hrow & _ & Hcall)]].
    + done.
    + rewrite Hcall. cbn [snd]. apply getDashboardData_columns.
      by apply (fmap_insert_same _ _ _ row).
    + rewrite Hcall in Ho. by simplify_eq/=.
  - intros d Hd. unfold doGet in *.
    repeat case_decide; try (by destruct (checkInUser _ _ _)); 
      try (by destruct (manualCheckIn _ _ _)); simplify_eq/=; done.
  - intros o Ho Hstatus.
    destruct (doGet_effect e now sheet)
      as [[_ Hnot]|[(i & row & Hi & Hrow & _ & Hcall)|(i & row & Hi & Hrow & Hopen & Hcall)]].
    + by destruct (Hnot o Ho).
    + rewrite Hcall in Ho. by simplify_eq/=.
    + rewrite Hcall in Ho |- *. simplify_eq/=. exists (ID row). split; [done|].
      destruct (getDashboardData_checkedInAt sheet i row now Hi Hrow Hopen) as [Ht Hc].
      destruct (getDashboardData_fields sheet) as (_ & _ & Hn & _).
      destruct (getDashboardData_fields (<[i := checkedInAt now row]> sheet))
        as (_ & _ & Hn' & _).
      rewrite Hn', Hn, Ht, Hc. repeat split; try done. lia.
Qed.

End DashboardAfter.

(** X4 at a sample store: Alice's unused ticket is scanned. *)
Lemma dashboard_after_request_witness :
  ∃ c, id (successOutcome (H := runPlatform) aliceRow 100) = Some c
    ∧ total (getDashboardData (H := runPlatform)
               (doGet (H := runPlatform) (Params.mk (Some "checkIn") (Some "tok-a1") None) 100
                  [headerRow; bobRow; aliceRow]).2)
      = total (getDashboardData (H := runPlatform) [headerRow; bobRow; aliceRow])
    ∧ checkedIn (getDashboardData (H := runPlatform)
                   (doGet (H := runPlatform) (Params.mk (Some "checkIn") (Some "tok-a1") None)
                      100 [headerRow; bobRow; aliceRow]).2)
      = checkedIn (getDashboardData (H := runPlatform) [headerRow; bobRow; aliceRow])
        + (if truthy c then 1 else 0)
    ∧ notCheckedIn (getDashboardData (H := runPlatform)
                      (doGet (H := runPlatform)
                         (Params.mk (Some "checkIn") (Some "tok-a1") None)
                         100 [headerRow; bobRow; aliceRow]).2)
      = notCheckedIn (getDashboardData (H := runPlatform) [headerRow; bobRow; aliceRow])
        - (if truthy c then 1 else 0).
Proof.
  apply (proj2 (proj2 (dashboard_after_request (H := runPlatform)
                         (Params.mk (Some "checkIn") (Some "tok-a1") None) 100
                         [headerRow; bobRow; aliceRow]))); reflexivity.
Defined.

(** * Scanning and manual entry together *)

Section ScanAndManual.
Context `{Platform}.

(** The data rows before and after the row at index [i]. *)
Lemma dataRows_around (sheet : Sheet) (i : nat) (row : Row) :
  (1 ≤ i)%nat → sheet !! i = Some row →
  ∃ pre post, dataRows sheet = (pre ++ row :: post)%list ∧ (1 + length pre)%nat = i
    ∧ (∀ r, r ∈ pre → ∃ j, (1 ≤ j < i)%nat ∧ sheet !! j = Some r)
    ∧ (∀ r, r ∈ post → ∃ j, (i < j)%nat ∧ sheet !! j = Some r).
Proof.
  intros Hi Hrow.
  destruct (dataRows_split sheet i row Hi Hrow) as (pre & post & Hsplit & Hlen & Hpre).
  exists pre, post. split; [done|]. split; [lia|]. split.
  - intros r Hr. apply list_elem_of_lookup in Hr as [k Hk].
    destruct (Hpre k r Hk) as [Hs Hlt]. exists (1 + k)%nat. split; [lia|done].
  - intros r Hr. apply list_elem_of_lookup in Hr as [k Hk].
    exists (i + 1 + k)%nat. split; [lia|].
    rewrite <- (Nat.sub_add 1 (i + 1 + k)) by lia.
    replace (i + 1 + k - 1 + 1)%nat with (1 + (length pre + S k))%nat by lia.
    rewrite <- dataRows_lookup, Hsplit, lookup_app_r by lia.
    by replace (length pre + S k - length pre)%nat with (S k) by lia.
Qed.

(** X5.  When one row carries the token and is the only row of the member
    id, scanning the token and entering the id by hand have the same
    outcome and leave the same store. *)
Theorem scan_and_manual_entry_agree (token memberId : string) (now : Z) (sheet : Sheet)
    (i : nat) (row : Row) :
  token ≠ "" → memberId ≠ "" → (1 ≤ i)%nat → sheet !! i = Some row →
  Token row = CStr token → matchesId memberId row = true →
  (∀ j r, (1 ≤ j)%nat → j ≠ i → sheet !! j = Some r →
          Token r ≠ CStr token ∧ matchesId memberId r = false) →
  checkInUser token now sheet = manualCheckIn memberId now sheet.
Proof.
  intros Htok Hid Hi Hrow Htoken Hmatch Hothers.
  assert (Hfirst : ∀ j r, (1 ≤ j < i)%nat → sheet !! j = Some r → Token r ≠ CStr token).
  { intros j r Hj Hr. destruct (Hothers j r) as [Hno _]; [lia|lia|done|done]. }
  rewrite (checkInUser_first_match token now sheet i row) by done.
  destruct (dataRows_around sheet i row Hi Hrow) as (pre & post & Hsplit & Hlen & Hpre & Hpost).
  assert (Hpre' : Forall (λ r, matchesId memberId r = true → checkedInRow r = true) pre).
  { apply Forall_forall. intros r Hr Hm. destruct (Hpre r Hr) as (j & Hj & Hjr).
    destruct (Hothers j r) as [_ Hno]; [lia|lia|done|]. congruence. }
  assert (Hpost' : Forall (λ r, matchesId memberId r = false) post).
  { apply Forall_forall. intros r Hr. destruct (Hpost r Hr) as (j & Hj & Hjr).
    apply (Hothers j r); [lia|lia|done]. }
  destruct (truthy (CheckInTime row)) eqn:Hchecked.
  - destruct (manualCheckIn_last_checked memberId now sheet pre post row) as [_ ->];
      try done. by rewrite Hlen.
  - destruct (manualCheckIn_first_open memberId now sheet pre post row) as [_ ->];
      try done. by rewrite Hlen.
Qed.

(** Counts of matching rows. *)
Lemma cnt_all_checked (memberId : string) (l : list Row) :
  cnt (λ r, matchesId memberId r && checkedInRow r) l = cnt (matchesId memberId) l →
  Forall (λ r, matchesId memberId r = true → checkedInRow r = true) l.
Proof.
  induction l as [|x l IH]; [by constructor|].
  rewrite !cnt_cons. intros Heq.
  assert (Hle : cnt (λ r, matchesId memberId r && checkedInRow r) l
                ≤ cnt (matchesId memberId) l).
  { apply cnt_le. intros r Hr. by apply andb_prop in Hr as [? _]. }
  destruct (matchesId memberId x) eqn:Hm, (checkedInRow x) eqn:Hc; simpl in Heq;
    try lia; (constructor; [by rewrite ?Hm, ?Hc|apply IH; lia]).
Qed.

Lemma cnt_some_open (memberId : string) (l : list Row) :
  cnt (λ r, matchesId memberId r && checkedInRow r) l < cnt (matchesId memberId) l →
  Exists (λ r, matchesId memberId r = true ∧ checkedInRow r = false) l.
Proof.
  induction l as [|x l IH]; [rewrite !cnt_nil; lia|].
  rewrite !cnt_cons. intros Hlt.
  destruct (matchesId memberId x) eqn:Hm, (checkedInRow x) eqn:Hc; simpl in Hlt.
  - apply Exists_cons_tl, IH. lia.
  - by apply Exists_cons_hd.
  - apply Exists_cons_tl, IH. lia.
  - apply Exists_cons_tl, IH. lia.
Qed.

Lemma cnt_pos_exists (p : Row → bool) (l : list Row) :
  0 < cnt p l → Exists (λ r, p r = true) l.
Proof.
  induction l as [|x l IH]; [rewrite cnt_nil; lia|].
  rewrite cnt_cons. destruct (p x) eqn:Hx; [intros _; by apply Exists_cons_hd|].
  intros Hpos. apply Exists_cons_tl, IH. lia.
Qed.

Lemma cnt_zero_forall (p : Row → bool) (l : list Row) :
  cnt p l = 0 → Forall (λ r, p r = false) l.
Proof.
  induction l as [|x l IH]; [by constructor|].
  rewrite cnt_cons. assert (0 ≤ cnt p l) by apply cnt_nonneg.
  destruct (p x) eqn:Hx; [lia|]. intros Hz. constructor; [done|apply IH; lia].
Qed.

(** X6.  Each ticket of a member is used once: with N rows of a member id
    of which M are checked in, entering the id N - M times gives N - M
    SUCCESS outcomes and leaves all N rows checked in; one more entry gives
    WARNING (ERROR when the id has no row). *)
Theorem manualCheckIn_uses_each_ticket_once (memberId : string) (nows : list Z)
    (sheet : Sheet) (next : Z) :
  memberId ≠ "" →
  Z.of_nat (length nows)
  = cnt (matchesId memberId) (dataRows sheet)
    - cnt (λ r, matchesId memberId r && checkedInRow r) (dataRows sheet) →
  Forall (λ o, status o = Some "SUCCESS") (manualCheckIns memberId nows sheet).1
  ∧ cnt (matchesId memberId) (dataRows (manualCheckIns memberId nows sheet).2)
    = cnt (matchesId memberId) (dataRows sheet)
  ∧ cnt (λ r, matchesId memberId r && checkedInRow r)
      (dataRows (manualCheckIns memberId nows sheet).2)
    = cnt (matchesId memberId) (dataRows sheet)
  ∧ status (manualCheckIn memberId next (manualCheckIns memberId nows sheet).2).1
    = Some (if decide (cnt (matchesId memberId) (dataRows sheet) = 0)
            then "ERROR" else "WARNING").
Proof.
  intros Hid. revert sheet. induction nows as [|now nows IH]; intros sheet Hlen.
  - simpl in *.
    assert (Heq : cnt (λ r, matchesId memberId r && checkedInRow r) (dataRows sheet)
                  = cnt (matchesId memberId) (dataRows sheet)) by lia.
    split; [by constructor|]. split; [done|]. split; [done|].
    apply cnt_all_checked in Heq as Hall.
    case_decide as Hz.
    + apply cnt_zero_forall in Hz. by rewrite manualCheckIn_no_match.
    + assert (Hex : Exists (λ r, matchesId memberId r = true) (dataRows sheet)).
      { apply cnt_pos_exists. pose proof (cnt_nonneg (matchesId memberId) (dataRows sheet)).
        lia. }
      destruct (manualCheckIn_checked_case memberId next sheet Hid Hex Hall)
        as (i & row & _ & _ & _ & _ & _ & ->). done.
  - simpl length in Hlen.
    assert (Hopen : Exists (λ r, matchesId memberId r = true ∧ checkedInRow r = false)
                      (dataRows sheet)) by (apply cnt_some_open; lia).
    destruct (manualCheckIn_open_case memberId now sheet Hid Hopen)
      as (i & row & Hi & Hrow & Hmatch & Hrowopen & _ & Hcall).
    simpl manualCheckIns. rewrite Hcall.
    set (sheet1 := <[i := checkedInAt now row]> sheet).
    assert (Hd : dataRows sheet !! (i - 1)%nat = Some row).
    { rewrite dataRows_lookup. by replace (1 + (i - 1))%nat with i by lia. }
    assert (Hn1 : cnt (matchesId memberId) (dataRows sheet1)
                  = cnt (matchesId memberId) (dataRows sheet)).
    { unfold sheet1. rewrite dataRows_insert, (cnt_insert _ _ _ row) by done.
      unfold matchesId in *. simpl. rewrite Hmatch. lia. }
    assert (Hm1 : cnt (λ r, matchesId memberId r && checkedInRow r) (dataRows sheet1)
                  = cnt (λ r, matchesId memberId r && checkedInRow r) (dataRows sheet) + 1).
    { unfold sheet1. rewrite dataRows_insert, (cnt_insert _ _ _ row) by done.
      rewrite Hrowopen. unfold matchesId, checkedInRow in *. simpl. rewrite Hmatch. simpl. lia. }
    destruct (IH sheet1) as (Hall & Hn & Hm & Hnext); [lia|].
    destruct (manualCheckIns memberId nows sheet1) as [os sheet2]. simpl in *.
    split; [by constructor|]. rewrite <- Hn1. by repeat split.
Qed.

End ScanAndManual.

(** X5 at a sample store. *)
Lemma scan_and_manual_entry_agree_witness :
  checkInUser (H := runPlatform) "tok-b2" 100 [headerRow; bobRow; aliceRow]
  = manualCheckIn (H := runPlatform) "B2" 100 [headerRow; bobRow; aliceRow].
Proof.
  apply (scan_and_manual_entry_agree (H := runPlatform) "tok-b2" "B2" 100
           [headerRow; bobRow; aliceRow] 1 bobRow); try done.
  intros [|[|[|j]]] r Hj Hne Hr; simplify_eq/=; try lia. by split.
Defined.

(** X6 at a sample store: Alice holds two tickets, one of them used. *)
Lemma manualCheckIn_uses_each_ticket_once_witness :
  Forall (λ o, status o = Some "SUCCESS")
    (manualCheckIns (H := runPlatform) "A1" [100]
       [headerRow; aliceUsedRow; bobRow; aliceRow]).1
  ∧ cnt (matchesId (H := runPlatform) "A1")
      (dataRows (manualCheckIns (H := runPlatform) "A1" [100]
                   [headerRow; aliceUsedRow; bobRow; aliceRow]).2)
    = cnt (matchesId (H := runPlatform) "A1")
        (dataRows [headerRow; aliceUsedRow; bobRow; aliceRow])
  ∧ cnt (λ r, matchesId (H := runPlatform) "A1" r && checkedInRow r)
      (dataRows (manualCheckIns (H := runPlatform) "A1" [100]
                   [headerRow; aliceUsedRow; bobRow; aliceRow]).2)
    = cnt (matchesId (H := runPlatform) "A1")
        (dataRows [headerRow; aliceUsedRow; bobRow; aliceRow])
  ∧ status (manualCheckIn (H := runPlatform) "A1" 200
              (manualCheckIns (H := runPlatform) "A1" [100]
                 [headerRow; aliceUsedRow; bobRow; aliceRow]).2).1
    = Some (if decide (cnt (matchesId (H := runPlatform) "A1")
                         (dataRows [headerRow; aliceUsedRow; bobRow; aliceRow]) = 0)
            then "ERROR" else "WARNING").
Proof.
  apply (manualCheckIn_uses_each_ticket_once (H := runPlatform) "A1" [100]
           [headerRow; aliceUsedRow; bobRow; aliceRow] 200).
  - discriminate.
  - reflexivity.
Defined.

(** * Consistency of the dashboard data *)

Section DashboardSums.
Context `{Platform}.

(** Sum of a weight over the entries of a breakdown. *)
Lemma weight_insert_fresh (w : Breakdown.entry → Z) (b : gmap string Breakdown.entry)
    (k : string) (x : Breakdown.entry) :
  b !! k = None →
  map_fold (λ _ e acc, acc + w e) 0 (<[k := x]> b)
  = map_fold (λ _ e acc, acc + w e) 0 b + w x.
Proof.
  intros Hk. rewrite map_fold_insert_L; [done| |done]. intros; lia.
Qed.

Lemma weight_insert (w : Breakdown.entry → Z) (b : gmap string Breakdown.entry)
    (k : string) (x y : Breakdown.entry) :
  b !! k = Some x →
  map_fold (λ _ e acc, acc + w e) 0 (<[k := y]> b)
  = map_fold (λ _ e acc, acc + w e) 0 b - w x + w y.
Proof.
  intros Hk. rewrite <- (insert_delete_eq b k y).
  rewrite weight_insert_fresh by apply lookup_delete_eq.
  rewrite (map_fold_delete_L _ 0 k x b); [lia| |done]. intros; lia.
Qed.

Lemma weight_alter (w : Breakdown.entry → Z) (f : Breakdown.entry → Breakdown.entry)
    (b : gmap string Breakdown.entry) (k : string) (x : Breakdown.entry) :
  b !! k = Some x →
  map_fold (λ _ e acc, acc + w e) 0 (alter f k b)
  = map_fold (λ _ e acc, acc + w e) 0 b - w x + w (f x).
Proof.
  intros Hk. rewrite <- (insert_id b k x Hk) at 1.
  rewrite alter_insert_eq. by apply weight_insert.
Qed.

Lemma dashboard_step_sums (t c : Z) (b : gmap string Breakdown.entry) (x : Row) :
  (∀ k, k ∈ objectPrototypeNames → b !! k = None) →
  breakdownTotal (dashboard_step (t, c, b) x).2 - (dashboard_step (t, c, b) x).1.1
  = breakdownTotal b - t - (if hasId x && inheritedType x then 1 else 0)
  ∧ breakdownCheckedIn (dashboard_step (t, c, b) x).2 - (dashboard_step (t, c, b) x).1.2
    = breakdownCheckedIn b - c
      - (if hasId x && inheritedType x && checkedInRow x then 1 else 0).
Proof.
  intros Hclean.
  unfold dashboard_step, getProperty, inheritedType, hasId, checkedInRow.
  fold (breakdownKey x).
  set (kx := breakdownKey x).
  destruct (decide (kx ∈ objectPrototypeNames)) as [Hin|Hout].
  { rewrite (Hclean kx Hin), bool_decide_eq_true_2 by done.
    assert (Halter : ∀ f, alter f kx b = b).
    { intros f. apply map_eq. intros k. destruct (decide (kx = k)) as [<-|Hne].
      - by rewrite lookup_alter_eq, (Hclean kx Hin).
      - by rewrite lookup_alter_ne. }
    destruct (truthy (ID x)); [|cbn [fst snd andb]; lia].
    destruct (truthy (CheckInTime x)); cbn [fst snd andb]; rewrite !Halter; lia. }
  rewrite (bool_decide_eq_false_2 (kx ∈ objectPrototypeNames)), !andb_false_r by done.
  destruct (truthy (ID x)); [|cbn [fst snd andb]; lia].
  set (b1 := match b !! kx with
             | Some _ => b
             | None => <[kx := Breakdown.mk 0 0]> b
             end).
  assert (Hb1' : match match b !! kx with
                       | Some v => Own v
                       | None => @Absent Breakdown.entry
                       end with
                 | Absent => <[kx := Breakdown.mk 0 0]> b
                 | _ => b
                 end = b1).
  { subst b1. by destruct (b !! kx). }
  rewrite Hb1'. clear Hb1'.
  assert (Hb1 : ∃ e, b1 !! kx = Some e
                  ∧ breakdownTotal b1 = breakdownTotal b
                  ∧ breakdownCheckedIn b1 = breakdownCheckedIn b).
  { subst b1. destruct (b !! kx) as [e|] eqn:He.
    - by exists e.
    - exists (Breakdown.mk 0 0). rewrite lookup_insert_eq. split; [done|].
      unfold breakdownTotal, breakdownCheckedIn.
      rewrite !weight_insert_fresh by done. simpl. lia. }
  destruct Hb1 as (e1 & He1 & Ht1 & Hc1).
  assert (He2 : alter Breakdown.incTotal kx b1 !! kx = Some (Breakdown.incTotal e1)).
  { by rewrite lookup_alter_eq, He1. }
  destruct (truthy (CheckInTime x)); cbn [fst snd];
    unfold breakdownTotal, breakdownCheckedIn in *.
  - rewrite !(weight_alter _ _ _ _ _ He2), !(weight_alter _ _ _ _ _ He1).
    rewrite Ht1, Hc1. simpl. lia.
  - rewrite !(weight_alter _ _ _ _ _ He1). rewrite Ht1, Hc1. simpl. lia.
Qed.

Lemma dashboard_fold_sums (l : list Row) (t c : Z) (b : gmap string Breakdown.entry) :
  (∀ k, k ∈ objectPrototypeNames → b !! k = None) →
  breakdownTotal (foldl dashboard_step (t, c, b) l).2
  - (foldl dashboard_step (t, c, b) l).1.1
  = breakdownTotal b - t - cnt (λ r, hasId r && inheritedType r) l
  ∧ breakdownCheckedIn (foldl dashboard_step (t, c, b) l).2
    - (foldl dashboard_step (t, c, b) l).1.2
    = breakdownCheckedIn b - c - cnt (λ r, hasId r && inheritedType r && checkedInRow r) l.
Proof.
  revert t c b. induction l as [|x l IH]; intros t c b Hclean.
  { rewrite !cnt_nil. simpl. lia. }
  change (foldl dashboard_step (t, c, b) (x :: l))
    with (foldl dashboard_step (dashboard_step (t, c, b) x) l).
  destruct (dashboard_step_sums t c b x Hclean) as [Ht Hc].
  assert (Hclean' := dashboard_step_clean (t, c, b) x Hclean).
  destruct (dashboard_step (t, c, b) x) as [[t' c'] b']. simpl in Ht, Hc, Hclean'.
  destruct (IH t' c' b' Hclean') as [Ht' Hc']. rewrite !cnt_cons. lia.
Qed.

(** X7.  The dashboard data are consistent: 0 <= checkedIn <= total,
    notCheckedIn is not negative, and every entry of the breakdown counts
    at least one row and has 0 <= checkedIn <= total.  The totals of the
    breakdown entries add up to [total] less the number of rows with an id
    whose ticket type names a member of [Object.prototype], which get no
    entry, and likewise their checkedIn counts to [checkedIn]; so the
    breakdown adds up to the two totals when no row has such a type. *)
Theorem getDashboardData_consistent (sheet : Sheet) :
  0 ≤ checkedIn (getDashboardData sheet) ≤ total (getDashboardData sheet)
  ∧ 0 ≤ notCheckedIn (getDashboardData sheet)
  ∧ breakdownTotal (breakdown (getDashboardData sheet))
    + countRows (λ r, hasId r && inheritedType r) sheet
    = total (getDashboardData sheet)
  ∧ breakdownCheckedIn (breakdown (getDashboardData sheet))
    + countRows (λ r, hasId r && inheritedType r && checkedInRow r) sheet
    = checkedIn (getDashboardData sheet)
  ∧ (Forall (λ r, hasId r = true → inheritedType r = false) (dataRows sheet) →
     breakdownTotal (breakdown (getDashboardData sheet)) = total (getDashboardData sheet)
     ∧ breakdownCheckedIn (breakdown (getDashboardData sheet))
       = checkedIn (getDashboardData sheet))
  ∧ (∀ k e, breakdown (getDashboardData sheet) !! k = Some e →
            1 ≤ Breakdown.total e ∧ 0 ≤ Breakdown.checkedIn e ≤ Breakdown.total e).
Proof.
  destruct (getDashboardData_fields sheet) as (Ht & Hc & Hn & Hb).
  assert (Hle : cnt (λ r, hasId r && checkedInRow r) (dataRows sheet)
                ≤ cnt hasId (dataRows sheet)).
  { apply cnt_le. intros r Hr. by apply andb_prop in Hr as [? _]. }
  pose proof (cnt_nonneg (λ r, hasId r && checkedInRow r) (dataRows sheet)) as Hc0.
  split; [rewrite Ht, Hc; lia|]. split; [rewrite Hn, Ht, Hc; lia|].
  assert (Hsums := dashboard_fold_sums (drop 1 sheet) 0 0 ∅ (λ k _, lookup_empty k)).
  unfold getDashboardData, countRows, dataRows in *.
  destruct (foldl dashboard_step (0, 0, ∅) (drop 1 sheet)) as [[t c] b] eqn:Hfold.
  cbn [fst snd total checkedIn breakdown] in *.
  assert (Hempty : breakdownTotal ∅ = 0 ∧ breakdownCheckedIn ∅ = 0).
  { unfold breakdownTotal, breakdownCheckedIn. by rewrite !map_fold_empty. }
  destruct Hempty as [Ht0 Hc0']. rewrite Ht0, Hc0' in Hsums.
  split; [lia|]. split; [lia|]. split.
  - intros Hnone.
    assert (Hz : cnt (λ r, hasId r && inheritedType r) (drop 1 sheet) = 0
                 ∧ cnt (λ r, hasId r && inheritedType r && checkedInRow r) (drop 1 sheet) = 0).
    { clear -Hnone. induction Hnone as [|r l Hr _ [IH1 IH2]]; [done|].
      rewrite !cnt_cons, IH1, IH2.
      destruct (hasId r); [rewrite Hr by done|]; done. }
    lia.
  - intros k e He.
    assert (Hbk := Hb k). rewrite He in Hbk. unfold bump in Hbk.
    pose proof (cnt_nonneg (inKey k) (drop 1 sheet)).
    pose proof (cnt_nonneg (inKeyChecked k) (drop 1 sheet)).
    assert (cnt (inKeyChecked k) (drop 1 sheet) ≤ cnt (inKey k) (drop 1 sheet)).
    { apply cnt_le. unfold inKeyChecked, inKey. intros r Hr. by apply andb_prop in Hr as [? _]. }
    case_decide; [done|]. simplify_eq/=. lia.
Qed.

End DashboardSums.

(** * Reconciliation: the member directory and the rows written *)

Section Directory.
Context `{Platform}.

Lemma emailMap_fold_empty_id (l : list Master.Row) (m : gmap string string) :
  foldl emailMap_step m l !! "" = m !! "".
Proof.
  revert m. induction l as [|x l IH]; intros m; [done|]. simpl foldl.
  rewrite IH. unfold emailMap_step. case_decide; [done|]. by rewrite lookup_insert_ne.
Qed.

Lemma emailMap_fold (l : list Master.Row) (m : gmap string string) (id : string) :
  id ≠ "" →
  foldl emailMap_step m l !! id
  = match last (filter (λ row, trim (toStr (Master.ID row)) = id) l) with
    | Some row => Some (trim (toStr (Master.Email row)))
    | None => m !! id
    end.
Proof.
  intros Hid. induction l as [|x l IH] using rev_ind; [done|].
  rewrite foldl_app, filter_app. simpl foldl. rewrite (filter_cons _ x []), filter_nil.
  unfold emailMap_step at 1.
  destruct (decide (trim (toStr (Master.ID x)) = id)) as [Hx|Hx].
  - rewrite last_snoc, decide_False by congruence. by rewrite Hx, lookup_insert_eq.
  - rewrite app_nil_r, <- IH. case_decide; [done|]. by rewrite lookup_insert_ne.
Qed.

Lemma buildEmailMap_lookup (masterData : list Master.Row) (id : string) :
  id ≠ "" → buildEmailMap masterData !! id = memberEmail masterData id.
Proof.
  intros Hid. unfold buildEmailMap, memberEmail. rewrite emailMap_fold by done.
  by destruct (last (filter _ (drop 1 masterData))).
Qed.

(** X8.  The lookup built from the MemberMaster sheet maps an id to the
    trimmed e-mail cell of the last row below the header that has this id
    (white space around the id ignored): a later row overrides an earlier
    one, the header row is not read, and the empty id is never a key. *)
Theorem buildEmailMap_last_row_wins (masterData : list Master.Row) (id : string) :
  buildEmailMap masterData !! id
  = if decide (id = "") then None else memberEmail masterData id.
Proof.
  case_decide as Hid.
  - subst id. unfold buildEmailMap. by rewrite emailMap_fold_empty_id.
  - by apply buildEmailMap_lookup.
Qed.

(** [ticketInfo] holds, for a key, the values of the first order line of
    the key. *)
Lemma aggregate_first_line (l : list EC.Row) (key : string) :
  (foldl aggregate_step ([], ∅) l).2 !! key = infoOf <$> head (linesOf key l).
Proof.
  induction l as [|x l IH] using rev_ind; [done|].
  rewrite foldl_app, linesOf_snoc. simpl foldl.
  destruct (foldl aggregate_step ([], ∅) l) as [req info]. simpl in IH.
  unfold aggregate_step. fold (lineKey x).
  destruct (decide (lineId x = "")) as [Hid|Hid].
  { rewrite decide_False by tauto. by rewrite app_nil_r. }
  cbn [snd].
  destruct (decide (lineKey x = key)) as [Hk|Hk].
  - rewrite decide_True by done. subst key. rewrite IH.
    destruct (linesOf (lineKey x) l) as [|line lines]; simpl.
    + by rewrite lookup_insert_eq.
    + done.
  - rewrite decide_False by tauto. rewrite app_nil_r, <- IH.
    destruct (info !! lineKey x); [done|]. by rewrite lookup_insert_ne.
Qed.

Lemma head_linesOf (key : string) (l : list EC.Row) (line : EC.Row) :
  head (linesOf key l) = Some line → line ∈ l ∧ lineId line ≠ "" ∧ lineKey line = key.
Proof.
  intros Hhead.
  assert (Hin : line ∈ linesOf key l).
  { destruct (linesOf key l); simplify_eq/=. apply list_elem_of_here. }
  unfold linesOf in Hin. apply list_elem_of_filter in Hin as [Hk Hin].
  apply list_elem_of_filter in Hin as [Hid Hin]. done.
Qed.

(** Every synthesised row is made from the first order line of its key. *)
Lemma rowsToAdd_elem_first (ss : Spreadsheet) (row : Row) :
  row ∈ rowsToAdd ss →
  ∃ line, head (linesOf (rowKey row) (drop 1 (ECData ss))) = Some line
    ∧ row = newRow (infoOf line)
              (default "" (buildEmailMap (MemberMaster ss) !! lineId line)).
Proof.
  rewrite rowsToAdd_spec. unfold aggregateRequirements. intros Hin.
  apply list_elem_of_bind in Hin as ([key needed] & Hrow & Hentry).
  unfold rowsFor in Hrow. cbn [fst snd] in Hrow.
  rewrite aggregate_first_line in Hrow.
  destruct (head (linesOf key (drop 1 (ECData ss)))) as [line|] eqn:Hhead;
    simpl in Hrow; [|by apply elem_of_nil in Hrow].
  apply elem_of_replicate_inv in Hrow. subst row.
  destruct (head_linesOf _ _ _ Hhead) as (_ & _ & Hk).
  exists line. by rewrite rowKey_newRow, Hk.
Qed.

(** X9.  What a row created by [syncECData] holds.  It is made from the
    first order line of its composite key: the trimmed id (not empty) and
    the normalised ticket type; the start time is the window
    [TICKET_CONFIG] has for that type, 11:00-12:00 when it has none, and
    what [setValues] stores for the inherited member when the type is the
    name of a member of [Object.prototype]; the e-mail cell is the address
    the MemberMaster sheet gives for the id, or empty when it gives none;
    for a GuestPass the name is the name of the order line followed by
    " (Guest)" and the note is "Guest Ticket", otherwise the name cell is
    copied and the note is empty; the inviter is empty. *)
Theorem created_row_contents (ss : Spreadsheet) (row : Row) :
  row ∈ rowsToAdd ss →
  ∃ line, head (linesOf (rowKey row) (drop 1 (ECData ss))) = Some line
    ∧ lineId line ≠ ""
    ∧ ID row = CStr (lineId line)
    ∧ TicketType row = CStr (normalizeTicketType (ticketTypeInput line))
    ∧ (if decide (normalizeTicketType (ticketTypeInput line) ∈ objectPrototypeNames)
       then StartTime row = storedMember (normalizeTicketType (ticketTypeInput line))
       else StartTime row
            = CStr (default "11:00-12:00"
                      (TICKET_CONFIG !! normalizeTicketType (ticketTypeInput line))))
    ∧ Email row = CStr (default "" (memberEmail (MemberMaster ss) (lineId line)))
    ∧ (if decide (normalizeTicketType (ticketTypeInput line) = "GuestPass")
       then Name row = CStr (toStr (EC.Name line) +:+ " (Guest)")
            ∧ Note row = CStr "Guest Ticket"
       else Name row = EC.Name line ∧ Note row = CStr "")
    ∧ Inviter row = CStr "".
Proof.
  intros Hrow. destruct (rowsToAdd_elem_first ss row Hrow) as (line & Hhead & Hnew).
  destruct (head_linesOf _ _ _ Hhead) as (_ & Hid & _).
  exists line. split; [done|]. split; [done|].
  rewrite buildEmailMap_lookup in Hnew by done.
  subst row. unfold newRow, infoOf, lineTicketType.
  cbn [ID TicketType StartTime Email Name Note Inviter Info.id Info.name Info.ticketType
       Info.startTime].
  split; [done|]. split; [done|]. split.
  { rewrite lookupStartTime_cases. case_decide as Hin.
    - by destruct (objectPrototypeNames_unknown _ Hin) as [_ ->].
    - by destruct (TICKET_CONFIG !! normalizeTicketType (ticketTypeInput line)). }
  split; [done|]. split; [by case_decide|done].
Qed.

End Directory.

(** X9 at the sample orders: the guest ticket of Bob, who is not in the
    member directory. *)
Lemma created_row_contents_witness :
  let row := mkRow (CStr "B2") (CStr "Bob (Guest)") (CStr "") (CStr "") (CStr "") (CStr "")
               (CStr "GuestPass") (CStr "11:00-12:00") (CStr "") (CStr "")
               (CStr "Guest Ticket") in
  ∃ line,
    head (linesOf (H := runPlatform) (rowKey (H := runPlatform) row)
            (drop 1 (ECData sampleOrders))) = Some line
    ∧ lineId (H := runPlatform) line ≠ ""
    ∧ ID row = CStr (lineId (H := runPlatform) line)
    ∧ TicketType row = CStr (normalizeTicketType (ticketTypeInput (H := runPlatform) line))
    ∧ (if decide (normalizeTicketType (ticketTypeInput (H := runPlatform) line)
                  ∈ objectPrototypeNames)
       then StartTime row
            = storedMember (Platform := runPlatform)
                (normalizeTicketType (ticketTypeInput (H := runPlatform) line))
       else StartTime row
            = CStr (default "11:00-12:00"
                      (TICKET_CONFIG
                         !! normalizeTicketType (ticketTypeInput (H := runPlatform) line))))
    ∧ Email row
      = CStr (default "" (memberEmail (H := runPlatform) (MemberMaster sampleOrders)
                            (lineId (H := runPlatform) line)))
    ∧ (if decide (normalizeTicketType (ticketTypeInput (H := runPlatform) line) = "GuestPass")
       then Name row = CStr (toStr (H := runPlatform) (EC.Name line) +:+ " (Guest)")
            ∧ Note row = CStr "Guest Ticket"
       else Name row = EC.Name line ∧ Note row = CStr "")
    ∧ Inviter row = CStr "".
Proof.
  intros row. apply (created_row_contents (H := runPlatform) sampleOrders row).
  apply (bool_decide_unpack _). by vm_compute.
Defined.

(** * Reconciliation: the counts of the message *)

Section MessageCounts.
Context `{Platform}.

Lemma remove_dups_replicate_app (k : string) (n : nat) (rest : list string) :
  k ∉ rest →
  remove_dups (replicate n k ++ rest)%list
  = ((if decide (n = 0%nat) then [] else [k]) ++ remove_dups rest)%list.
Proof.
  intros Hk. induction n as [|n IH]; [done|].
  cbn [replicate app remove_dups].
  destruct n as [|n].
  - cbn [replicate app]. by destruct (decide_rel (∈) k rest).
  - destruct (decide_rel (∈) k (replicate (S n) k ++ rest)%list) as [_|Hout].
    + by rewrite IH.
    + exfalso. apply Hout. cbn [replicate app]. apply list_elem_of_here.
Qed.

Lemma filter_replicate (P : Row → Prop) `{∀ r, Decision (P r)} (n : nat) (r : Row) :
  filter P (replicate n r) = if decide (P r) then replicate n r else [].
Proof.
  induction n as [|n IH]; [by case_decide|].
  cbn [replicate]. rewrite filter_cons, IH. by case_decide.
Qed.

(** The number of keys among the rows of one entry followed by rows of
    other keys. *)
Lemma distinctKeys_entry (P : Row → Prop) `{∀ r, Decision (P r)} (n : nat) (r : Row)
    (rows : list Row) :
  Forall (λ r', rowKey r' ≠ rowKey r) rows →
  distinctKeys (filter P (replicate n r ++ rows)%list)
  = (if decide (n ≠ 0%nat ∧ P r) then 1 else 0) + distinctKeys (filter P rows).
Proof.
  intros Hrows. unfold distinctKeys.
  rewrite filter_app, filter_replicate, fmap_app.
  assert (Hout : rowKey r ∉ rowKey <$> filter P rows).
  { intros Hin. apply list_elem_of_fmap in Hin as (r' & Heq & Hr').
    apply list_elem_of_filter in Hr' as [_ Hr'].
    rewrite Forall_forall in Hrows. by apply (Hrows r' Hr'). }
  destruct (decide (P r)) as [Hp|Hp].
  - rewrite fmap_replicate, remove_dups_replicate_app by done.
    destruct (decide (n = 0%nat)) as [->|Hn].
    + rewrite decide_False by tauto. simpl. lia.
    + rewrite decide_True by tauto. simpl length. lia.
  - rewrite decide_False by tauto. simpl. lia.
Qed.

(** The two counters of step 4: the number of keys among the rows pushed
    that have, respectively do not have, an e-mail address. *)
Lemma generate_fold_counts (emailMap : gmap string string) (ticketInfo : gmap string Info.t)
    (existingCounts : gmap string Z) (entries : list (string * Z))
    (rows : list Row) (matched missing : Z) :
  NoDup entries.*1 →
  (∀ k n, (k, n) ∈ entries →
          ∃ line, ticketInfo !! k = Some (infoOf line) ∧ lineKey line = k) →
  (foldl (generate_step emailMap ticketInfo existingCounts) (rows, matched, missing)
     entries).1.2
  = matched + distinctKeys (filter (λ r, Email r ≠ CStr "")
                              (entries ≫= rowsFor emailMap ticketInfo existingCounts))
  ∧ (foldl (generate_step emailMap ticketInfo existingCounts) (rows, matched, missing)
       entries).2
    = missing + distinctKeys (filter (λ r, Email r = CStr "")
                                (entries ≫= rowsFor emailMap ticketInfo existingCounts)).
Proof.
  intros Hnd Hinfo. revert rows matched missing.
  induction entries as [|[k n] entries IH]; intros rows matched missing.
  { unfold distinctKeys. simpl. lia. }
  rewrite fmap_cons in Hnd. apply NoDup_cons in Hnd as [Hk Hnd]. simpl in Hk.
  destruct (Hinfo k n (list_elem_of_here _ _)) as (line & Hi & Hlk).
  assert (Hrest : Forall (λ r', rowKey r' ≠ k)
                    (entries ≫= rowsFor emailMap ticketInfo existingCounts)).
  { apply Forall_forall. intros r' Hr' Heq.
    apply list_elem_of_bind in Hr' as ([k' n'] & Hr' & He').
    destruct (Hinfo k' n' (list_elem_of_further _ _ _ He')) as (line' & Hi' & Hlk').
    unfold rowsFor in Hr'. cbn [fst snd] in Hr'. rewrite Hi' in Hr'.
    apply elem_of_replicate_inv in Hr'. subst r'. rewrite rowKey_newRow in Heq.
    apply Hk. apply list_elem_of_fmap. exists (k', n'). split; [|done]. simpl. congruence. }
  change (foldl ?f ?a ((k, n) :: entries)) with (foldl f (f a (k, n)) entries).
  rewrite bind_cons.
  assert (Hrows : rowsFor emailMap ticketInfo existingCounts (k, n)
                  = replicate (Z.to_nat (n - default 0 (existingCounts !! k)))
                      (newRow (infoOf line) (default "" (emailMap !! lineId line)))).
  { unfold rowsFor. cbn [fst snd]. by rewrite Hi. }
  rewrite Hrows.
  rewrite !distinctKeys_entry by (by rewrite rowKey_newRow, Hlk).
  unfold generate_step at 2 4. rewrite Hi. cbn [Info.id infoOf].
  set (email := default "" (emailMap !! lineId line)).
  set (toCreate := n - default 0 (existingCounts !! k)).
  assert (Hemail : Email (newRow (infoOf line) email) = CStr email) by done.
  rewrite Hemail.
  destruct (Z.ltb_spec 0 toCreate) as [Hpos|Hneg].
  - destruct (IH Hnd (λ k' n' He', Hinfo k' n' (list_elem_of_further _ _ _ He'))
                (rows ++ replicate (Z.to_nat toCreate) (newRow (infoOf line) email))%list
                (if decide (email = "") then matched else matched + 1)
                (if decide (email = "") then missing + 1 else missing)) as [IH1 IH2].
    rewrite IH1, IH2.
    destruct (decide (email = "")) as [He|He].
    + rewrite decide_False by (intros [_ Hc]; apply Hc; by rewrite He).
      rewrite decide_True by (split; [lia|by rewrite He]). lia.
    + rewrite decide_True by (split; [lia|congruence]).
      rewrite decide_False by (intros [_ Hc]; congruence). lia.
  - destruct (IH Hnd (λ k' n' He', Hinfo k' n' (list_elem_of_further _ _ _ He'))
                rows matched missing) as [IH1 IH2].
    rewrite IH1, IH2. rewrite !decide_False by (intros [Hc _]; lia). lia.
Qed.

(** Every key among the rows pushed has an address or has none. *)
Lemma distinctKeys_split (emailMap : gmap string string) (ticketInfo : gmap string Info.t)
    (existingCounts : gmap string Z) (entries : list (string * Z)) :
  NoDup entries.*1 →
  (∀ k n, (k, n) ∈ entries →
          ∃ line, ticketInfo !! k = Some (infoOf line) ∧ lineKey line = k) →
  distinctKeys (filter (λ r, Email r ≠ CStr "")
                  (entries ≫= rowsFor emailMap ticketInfo existingCounts))
  + distinctKeys (filter (λ r, Email r = CStr "")
                    (entries ≫= rowsFor emailMap ticketInfo existingCounts))
  = distinctKeys (entries ≫= rowsFor emailMap ticketInfo existingCounts).
Proof.
  intros Hnd Hinfo.
  induction entries as [|[k n] entries IH]; [done|].
  rewrite fmap_cons in Hnd. apply NoDup_cons in Hnd as [Hk Hnd]. simpl in Hk.
  destruct (Hinfo k n (list_elem_of_here _ _)) as (line & Hi & Hlk).
  assert (Hrest : Forall (λ r', rowKey r' ≠ k)
                    (entries ≫= rowsFor emailMap ticketInfo existingCounts)).
  { apply Forall_forall. intros r' Hr' Heq.
    apply list_elem_of_bind in Hr' as ([k' n'] & Hr' & He').
    destruct (Hinfo k' n' (list_elem_of_further _ _ _ He')) as (line' & Hi' & Hlk').
    unfold rowsFor in Hr'. cbn [fst snd] in Hr'. rewrite Hi' in Hr'.
    apply elem_of_replicate_inv in Hr'. subst r'. rewrite rowKey_newRow in Heq.
    apply Hk. apply list_elem_of_fmap. exists (k', n'). split; [|done]. simpl. congruence. }
  rewrite bind_cons. unfold rowsFor at 1 3 5. cbn [fst snd]. rewrite Hi.
  assert (Hall : ∀ l : list Row, filter (λ _, True) l = l).
  { intros l. apply filter_all. by apply Forall_forall. }
  rewrite <- (Hall (_ ++ _)%list) at 3.
  rewrite !distinctKeys_entry by (by rewrite rowKey_newRow, Hlk).
  rewrite Hall.
  specialize (IH Hnd (λ k' n' He', Hinfo k' n' (list_elem_of_further _ _ _ He'))).
  repeat case_decide; try lia; tauto.
Qed.

(** X10.  The message of a run that is not cut short.  "Added" is the
    number of rows written; "Matched emails" and "Missing emails" count
    composite keys, not tickets: the number of keys among the rows written
    with an e-mail address, and among those written without one. *)
Theorem syncECData_message (ss : Spreadsheet) :
  ECData ss ≠ [] → MemberMaster ss ≠ [] →
  (syncECData ss).1
  = "Synced. Added " +:+ pretty (Z.of_nat (length (rowsToAdd ss)))
    +:+ " new tickets. Matched emails: "
    +:+ pretty (distinctKeys (filter (λ r, Email r ≠ CStr "") (rowsToAdd ss)))
    +:+ ". Missing emails: "
    +:+ pretty (distinctKeys (filter (λ r, Email r = CStr "") (rowsToAdd ss))) +:+ "."
  ∧ distinctKeys (filter (λ r, Email r ≠ CStr "") (rowsToAdd ss))
    + distinctKeys (filter (λ r, Email r = CStr "") (rowsToAdd ss))
    = distinctKeys (rowsToAdd ss).
Proof.
  intros Hec Hmaster.
  assert (Hcounts :
    (generateMissing ss).1.2
    = distinctKeys (filter (λ r, Email r ≠ CStr "") (rowsToAdd ss))
    ∧ (generateMissing ss).2
      = distinctKeys (filter (λ r, Email r = CStr "") (rowsToAdd ss))
    ∧ distinctKeys (filter (λ r, Email r ≠ CStr "") (rowsToAdd ss))
      + distinctKeys (filter (λ r, Email r = CStr "") (rowsToAdd ss))
      = distinctKeys (rowsToAdd ss)).
  { rewrite rowsToAdd_spec. unfold generateMissing, aggregateRequirements.
    destruct (aggregate_invariant (drop 1 (ECData ss))) as (Hnd & _ & _ & Hinfo & _).
    destruct (foldl aggregate_step ([], ∅) (drop 1 (ECData ss))) as [req info].
    cbn [fst snd] in *.
    assert (Hinfo' : ∀ k n, (k, n) ∈ req →
                       ∃ line, info !! k = Some (infoOf line) ∧ lineKey line = k).
    { intros k n Hin.
      destruct (Hinfo k) as (line & _ & _ & Hlk & Hi); [|by exists line].
      apply list_elem_of_fmap. by exists (k, n). }
    destruct (generate_fold_counts (buildEmailMap (MemberMaster ss)) info
                (countExisting (Attendees ss)) req [] 0 0 Hnd Hinfo') as [H1 H2].
    rewrite H1, H2. split; [lia|]. split; [lia|].
    by apply distinctKeys_split. }
  destruct Hcounts as (Hm & Hx & Hsum). split; [|done].
  rewrite <- Hm, <- Hx. unfold syncECData, rowsToAdd.
  destruct (ECData ss) eqn:He; [done|]. destruct (MemberMaster ss) eqn:Hma; [done|].
  by destruct (generateMissing ss) as [[rows matched] missing].
Qed.

End MessageCounts.

(** X10 at the sample orders: three tickets of two keys are added, one key
    with an address. *)
Lemma syncECData_message_witness :
  (syncECData (H := runPlatform) sampleOrders).1
  = "Synced. Added 3 new tickets. Matched emails: 1. Missing emails: 1.".
Proof.
  destruct (syncECData_message (H := runPlatform) sampleOrders) as [Hmsg _].
  - discriminate.
  - discriminate.
  - rewrite Hmsg. by vm_compute.
Defined.

(** * Reconciliation next to the check-ins *)

Section SyncAndStore.
Context `{Platform}.

(** The rows a run writes below the store: [rowsToAdd], or none when the
    run is cut short. *)
Lemma syncECData_attendees (ss : Spreadsheet) :
  ∃ rows, Attendees (syncECData ss).2 = (Attendees ss ++ rows)%list
    ∧ (rows = [] ∨ rows = rowsToAdd ss).
Proof.
  unfold syncECData, rowsToAdd.
  destruct (ECData ss) eqn:He; [exists []; by rewrite app_nil_r; auto|].
  destruct (MemberMaster ss) eqn:Hm; [exists []; by rewrite app_nil_r; auto|].
  destruct (generateMissing ss) as [[rows matched] missing]. exists rows. auto.
Qed.

Lemma syncECData_store (ss : Spreadsheet) :
  Attendees (syncECData ss).2
  = (Attendees ss
       ++ if decide (ECData ss = [] ∨ MemberMaster ss = []) then [] else rowsToAdd ss)%list.
Proof.
  unfold syncECData, rowsToAdd.
  destruct (ECData ss) eqn:He; [by rewrite decide_True, app_nil_r by auto|].
  destruct (MemberMaster ss) eqn:Hm; [by rewrite decide_True, app_nil_r by auto|].
  rewrite decide_False by (by intros [?|?]).
  by destruct (generateMissing ss) as [[rows matched] missing].
Qed.

Lemma rowsToAdd_new (ss : Spreadsheet) (row : Row) :
  row ∈ rowsToAdd ss → freshTicket row ∧ hasId row = true.
Proof.
  intros Hrow. destruct (rowsToAdd_elem ss row Hrow) as (line & email & Hline & ->).
  split; [apply newRow_fresh|].
  apply list_elem_of_filter in Hline as [Hid _].
  unfold hasId. simpl. by destruct (String.eqb_spec (lineId line) "").
Qed.

Lemma tokens_unique_app (sheet rows : list Row) :
  Forall (λ r, Token r = CStr "") rows →
  tokens_unique sheet → tokens_unique (sheet ++ rows).
Proof.
  intros Hrows. unfold tokens_unique, dataRows.
  assert (Hnone : ∀ l : list Row, Forall (λ r, Token r = CStr "") l →
                    filter (λ t, truthy t = true) (Token <$> l) = []).
  { intros l Hl. induction Hl as [|r l Hr _ IH]; [done|].
    rewrite fmap_cons, filter_cons_False; [done|]. by rewrite Hr. }
  destruct sheet as [|h sheet].
  - intros _. simpl app. rewrite Hnone; [apply NoDup_nil_2|].
    by apply Forall_drop.
  - simpl. rewrite !drop_0, fmap_app, filter_app, (Hnone rows Hrows), app_nil_r. done.
Qed.

(** X11.  A run of [syncECData] only adds rows below the store: every row
    of the store stays where it is, cell by cell, so no check-in time,
    token or sent flag is touched.  The rows below are new tickets with an
    id and without token, check-in time, sent flag or re-entry history, so a
    store with unique tokens keeps unique tokens.  The run never changes an
    ECData or MemberMaster sheet that has content; when one of the two is
    empty, the store is left as it is. *)
Theorem syncECData_keeps_the_store (ss : Spreadsheet) :
  (∀ i row, Attendees ss !! i = Some row → Attendees (syncECData ss).2 !! i = Some row)
  ∧ (∀ row, row ∈ drop (length (Attendees ss)) (Attendees (syncECData ss).2) →
            freshTicket row ∧ hasId row = true)
  ∧ (tokens_unique (Attendees ss) → tokens_unique (Attendees (syncECData ss).2))
  ∧ (ECData ss ≠ [] → ECData (syncECData ss).2 = ECData ss)
  ∧ (MemberMaster ss ≠ [] → MemberMaster (syncECData ss).2 = MemberMaster ss)
  ∧ (ECData ss = [] ∨ MemberMaster ss = [] → Attendees (syncECData ss).2 = Attendees ss).
Proof.
  destruct (syncECData_attendees ss) as (rows & Hatt & Hrows).
  assert (Hnew : ∀ row, row ∈ rows → freshTicket row ∧ hasId row = true).
  { intros row Hrow. destruct Hrows as [->| ->]; [by apply elem_of_nil in Hrow|].
    by apply (rowsToAdd_new ss). }
  split; [|split; [|split; [|split; [|split]]]].
  - intros i row Hi. rewrite Hatt. by apply lookup_app_l_Some.
  - intros row. rewrite Hatt, drop_app_length. apply Hnew.
  - rewrite Hatt. apply tokens_unique_app. apply Forall_forall.
    intros row Hrow. by destruct (Hnew row Hrow) as [[? _] _].
  - intros Hec. unfold syncECData.
    destruct (ECData ss) eqn:He; [done|]. destruct (MemberMaster ss) eqn:Hm; [done|].
    by destruct (generateMissing ss) as [[? ?] ?].
  - intros Hmaster. unfold syncECData.
    destruct (ECData ss) eqn:He; [done|]. destruct (MemberMaster ss) eqn:Hm; [done|].
    by destruct (generateMissing ss) as [[? ?] ?].
  - intros Hempty. unfold syncECData.
    destruct (ECData ss) eqn:He; [done|]. destruct (MemberMaster ss) eqn:Hm; [done|].
    by destruct Hempty.
Qed.

Lemma cnt_all (p : Row → bool) (l : list Row) :
  (∀ r, r ∈ l → p r = true) → cnt p l = Z.of_nat (length l).
Proof.
  intros Hall. unfold cnt. f_equal. f_equal. apply filter_all. by apply Forall_forall.
Qed.

Lemma cnt_none (p : Row → bool) (l : list Row) :
  (∀ r, r ∈ l → p r = false) → cnt p l = 0.
Proof.
  intros Hnone. unfold cnt. rewrite filter_none; [done|].
  apply Forall_forall. intros r Hr. rewrite (Hnone r Hr). done.
Qed.

(** X12.  The dashboard after a run of [syncECData] on a store that has
    its header row: [total] and [notCheckedIn] grow by the number of rows
    the run has written, and [checkedIn] is what it was. *)
Theorem dashboard_after_sync (ss : Spreadsheet) :
  Attendees ss ≠ [] →
  let before := getDashboardData (Attendees ss) in
  let after := getDashboardData (Attendees (syncECData ss).2) in
  let added := Z.of_nat (length (Attendees (syncECData ss).2))
               - Z.of_nat (length (Attendees ss)) in
  total after = total before + added
  ∧ checkedIn after = checkedIn before
  ∧ notCheckedIn after = notCheckedIn before + added.
Proof.
  intros Hatt before after added.
  destruct (syncECData_attendees ss) as (rows & Hsync & Hrows).
  assert (Hnew : ∀ row, row ∈ rows → freshTicket row ∧ hasId row = true).
  { intros row Hrow. destruct Hrows as [->| ->]; [by apply elem_of_nil in Hrow|].
    by apply (rowsToAdd_new ss). }
  destruct (getDashboardData_fields (Attendees ss)) as (Ht & Hc & Hn & _).
  destruct (getDashboardData_fields (Attendees (syncECData ss).2)) as (Ht' & Hc' & Hn' & _).
  assert (Hdata : dataRows (Attendees (syncECData ss).2)
                  = (dataRows (Attendees ss) ++ rows)%list).
  { rewrite Hsync. unfold dataRows. destruct (Attendees ss); [done|]. by simpl; rewrite !drop_0. }
  assert (Hadded : added = Z.of_nat (length rows)).
  { unfold added. rewrite Hsync, length_app. lia. }
  rewrite Hdata, !cnt_app in *.
  rewrite (cnt_all hasId rows) in Ht' by (intros r Hr; by destruct (Hnew r Hr)).
  rewrite (cnt_none (λ r, hasId r && checkedInRow r) rows) in Hc'.
  2:{ intros r Hr. destruct (Hnew r Hr) as [(_ & Hc0 & _) _].
      unfold checkedInRow. rewrite Hc0. apply andb_false_r. }
  subst before after. lia.
Qed.

(** Step 3 reads the id and the ticket type of a row. *)
Lemma existing_fold_columns (l l' : list Row) (m : gmap string Z) :
  (λ r, (ID r, TicketType r)) <$> l = (λ r, (ID r, TicketType r)) <$> l' →
  foldl existing_step m l = foldl existing_step m l'.
Proof.
  revert l' m. induction l as [|r l IH]; intros [|r' l'] m Heq; try done.
  rewrite !fmap_cons in Heq.
  assert (Hr : (ID r, TicketType r) = (ID r', TicketType r')) by congruence.
  assert (Hl : (λ r, (ID r, TicketType r)) <$> l = (λ r, (ID r, TicketType r)) <$> l')
    by congruence.
  injection Hr as Hid Htype. simpl.
  assert (Hstep : existing_step m r = existing_step m r').
  { unfold existing_step, existingKey, existingId. by rewrite Hid, Htype. }
  rewrite Hstep. by apply IH.
Qed.

Lemma rowsToAdd_columns (ss : Spreadsheet) (sheet : Sheet) :
  (λ r, (ID r, TicketType r)) <$> sheet = (λ r, (ID r, TicketType r)) <$> Attendees ss →
  rowsToAdd (mkSpreadsheet sheet (ECData ss) (MemberMaster ss)) = rowsToAdd ss.
Proof.
  intros Hcols. unfold rowsToAdd, generateMissing. cbn [Attendees ECData MemberMaster].
  unfold countExisting.
  rewrite (existing_fold_columns (drop 1 sheet) (drop 1 (Attendees ss))); [done|].
  by rewrite !fmap_drop, Hcols.
Qed.

(** A scan passes over rows appended without the token. *)
Lemma checkInUser_loop_app (token : string) (now : Z) (sheet rows rest : list Row) (i : nat) :
  Forall (λ r, Token r ≠ CStr token) rows →
  (i + length rest = length sheet)%nat →
  checkInUser_loop token now (sheet ++ rows) i (rest ++ rows)
  = ((checkInUser_loop token now sheet i rest).1,
     ((checkInUser_loop token now sheet i rest).2 ++ rows)%list).
Proof.
  intros Hrows. revert i. induction rest as [|r rest IH]; intros i Hlen.
  { simpl app. by rewrite checkInUser_loop_miss. }
  simpl in *. destruct (decide (Token r = CStr token)) as [_|_].
  - rewrite !setValue_alter.
    destruct (truthy (CheckInTime r)); cbn [fst snd]; by rewrite alter_app_l by lia.
  - apply IH. lia.
Qed.

Lemma checkInUser_app (token : string) (now : Z) (sheet rows : list Row) :
  Forall (λ r, Token r ≠ CStr token) rows →
  checkInUser token now (sheet ++ rows)
  = ((checkInUser token now sheet).1, ((checkInUser token now sheet).2 ++ rows)%list).
Proof.
  intros Hrows. unfold checkInUser. case_decide; [done|].
  destruct sheet as [|h sheet].
  - simpl app. rewrite checkInUser_loop_miss by (by apply Forall_drop). done.
  - simpl. rewrite !drop_0. apply (checkInUser_loop_app token now (h :: sheet)); [done|].
    simpl. lia.
Qed.

(** X13.  A QR scan and a run of [syncECData] do not interfere: scanning a
    token after the run gives the outcome it gives before the run, and the
    store is the same whether the scan comes before or after the run. *)
Theorem scan_and_sync_commute (ss : Spreadsheet) (token : string) (now : Z) :
  let scanned := checkInUser token now (Attendees ss) in
  checkInUser token now (Attendees (syncECData ss).2)
  = (scanned.1,
     Attendees (syncECData (mkSpreadsheet scanned.2 (ECData ss) (MemberMaster ss))).2).
Proof.
  intros scanned.
  assert (Hcols : (λ r, (ID r, TicketType r)) <$> scanned.2
                  = (λ r, (ID r, TicketType r)) <$> Attendees ss).
  { subst scanned.
    destruct (checkInUser_effect token now (Attendees ss))
      as [[-> _]|[(i & row & Hi & Hrow & _ & ->)|(i & row & Hi & Hrow & _ & ->)]];
      [done|by apply (fmap_insert_same _ _ _ row)..]. }
  assert (Hadd := rowsToAdd_columns ss scanned.2 Hcols).
  rewrite !syncECData_store. cbn [Attendees ECData MemberMaster]. rewrite Hadd.
  set (rows := if decide (ECData ss = [] ∨ MemberMaster ss = []) then [] else rowsToAdd ss).
  destruct (decide (token = "")) as [->|Htok].
  { subst scanned. unfold checkInUser. by rewrite !decide_True. }
  apply checkInUser_app. apply Forall_forall. intros r Hr.
  assert (Hin : r ∈ rowsToAdd ss).
  { subst rows. case_decide; [by apply elem_of_nil in Hr|done]. }
  destruct (rowsToAdd_new ss r Hin) as [[Ht _] _]. rewrite Ht. congruence.
Qed.

End SyncAndStore.

(** X12 at the sample orders: three tickets are added. *)
Lemma dashboard_after_sync_witness :
  total (getDashboardData (H := runPlatform)
           (Attendees (syncECData (H := runPlatform) sampleOrders).2))
  = total (getDashboardData (H := runPlatform) (Attendees sampleOrders)) + 3.
Proof.
  destruct (dashboard_after_sync (H := runPlatform) sampleOrders) as [Ht _].
  - discriminate.
  - rewrite Ht. by vm_compute.
Defined.

(** * Tokens and QR codes *)

Section TokenFacts.
Context `{Platform} `{Digest}.

Lemma str_app_nil_l (s : string) : "" +:+ s = s.
Proof. reflexivity. Qed.

(** The two digits [generateHash] writes for a byte. *)
Lemma hexByte_digits (b : Z) :
  -128 ≤ b < 256 →
  hexByte b = String (hexDigit (b mod 256 / 16)) (String (hexDigit (b mod 16)) "").
Proof.
  intros Hb.
  assert (Hall : Forall (λ b, hexByte b
                   = String (hexDigit (b mod 256 / 16)) (String (hexDigit (b mod 16)) ""))
                   (seqZ (-128) 384)).
  { apply (bool_decide_unpack _). by vm_compute. }
  rewrite Forall_forall in Hall. apply Hall, elem_of_seqZ. lia.
Qed.

Lemma hexDigit_lower (d : Z) : isLowerHex (hexDigit d) = true.
Proof.
  destruct d as [|p|p]; try done.
  do 4 (destruct p as [p|p|]; try done).
Qed.

Lemma hexDigit_inj (d e : Z) : 0 ≤ d < 16 → 0 ≤ e < 16 → hexDigit d = hexDigit e → d = e.
Proof.
  intros Hd He.
  assert (Hall : Forall (λ d, Forall (λ e, hexDigit d = hexDigit e → d = e) (seqZ 0 16))
                   (seqZ 0 16)).
  { apply (bool_decide_unpack _). by vm_compute. }
  rewrite Forall_forall in Hall. specialize (Hall d). rewrite Forall_forall in Hall.
  apply Hall; apply elem_of_seqZ; lia.
Qed.

Lemma hexByte_inj (a b : Z) :
  -128 ≤ a < 128 → -128 ≤ b < 128 → hexByte a = hexByte b → a = b.
Proof.
  intros Ha Hb. rewrite !hexByte_digits by lia. intros [= Hhi Hlo].
  apply hexDigit_inj in Hhi; [|Z.div_mod_to_equations; lia..].
  apply hexDigit_inj in Hlo; [|Z.div_mod_to_equations; lia..].
  Z.div_mod_to_equations. lia.
Qed.

Lemma hexBytes_length (bytes : list Z) :
  Forall (λ b, -128 ≤ b < 256) bytes →
  String.length (foldr String.append "" (hexByte <$> bytes)) = (2 * length bytes)%nat.
Proof.
  induction 1 as [|b bytes Hb _ IH]; [done|].
  rewrite fmap_cons. cbn [foldr]. rewrite hexByte_digits by done.
  rewrite !str_app_cons, str_app_nil_l. cbn [String.length]. rewrite IH. simpl length. lia.
Qed.

Lemma hexBytes_lower (bytes : list Z) :
  Forall (λ b, -128 ≤ b < 256) bytes →
  Forall (λ c, isLowerHex c = true)
    (list_ascii_of_string (foldr String.append "" (hexByte <$> bytes))).
Proof.
  induction 1 as [|b bytes Hb _ IH]; [by constructor|].
  rewrite fmap_cons. cbn [foldr]. rewrite hexByte_digits by done.
  rewrite !str_app_cons, str_app_nil_l. cbn [list_ascii_of_string].
  repeat (constructor; [apply hexDigit_lower|]). done.
Qed.

Lemma hexBytes_inj (xs ys : list Z) :
  Forall (λ b, -128 ≤ b < 128) xs → Forall (λ b, -128 ≤ b < 128) ys →
  foldr String.append "" (hexByte <$> xs) = foldr String.append "" (hexByte <$> ys) →
  xs = ys.
Proof.
  intros Hxs. revert ys. induction Hxs as [|x xs Hx _ IH]; intros ys Hys Heq.
  - destruct Hys as [|y ys Hy _]; [done|]. exfalso.
    rewrite fmap_cons in Heq. cbn [foldr] in Heq. rewrite hexByte_digits in Heq by lia.
    rewrite !str_app_cons in Heq. done.
  - destruct Hys as [|y ys Hy Hys].
    { exfalso. rewrite fmap_cons in Heq. cbn [foldr] in Heq.
      rewrite hexByte_digits in Heq by lia. rewrite !str_app_cons in Heq. done. }
    rewrite !fmap_cons in Heq. cbn [foldr] in Heq.
    assert (Hdx := hexByte_digits x ltac:(lia)). assert (Hdy := hexByte_digits y ltac:(lia)).
    rewrite Hdx, Hdy, !str_app_cons, !str_app_nil_l in Heq.
    injection Heq as Hhi Hlo Hrest.
    f_equal; [|by apply IH].
    apply hexByte_inj; [done..|]. rewrite Hdx, Hdy. by rewrite Hhi, Hlo.
Qed.

(** X14.  When the digest consists of signed bytes, the hash is the
    digest written with two lower-case hexadecimal digits per byte (64
    characters for the 32 bytes of SHA-256), and two inputs get the same
    hash only if their digests are the same. *)
Theorem generateHash_is_hex (input input' : string) :
  Forall (λ b, -128 ≤ b < 128) (computeDigest input) →
  Forall (λ b, -128 ≤ b < 128) (computeDigest input') →
  String.length (generateHash input) = (2 * length (computeDigest input))%nat
  ∧ (length (computeDigest input) = 32%nat → String.length (generateHash input) = 64%nat)
  ∧ Forall (λ c, isLowerHex c = true) (list_ascii_of_string (generateHash input))
  ∧ (generateHash input = generateHash input' → computeDigest input = computeDigest input').
Proof.
  intros Hin Hin'. unfold generateHash.
  assert (Hwide : Forall (λ b, -128 ≤ b < 256) (computeDigest input)).
  { eapply Forall_impl; [exact Hin|]. simpl. lia. }
  split; [by apply hexBytes_length|]. split; [|split].
  - intros Hlen. rewrite hexBytes_length, Hlen by done. done.
  - by apply hexBytes_lower.
  - by apply hexBytes_inj.
Qed.

End TokenFacts.

(** X14 with the stand-in digest. *)
Lemma generateHash_is_hex_witness :
  String.length (generateHash (H0 := runDigest) "C3_3_1000") = 18%nat
  ∧ (generateHash (H0 := runDigest) "C3_3_1000" = generateHash (H0 := runDigest) "C3_3_1001"
     → computeDigest (Digest := runDigest) "C3_3_1000"
       = computeDigest (Digest := runDigest) "C3_3_1001").
Proof.
  destruct (generateHash_is_hex (H0 := runDigest) "C3_3_1000" "C3_3_1001")
    as (Hlen & _ & _ & Hinj).
  - apply (bool_decide_unpack _). by vm_compute.
  - apply (bool_decide_unpack _). by vm_compute.
  - split; [exact Hlen|exact Hinj].
Defined.

(** * The QR code URL *)

Lemma str_app_inv_head (p a b : string) : p +:+ a = p +:+ b → a = b.
Proof.
  induction p as [|c p IH]; [done|]. rewrite !str_app_cons. intros [= Heq]. by apply IH.
Qed.

Lemma hexDigitUpper_unreserved (d : Z) : uriUnreserved (hexDigitUpper d) = true.
Proof.
  destruct d as [|p|p]; try done.
  do 4 (destruct p as [p|p|]; try done).
Qed.

Lemma hexDigitUpper_inj (d e : Z) :
  0 ≤ d < 16 → 0 ≤ e < 16 → hexDigitUpper d = hexDigitUpper e → d = e.
Proof.
  intros Hd He.
  assert (Hall : Forall (λ d, Forall (λ e, hexDigitUpper d = hexDigitUpper e → d = e)
                                (seqZ 0 16)) (seqZ 0 16)).
  { apply (bool_decide_unpack _). by vm_compute. }
  rewrite Forall_forall in Hall. specialize (Hall d). rewrite Forall_forall in Hall.
  apply Hall; apply elem_of_seqZ; lia.
Qed.

Lemma isLowerHex_unreserved (c : ascii) : isLowerHex c = true → uriUnreserved c = true.
Proof.
  unfold isLowerHex. intros Hc. apply bool_decide_eq_true in Hc.
  repeat (apply elem_of_cons in Hc as [->|Hc]; [done|]). by apply elem_of_nil in Hc.
Qed.

Lemma byte_bound (c : ascii) : 0 ≤ Z.of_N (byte c) < 256.
Proof. unfold byte. pose proof (N_ascii_bounded c). lia. Qed.

Lemma byte_inj (a c : ascii) : byte a = byte c → a = c.
Proof.
  unfold byte. intros Heq. by rewrite <- (ascii_N_embedding a), <- (ascii_N_embedding c), Heq.
Qed.

(** A string of unreserved characters is encoded as itself. *)
Lemma encodeURIComponent_unreserved (s : string) :
  Forall (λ c, uriUnreserved c = true) (list_ascii_of_string s) → encodeURIComponent s = s.
Proof.
  induction s as [|c s IH]; [done|]. cbn [list_ascii_of_string encodeURIComponent].
  intros Hs. apply Forall_cons in Hs as [Hc Hs]. by rewrite Hc, IH.
Qed.

Lemma encodeURIComponent_chars (s : string) :
  Forall (λ c, uriUnreserved c = true ∨ c = "%"%char)
    (list_ascii_of_string (encodeURIComponent s)).
Proof.
  induction s as [|c s IH]; [by constructor|]. cbn [encodeURIComponent].
  destruct (uriUnreserved c) eqn:Hc; cbn [list_ascii_of_string].
  - constructor; [by left|done].
  - constructor; [by right|].
    constructor; [left; apply hexDigitUpper_unreserved|].
    constructor; [left; apply hexDigitUpper_unreserved|done].
Qed.

Lemma encodeURIComponent_inj (s t : string) :
  encodeURIComponent s = encodeURIComponent t → s = t.
Proof.
  revert t. induction s as [|a s IH]; intros [|c t]; cbn [encodeURIComponent].
  - done.
  - by destruct (uriUnreserved c).
  - by destruct (uriUnreserved a).
  - destruct (uriUnreserved a) eqn:Ha, (uriUnreserved c) eqn:Hc.
    + intros [= -> Heq]. f_equal. by apply IH.
    + intros [= -> _]. done.
    + intros [= <- _]. done.
    + intros [= Hhi Hlo Heq].
      pose proof (byte_bound a). pose proof (byte_bound c).
      apply hexDigitUpper_inj in Hhi; [|Z.div_mod_to_equations; lia..].
      apply hexDigitUpper_inj in Hlo; [|Z.div_mod_to_equations; lia..].
      f_equal; [|by apply IH]. apply byte_inj.
      assert (Z.of_N (byte a) = Z.of_N (byte c)) by (Z.div_mod_to_equations; lia). lia.
Qed.

(** X15.  The QR code URL carries the token as one query value: the
    encoded token consists of unreserved characters and per-cent signs, so
    it cannot end the value or start another parameter; two tokens that
    differ give URLs that differ; and a token of lower-case hexadecimal
    digits, as [generateHash] produces, appears in the URL as it is. *)
Theorem getQRCodeUrl_carries_the_token (token token' : string) :
  (∃ value, getQRCodeUrl token
            = "https://chart.googleapis.com/chart?cht=qr&chs=300x300&chl=" +:+ value
     ∧ value = encodeURIComponent token
     ∧ Forall (λ c, uriUnreserved c = true ∨ c = "%"%char) (list_ascii_of_string value))
  ∧ (getQRCodeUrl token = getQRCodeUrl token' → token = token')
  ∧ (Forall (λ c, isLowerHex c = true) (list_ascii_of_string token) →
     getQRCodeUrl token
     = "https://chart.googleapis.com/chart?cht=qr&chs=300x300&chl=" +:+ token).
Proof.
  assert (Hurl : ∀ t, getQRCodeUrl t
                 = "https://chart.googleapis.com/chart?cht=qr&chs=300x300&chl="
                   +:+ encodeURIComponent t) by done.
  split; [|split].
  - exists (encodeURIComponent token). split; [done|]. split; [done|].
    apply encodeURIComponent_chars.
  - rewrite !Hurl. intros Heq. apply str_app_inv_head in Heq.
    by apply encodeURIComponent_inj.
  - intros Hhex. rewrite Hurl, encodeURIComponent_unreserved; [done|].
    eapply Forall_impl; [exact Hhex|]. apply isLowerHex_unreserved.
Qed.

(** * Ticket distribution *)

Section SendTicketsFacts.
Context `{Platform} `{Digest}.

(** One turn of the loop, on the row it has read. *)
Lemma sendTickets_body_spec (w : World.t) (st : Send.t) (i : nat) (row : Row) :
  Send.sheet st !! i = Some row →
  sendTickets_body w st i row
  = Send.mk (<[i := rowAfter w i row]> (Send.sheet st))
      (Send.sentCount st + (if delivered w i row then 1 else 0))
      (Send.errorCount st
       + (if negb (alreadySent row) && negb (delivered w i row) then 1 else 0))
      (Send.outbox st ++ if delivered w i row then [ticketMail (rowAfter w i row)] else []).
Proof.
  intros Hrow. destruct st as [sheet sent errors outbox]. cbn [Send.sheet] in Hrow.
  unfold sendTickets_body, rowAfter, delivered, attempted, alreadySent, deliverable.
  cbn [Send.sheet Send.sentCount Send.errorCount Send.outbox].
  destruct (decide (EmailSent row = CBool true ∨ EmailSent row = CStr "TRUE")) as [Hs|Hs].
  { rewrite bool_decide_eq_true_2 by done. cbn.
    by rewrite (list_insert_id _ _ _ Hrow), !Z.add_0_r, app_nil_r. }
  rewrite bool_decide_eq_false_2 by done. cbn [negb andb].
  destruct (truthy (ID row)) eqn:Hid; cbn [negb orb andb];
    [|by rewrite (list_insert_id _ _ _ Hrow), Z.add_0_r, app_nil_r].
  destruct (truthy (Name row)) eqn:Hname; cbn [negb orb andb];
    [|by rewrite (list_insert_id _ _ _ Hrow), Z.add_0_r, app_nil_r].
  destruct (truthy (Email row)) eqn:Hemail; cbn [negb orb andb];
    [|by rewrite (list_insert_id _ _ _ Hrow), Z.add_0_r, app_nil_r].
  destruct (truthy (Token row)) eqn:Htoken.
  - destruct (World.fetchThrows w i); cbn [negb andb];
      [by rewrite (list_insert_id _ _ _ Hrow), Z.add_0_r, app_nil_r|].
    destruct (World.sendThrows w i); cbn [negb andb];
      [by rewrite (list_insert_id _ _ _ Hrow), Z.add_0_r, app_nil_r|].
    rewrite (setValue_insert _ _ _ _ row Hrow), Z.add_0_r. done.
  - rewrite (setValue_insert _ _ _ _ row Hrow).
    destruct (World.fetchThrows w i); cbn [negb andb];
      [by rewrite Z.add_0_r, app_nil_r|].
    destruct (World.sendThrows w i); cbn [negb andb];
      [by rewrite Z.add_0_r, app_nil_r|].
    set (token := CStr (generateToken (ID row) (Z.of_nat i + 1) (World.timestamp w i))).
    rewrite (setValue_insert _ _ _ _ (setCell 4 token row)), list_insert_insert_eq, Z.add_0_r.
    + done.
    + apply list_lookup_insert_eq. by eapply lookup_lt_Some.
Qed.

(** The loop, row by row. *)
Lemma sendTickets_loop_spec (w : World.t) (rest : list Row) (st : Send.t) (i : nat) :
  drop i (Send.sheet st) = rest →
  sendTickets_loop w st i rest
  = Send.mk (take i (Send.sheet st) ++ rowsAfter w i rest)
      (Send.sentCount st + Z.of_nat (length (deliveries w i rest)))
      (Send.errorCount st + failures w i rest)
      (Send.outbox st ++ deliveries w i rest).
Proof.
  revert st i. induction rest as [|row rest IH]; intros st i Hdrop.
  { simpl. destruct st as [sheet sent errors outbox]. cbn in *.
    rewrite <- (take_drop i sheet) at 1. rewrite Hdrop, !app_nil_r, !Z.add_0_r. done. }
  assert (Hrow : Send.sheet st !! i = Some row).
  { rewrite <- (Nat.add_0_r i), <- lookup_drop, Hdrop. done. }
  cbn [sendTickets_loop]. rewrite sendTickets_body_spec by done.
  rewrite IH; cbn [Send.sheet Send.sentCount Send.errorCount Send.outbox].
  - cbn [rowsAfter deliveries failures]. f_equal.
    + rewrite (take_S_r _ _ (rowAfter w i row)), <- app_assoc.
      * rewrite take_insert_ge by lia. done.
      * apply list_lookup_insert_eq. by eapply lookup_lt_Some.
    + rewrite length_app. destruct (delivered w i row); simpl length; lia.
    + lia.
    + by rewrite app_assoc.
  - rewrite drop_insert_lt by lia.
    rewrite (drop_S _ row i Hrow) in Hdrop. by simplify_eq.
Qed.

(** The run, row by row. *)
Lemma sendTickets_spec (w : World.t) (sheet : Sheet) :
  sendTickets w sheet
  = Send.mk (take 1 sheet ++ rowsAfter w 1 (drop 1 sheet))
      (Z.of_nat (length (deliveries w 1 (drop 1 sheet))))
      (failures w 1 (drop 1 sheet))
      (deliveries w 1 (drop 1 sheet)).
Proof. unfold sendTickets. by rewrite sendTickets_loop_spec. Qed.

End SendTicketsFacts.

Section SendTicketsRows.
Context `{Platform} `{Digest}.

Lemma rowAfter_columns (w : World.t) (i : nat) (row : Row) :
  ticketColumns (rowAfter w i row) = ticketColumns row.
Proof.
  unfold rowAfter.
  by destruct (attempted row), (truthy (Token row)), (delivered w i row).
Qed.

Lemma rowAfter_token (w : World.t) (i : nat) (row : Row) :
  Token (rowAfter w i row)
  = if attempted row && negb (truthy (Token row))
    then CStr (generateToken (ID row) (Z.of_nat i + 1) (World.timestamp w i))
    else Token row.
Proof.
  unfold rowAfter.
  by destruct (attempted row), (truthy (Token row)), (delivered w i row).
Qed.

Lemma rowAfter_flag (w : World.t) (i : nat) (row : Row) :
  EmailSent (rowAfter w i row) = if delivered w i row then CBool true else EmailSent row.
Proof.
  unfold rowAfter, delivered.
  destruct (attempted row); [|done].
  by destruct (truthy (Token row)), (negb (World.fetchThrows w i)),
       (negb (World.sendThrows w i)).
Qed.

Lemma delivered_pending (w : World.t) (i : nat) (row : Row) :
  delivered w i row = true → alreadySent row = false ∧ deliverable row = true.
Proof.
  unfold delivered, attempted. destruct (alreadySent row), (deliverable row); try done.
Qed.

(** The sent flag of a row changes exactly when its delivery goes through. *)
Lemma rowAfter_flag_changes (w : World.t) (i : nat) (row : Row) :
  EmailSent (rowAfter w i row) = EmailSent row ↔ delivered w i row = false.
Proof.
  rewrite rowAfter_flag. destruct (delivered w i row) eqn:Hd; [|done].
  split; [|done]. intros Heq. apply delivered_pending in Hd as [Hs _].
  unfold alreadySent in Hs. apply bool_decide_eq_false in Hs. exfalso. apply Hs. by left.
Qed.

Lemma rowAfter_alreadySent (w : World.t) (i : nat) (row : Row) :
  alreadySent (rowAfter w i row) = alreadySent row || delivered w i row.
Proof.
  unfold alreadySent at 1. rewrite rowAfter_flag.
  destruct (delivered w i row) eqn:Hd.
  - rewrite bool_decide_eq_true_2 by (by left). by rewrite orb_true_r.
  - by rewrite orb_false_r.
Qed.

Lemma rowAfter_skipped (w : World.t) (i : nat) (row : Row) :
  attempted row = false → rowAfter w i row = row.
Proof. unfold rowAfter. by intros ->. Qed.

Lemma rowsAfter_lookup (w : World.t) (rest : list Row) (i k : nat) :
  rowsAfter w i rest !! k = rowAfter w (i + k) <$> rest !! k.
Proof.
  revert i k. induction rest as [|row rest IH]; intros i [|k]; simpl; try done.
  - by rewrite Nat.add_0_r.
  - rewrite IH. by replace (S i + k)%nat with (i + S k)%nat by lia.
Qed.

Lemma rowsAfter_length (w : World.t) (rest : list Row) (i : nat) :
  length (rowsAfter w i rest) = length rest.
Proof. revert i. induction rest as [|row rest IH]; intros i; simpl; [done|]. by rewrite IH. Qed.

(** The row with index [j] after the run. *)
Lemma sendTickets_lookup (w : World.t) (sheet : Sheet) (j : nat) :
  Send.sheet (sendTickets w sheet) !! j
  = (if decide (j = 0%nat) then sheet !! j else rowAfter w j <$> sheet !! j).
Proof.
  rewrite sendTickets_spec. cbn [Send.sheet].
  destruct sheet as [|h sheet]; [by destruct j; case_decide|].
  simpl. rewrite drop_0. destruct j as [|j]; [done|]. simpl.
  by rewrite rowsAfter_lookup.
Qed.

Lemma sendTickets_dataRows (w : World.t) (sheet : Sheet) :
  dataRows (Send.sheet (sendTickets w sheet)) = rowsAfter w 1 (dataRows sheet).
Proof.
  rewrite sendTickets_spec. cbn [Send.sheet]. unfold dataRows.
  destruct sheet as [|h sheet]; [done|]. simpl. by rewrite !drop_0.
Qed.

Lemma deliveries_failures (w : World.t) (rest : list Row) (i : nat) :
  Z.of_nat (length (deliveries w i rest)) + failures w i rest
  = cnt (λ row, negb (alreadySent row)) rest
  ∧ failures w i rest = cnt (λ row, negb (alreadySent row)) (rowsAfter w i rest)
  ∧ cnt (λ row, negb (alreadySent row) && negb (deliverable row)) rest ≤ failures w i rest.
Proof.
  revert i. induction rest as [|row rest IH]; intros i; [done|].
  destruct (IH (S i)) as (IH1 & IH2 & IH3).
  cbn [deliveries failures rowsAfter]. rewrite !cnt_cons, length_app, rowAfter_alreadySent.
  destruct (delivered w i row) eqn:Hd.
  - destruct (delivered_pending w i row Hd) as [-> ->]. simpl. lia.
  - rewrite orb_false_r. destruct (alreadySent row), (deliverable row); simpl; lia.
Qed.

Lemma deliveries_flagged (w : World.t) (rest : list Row) (i : nat) :
  deliveries w i rest = mailsOfFlagged rest (rowsAfter w i rest).
Proof.
  revert i. induction rest as [|row rest IH]; intros i; [done|].
  cbn [deliveries rowsAfter mailsOfFlagged]. rewrite IH. f_equal.
  destruct (delivered w i row) eqn:Hd.
  - rewrite decide_False; [done|]. rewrite rowAfter_flag_changes. congruence.
  - rewrite decide_True; [done|]. by rewrite rowAfter_flag_changes.
Qed.

Lemma deliveries_elem (w : World.t) (rest : list Row) (i : nat) (m : Mail.t) :
  m ∈ deliveries w i rest →
  ∃ k row, rest !! k = Some row ∧ delivered w (i + k) row = true
    ∧ m = ticketMail (rowAfter w (i + k) row).
Proof.
  revert i. induction rest as [|row rest IH]; intros i Hm; [by apply elem_of_nil in Hm|].
  cbn [deliveries] in Hm. apply elem_of_app in Hm as [Hm|Hm].
  - destruct (delivered w i row) eqn:Hd; [|by apply elem_of_nil in Hm].
    apply list_elem_of_singleton in Hm. exists 0%nat, row. by rewrite Nat.add_0_r.
  - destruct (IH (S i) Hm) as (k & r & Hk & Hd & ->).
    exists (S k), r. by replace (i + S k)%nat with (S i + k)%nat by lia.
Qed.

(** X16.  What [sendTickets] does to a row of the sheet.  The run keeps
    the number of rows and writes only the token and the sent flag: the
    id, name, e-mail, check-in time, ticket type, start time, re-entry
    history, inviter and note of every row stay as they are.  A token that
    is set is never replaced; a new token is the hash [generateToken]
    computes for the id and the row number.  The sent flag is only ever
    set to true.  The header row, a row already marked as sent (true or
    the text TRUE) and a row without id, name or e-mail are left as they
    are. *)
Theorem sendTickets_writes_token_and_flag (w : World.t) (sheet : Sheet) (i : nat) (row : Row) :
  sheet !! i = Some row →
  length (Send.sheet (sendTickets w sheet)) = length sheet
  ∧ ∃ row', Send.sheet (sendTickets w sheet) !! i = Some row'
      ∧ ticketColumns row' = ticketColumns row
      ∧ (truthy (Token row) = true → Token row' = Token row)
      ∧ (Token row' ≠ Token row →
         Token row' = CStr (generateToken (ID row) (Z.of_nat i + 1) (World.timestamp w i)))
      ∧ (EmailSent row' = EmailSent row ∨ EmailSent row' = CBool true)
      ∧ (i = 0%nat ∨ EmailSent row = CBool true ∨ EmailSent row = CStr "TRUE"
         ∨ truthy (ID row) = false ∨ truthy (Name row) = false ∨ truthy (Email row) = false →
         row' = row).
Proof.
  intros Hrow. split.
  { rewrite sendTickets_spec. cbn [Send.sheet].
    rewrite length_app, rowsAfter_length, length_take, length_drop.
    apply lookup_lt_Some in Hrow. lia. }
  rewrite sendTickets_lookup, Hrow.
  destruct (decide (i = 0%nat)) as [Hi|Hi].
  { exists row. repeat split; try done. by left. }
  exists (rowAfter w i row). cbn [fmap option_fmap option_map].
  split; [done|]. split; [apply rowAfter_columns|].
  rewrite rowAfter_token, rowAfter_flag.
  split; [intros ->; by rewrite andb_false_r|].
  split; [by destruct (attempted row && negb (truthy (Token row)))|].
  split; [destruct (delivered w i row); auto|].
  intros Hskip. apply rowAfter_skipped. unfold attempted, alreadySent, deliverable.
  destruct Hskip as [?|[Hs|[Hs|[Hd|[Hd|Hd]]]]]; [done|..].
  - rewrite bool_decide_eq_true_2 by (by left). done.
  - rewrite bool_decide_eq_true_2 by (by right). done.
  - rewrite Hd. apply andb_false_r.
  - rewrite Hd, andb_false_r. apply andb_false_r.
  - rewrite Hd, andb_false_r. apply andb_false_r.
Qed.

(** X17.  The counters of [sendTickets].  [sent] is the number of mails
    handed to the mail service; [sent] and [errors] together count the
    data rows that were not marked as sent before the run; [errors] is
    the number of data rows still not marked as sent after the run, and
    is at least the number of unsent rows without id, name or e-mail. *)
Theorem sendTickets_counters (w : World.t) (sheet : Sheet) :
  Send.sentCount (sendTickets w sheet) = Z.of_nat (length (Send.outbox (sendTickets w sheet)))
  ∧ Send.sentCount (sendTickets w sheet) + Send.errorCount (sendTickets w sheet)
    = cnt (λ row, negb (alreadySent row)) (dataRows sheet)
  ∧ Send.errorCount (sendTickets w sheet)
    = cnt (λ row, negb (alreadySent row)) (dataRows (Send.sheet (sendTickets w sheet)))
  ∧ cnt (λ row, negb (alreadySent row) && negb (deliverable row)) (dataRows sheet)
    ≤ Send.errorCount (sendTickets w sheet).
Proof.
  rewrite sendTickets_dataRows. rewrite sendTickets_spec.
  cbn [Send.sentCount Send.errorCount Send.outbox]. fold (dataRows sheet).
  destruct (deliveries_failures w (dataRows sheet) 1) as (H1 & H2 & H3).
  by repeat split.
Qed.

(** X18.  The mails of a run are those of the rows whose sent flag the run
    has changed, one each and in the order of the rows.  Every mail goes
    to the e-mail cell of a data row that is marked as sent after the run
    and was not before, under the fixed subject, and its QR code URL
    carries the token the sheet holds for that row after the run. *)
Theorem sendTickets_mails (w : World.t) (sheet : Sheet) :
  Send.outbox (sendTickets w sheet)
  = mailsOfFlagged (dataRows sheet) (dataRows (Send.sheet (sendTickets w sheet)))
  ∧ ∀ m, m ∈ Send.outbox (sendTickets w sheet) →
      ∃ i row row', (1 ≤ i)%nat ∧ sheet !! i = Some row
        ∧ Send.sheet (sendTickets w sheet) !! i = Some row'
        ∧ alreadySent row = false ∧ EmailSent row' = CBool true
        ∧ Mail.to m = Email row ∧ Mail.id m = ID row ∧ Mail.name m = Name row
        ∧ Mail.subject m = "イベント入場チケット / Event Entry Ticket"
        ∧ Mail.qrUrl m
          = "https://api.qrserver.com/v1/create-qr-code/?size=300x300&data="
            +:+ encodeURIComponent (toStr (Token row')).
Proof.
  split.
  { rewrite sendTickets_dataRows, sendTickets_spec. cbn [Send.outbox].
    apply deliveries_flagged. }
  intros m Hm. rewrite sendTickets_spec in Hm. cbn [Send.outbox] in Hm.
  destruct (deliveries_elem w _ _ m Hm) as (k & row & Hk & Hd & ->).
  rewrite lookup_drop in Hk.
  exists (1 + k)%nat, row, (rowAfter w (1 + k) row).
  split; [lia|]. split; [done|].
  split; [rewrite sendTickets_lookup, Hk; by rewrite decide_False by lia|].
  destruct (delivered_pending _ _ _ Hd) as [Hs _].
  split; [done|]. split; [by rewrite rowAfter_flag, Hd|].
  assert (Hcols := rowAfter_columns w (1 + k) row). unfold ticketColumns in Hcols.
  injection Hcols as Hid Hname Hemail _ _ _ _ _ _.
  cbn [ticketMail Mail.to Mail.id Mail.name Mail.subject Mail.qrUrl].
  by repeat split.
Qed.

(** X19.  A second run of [sendTickets].  It deals with the rows the
    first run counted as errors and with no other: its two counters add
    up to the errors of the first run, it sends no mail for a row that
    was marked as sent, and a row that got a token in the first run keeps
    it.  After a run without errors, a second run sends nothing and
    leaves the sheet as it is. *)
Theorem sendTickets_again (w1 w2 : World.t) (sheet : Sheet) :
  let first := sendTickets w1 sheet in
  let second := sendTickets w2 (Send.sheet first) in
  Send.sentCount second + Send.errorCount second = Send.errorCount first
  ∧ (∀ m, m ∈ Send.outbox second →
       ∃ i row, Send.sheet first !! i = Some row ∧ alreadySent row = false
         ∧ Mail.to m = Email row
         ∧ (truthy (Token row) = true → Mail.qrUrl m = mailedUrl (Token row)))
  ∧ (∀ i row row', Send.sheet first !! i = Some row → Send.sheet second !! i = Some row' →
       truthy (Token row) = true → Token row' = Token row)
  ∧ (Send.errorCount first = 0 → second = Send.mk (Send.sheet first) 0 0 []).
Proof.
  intros first second.
  assert (Herr : Send.errorCount first
                 = cnt (λ row, negb (alreadySent row)) (dataRows (Send.sheet first))).
  { unfold first. rewrite sendTickets_dataRows, sendTickets_spec. cbn [Send.errorCount].
    fold (dataRows sheet). by destruct (deliveries_failures w1 (dataRows sheet) 1) as (_ & ? & _). }
  assert (Hsum : Send.sentCount second + Send.errorCount second
                 = cnt (λ row, negb (alreadySent row)) (dataRows (Send.sheet first))).
  { unfold second. rewrite sendTickets_spec. cbn [Send.sentCount Send.errorCount].
    fold (dataRows (Send.sheet first)).
    by destruct (deliveries_failures w2 (dataRows (Send.sheet first)) 1) as (? & _). }
  split; [lia|]. split; [|split].
  - intros m Hm. unfold second in Hm. rewrite sendTickets_spec in Hm. cbn [Send.outbox] in Hm.
    destruct (deliveries_elem w2 _ _ m Hm) as (k & row & Hk & Hd & ->).
    rewrite lookup_drop in Hk. exists (1 + k)%nat, row.
    destruct (delivered_pending _ _ _ Hd) as [Hs _].
    split; [done|]. split; [done|].
    assert (Hcols := rowAfter_columns w2 (1 + k) row). unfold ticketColumns in Hcols.
    injection Hcols as _ _ Hemail _ _ _ _ _ _.
    split; [done|]. intros Htok. cbn [ticketMail Mail.qrUrl].
    by rewrite rowAfter_token, Htok, andb_false_r.
  - intros i row row' Hrow Hrow' Htok. unfold second in Hrow'.
    rewrite sendTickets_lookup, Hrow in Hrow'.
    case_decide; simplify_eq/=; [done|]. by rewrite rowAfter_token, Htok, andb_false_r.
  - intros Hzero. rewrite Hzero in Herr. symmetry in Herr.
    apply cnt_zero_forall in Herr.
    unfold second. rewrite sendTickets_spec. fold (dataRows (Send.sheet first)).
    assert (Hidle : ∀ (rest : list Row) (i : nat),
              Forall (λ r, negb (alreadySent r) = false) rest →
              rowsAfter w2 i rest = rest ∧ deliveries w2 i rest = []
              ∧ failures w2 i rest = 0).
    { intros rest i Hrest. revert i.
      induction Hrest as [|r rest Hr _ IH]; intros i; [done|].
      destruct (IH (S i)) as (IH1 & IH2 & IH3).
      cbn [rowsAfter deliveries failures]. rewrite IH1, IH2, IH3.
      assert (Ha : attempted r = false).
      { unfold attempted. by rewrite Hr. }
      assert (Hd : delivered w2 i r = false).
      { unfold delivered. by rewrite Ha. }
      rewrite (rowAfter_skipped _ _ _ Ha), Hd, Hr. done. }
    destruct (Hidle _ 1%nat Herr) as (-> & -> & ->).
    unfold dataRows. by rewrite take_drop.
Qed.

(** X20.  Sending tickets does not move the dashboard: the data
    [getDashboardData] reports are the same before and after a run. *)
Theorem dashboard_after_sendTickets (w : World.t) (sheet : Sheet) :
  getDashboardData (Send.sheet (sendTickets w sheet)) = getDashboardData sheet.
Proof.
  apply getDashboardData_columns. apply list_eq. intros j.
  rewrite !list_lookup_fmap, sendTickets_lookup.
  destruct (decide (j = 0%nat)) as [_|_]; [done|].
  destruct (sheet !! j) as [row|]; [|done]. simpl. f_equal.
  assert (Hcols := rowAfter_columns w j row). unfold ticketColumns in Hcols.
  injection Hcols as Hid _ _ Hc Ht _ _ _ _.
  unfold dashboardColumns. by rewrite Hid, Hc, Ht.
Qed.

End SendTicketsRows.

(** X16 at a sample sheet: Carol's ticket gets its token and its flag. *)
Lemma sendTickets_writes_token_and_flag_witness :
  let sheet := [headerRow; aliceRow; carolRow; bobRow] in
  let after := Send.sheet (sendTickets (H := runPlatform) (H0 := runDigest) calmWorld sheet) in
  length after = length sheet
  ∧ ∃ row', after !! 2%nat = Some row'
      ∧ ticketColumns row' = ticketColumns carolRow
      ∧ (truthy (Token carolRow) = true → Token row' = Token carolRow)
      ∧ (Token row' ≠ Token carolRow →
         Token row'
         = CStr (generateToken (H := runPlatform) (H0 := runDigest) (ID carolRow)
                   (Z.of_nat 2 + 1) (World.timestamp calmWorld 2)))
      ∧ (EmailSent row' = EmailSent carolRow ∨ EmailSent row' = CBool true)
      ∧ (2%nat = 0%nat ∨ EmailSent carolRow = CBool true ∨ EmailSent carolRow = CStr "TRUE"
         ∨ truthy (ID carolRow) = false ∨ truthy (Name carolRow) = false
         ∨ truthy (Email carolRow) = false →
         row' = carolRow).
Proof.
  intros sheet after.
  apply (sendTickets_writes_token_and_flag (H := runPlatform) (H0 := runDigest)
           calmWorld sheet 2 carolRow).
  reflexivity.
Defined.

(** * Normalisation settles *)

(** X21.  Normalising a ticket type twice is normalising it once: no new
    ticket-type name is itself an input of the comparison chain.  Every
    input of the chain is mapped to a key of [TICKET_CONFIG], and where the
    input is itself a key of [TICKET_CONFIG] (the price codes and
    Invitation), its reception window is the one of the type it is
    mapped to. *)
Theorem normalizeTicketType_settles (label : string) :
  normalizeTicketType (normalizeTicketType label) = normalizeTicketType label
  ∧ (label ∈ mappedAliases →
     is_Some (TICKET_CONFIG !! normalizeTicketType label)
     ∧ ∀ window, TICKET_CONFIG !! label = Some window →
                 lookupStartTime (normalizeTicketType label) = Window window).
Proof.
  split.
  - destruct (decide (label ∈ mappedAliases)) as [Hin|Hout].
    + apply normalizeTicketType_unmapped. by apply normalizeTicketType_mapped.
    + by rewrite !(normalizeTicketType_unmapped label Hout).
  - unfold mappedAliases. intros Hin.
    repeat (apply elem_of_cons in Hin as [->|Hin];
            [split; [by vm_compute; eexists|intros window; vm_compute; congruence]|]).
    by apply elem_of_nil in Hin.
Qed.

(** * Further instances on the sample sheets *)

(** X7 at a sample store. *)
Lemma getDashboardData_consistent_witness :
  (breakdownTotal (breakdown (getDashboardData (H := runPlatform)
                                [headerRow; aliceUsedRow; bobRow; aliceRow]))
   = total (getDashboardData (H := runPlatform) [headerRow; aliceUsedRow; bobRow; aliceRow])
   ∧ breakdownCheckedIn (breakdown (getDashboardData (H := runPlatform)
                                      [headerRow; aliceUsedRow; bobRow; aliceRow]))
     = checkedIn (getDashboardData (H := runPlatform)
                    [headerRow; aliceUsedRow; bobRow; aliceRow]))
  ∧ 1 ≤ Breakdown.total (Breakdown.mk 1 1) ∧ 0 ≤ Breakdown.checkedIn (Breakdown.mk 1 1) ≤ 1.
Proof.
  destruct (getDashboardData_consistent (H := runPlatform)
              [headerRow; aliceUsedRow; bobRow; aliceRow])
    as (_ & _ & _ & _ & Hsums & Hentries).
  split.
  - apply Hsums. apply (bool_decide_unpack _). by vm_compute.
  - apply (Hentries "GuestPass" (Breakdown.mk 1 1)). by vm_compute.
Defined.

(** X11 at the sample orders: the tokens stay unique. *)
Lemma syncECData_keeps_the_store_witness :
  tokens_unique (Attendees (syncECData (H := runPlatform) sampleOrders).2).
Proof.
  destruct (syncECData_keeps_the_store (H := runPlatform) sampleOrders)
    as (_ & _ & Hunique & _).
  apply Hunique. unfold tokens_unique. compute_done.
Defined.

(** X15 at a token as [generateHash] writes it. *)
Lemma getQRCodeUrl_carries_the_token_witness :
  getQRCodeUrl "43335f33"
  = "https://chart.googleapis.com/chart?cht=qr&chs=300x300&chl=" +:+ "43335f33".
Proof.
  destruct (getQRCodeUrl_carries_the_token "43335f33" "") as (_ & _ & Hhex).
  apply Hhex. apply (bool_decide_unpack _). by vm_compute.
Defined.

(** X18 at a sample sheet: the mail of Carol's ticket. *)
Lemma sendTickets_mails_witness :
  ∃ i row row', (1 ≤ i)%nat ∧ [headerRow; aliceRow; carolRow; bobRow] !! i = Some row
    ∧ Send.sheet (sendTickets (H := runPlatform) (H0 := runDigest) calmWorld
                    [headerRow; aliceRow; carolRow; bobRow]) !! i = Some row'
    ∧ alreadySent row = false ∧ EmailSent row' = CBool true
    ∧ CStr "carol@example.org" = Email row ∧ CStr "C3" = ID row ∧ CStr "Carol" = Name row
    ∧ ticketSubject = "イベント入場チケット / Event Entry Ticket"
    ∧ "https://api.qrserver.com/v1/create-qr-code/?size=300x300&data=43335f335f31303030"
      = "https://api.qrserver.com/v1/create-qr-code/?size=300x300&data="
        +:+ encodeURIComponent (toStr (H := runPlatform) (Token row')).
Proof.
  destruct (sendTickets_mails (H := runPlatform) (H0 := runDigest) calmWorld
              [headerRow; aliceRow; carolRow; bobRow]) as [_ Hmails].
  apply (Hmails (Mail.mk (CStr "carol@example.org") ticketSubject (CStr "Carol")
                   (CStr "PriorityPass") (CStr "18:30-19:00") (CStr "C3")
                   "https://api.qrserver.com/v1/create-qr-code/?size=300x300&data=43335f335f31303030")).
  vm_compute. apply list_elem_of_here.
Defined.

(** X19 at a sample sheet: after a run without errors a second run has
    nothing to do. *)
Lemma sendTickets_again_witness :
  sendTickets (H := runPlatform) (H0 := runDigest) calmWorld
    (Send.sheet (sendTickets (H := runPlatform) (H0 := runDigest) calmWorld
                   [headerRow; aliceRow; carolRow; bobRow]))
  = Send.mk (Send.sheet (sendTickets (H := runPlatform) (H0 := runDigest) calmWorld
                           [headerRow; aliceRow; carolRow; bobRow])) 0 0 [].
Proof.
  destruct (sendTickets_again (H := runPlatform) (H0 := runDigest) calmWorld calmWorld
              [headerRow; aliceRow; carolRow; bobRow]) as (_ & _ & _ & Hidle).
  apply Hidle. reflexivity.
Defined.

(** X21 at the price code 15400. *)
Lemma normalizeTicketType_settles_witness :
  is_Some (TICKET_CONFIG !! normalizeTicketType "15400")
  ∧ ∀ window, TICKET_CONFIG !! "15400" = Some window →
              lookupStartTime (normalizeTicketType "15400") = Window window.
Proof.
  destruct (normalizeTicketType_settles "15400") as [_ Hconfig].
  apply Hconfig. compute_done.
Defined.
